(** * Student-management query tool: export and query-shaping logic

    A shallow embedding of [lookup.py]: the two serializers
    ([store_data_as_json], [store_data_as_xml]), the export prompt
    ([offer_to_store]) and the canned lookups of the query layer, with the
    properties stated about them in the specification.

    Conventions of the model.
    - A Python [str] is a [string] whose characters are the code points
      below 256; on that range [str.lower], [str.strip] and the escaping of
      [json.dumps] are given in full.
    - A database value is a [scalar]: [None], an integer, a text, or a
      float that Python prints as a plain decimal of at most 15 digits.
    - A Python [dict] is an association list in insertion order; its keys
      are pairwise distinct.
    - Exceptions are values of [exn]; code that may raise returns a
      [result].
    - The library calls of the markup export and [open] are interfaces
      ([XmlLib], [FileSystem]): the first is held to what the
      pretty-printer does with a tree whose tags are XML names, the second
      says for which names [open] raises. *)

From Stdlib Require Import ZArith String Ascii List Lia Decimal DecimalZ DecimalPos DecimalFacts.
From stdpp Require Import base option list gmap strings.

Local Open Scope Z_scope.

(** Let [simpl] compute a concatenation whose left part is known. *)
#[local] Arguments String.append !_ _ / : simpl nomatch.

(** ** Characters *)

Module Ch.
Definition code (c : ascii) : N := N_of_ascii c.
Definition chr (n : N) : ascii := ascii_of_N n.

Definition quote : ascii := chr 34.
Definition backslash : ascii := chr 92.
Definition slash : ascii := chr 47.
Definition newline : ascii := chr 10.
Definition space : ascii := chr 32.
Definition dot : ascii := chr 46.
Definition comma : ascii := chr 44.
Definition colon : ascii := chr 58.
Definition minus : ascii := chr 45.
Definition plus : ascii := chr 43.
Definition underscore : ascii := chr 95.
Definition lbrace : ascii := chr 123.
Definition rbrace : ascii := chr 125.
Definition lbracket : ascii := chr 91.
Definition rbracket : ascii := chr 93.

Definition eqb (a b : ascii) : bool := N.eqb (code a) (code b).

Definition in_range (lo hi : N) (c : ascii) : bool :=
  (N.leb lo (code c) && N.leb (code c) hi)%bool.

Definition is_digit (c : ascii) : bool := in_range 48 57 c.

(** [str.isspace] on the code points below 256. *)
Definition is_space (c : ascii) : bool :=
  (in_range 9 13 c || in_range 28 32 c
   || N.eqb (code c) 133 || N.eqb (code c) 160)%bool.

(** The whitespace of the JSON grammar: space, tab, line feed, return. *)
Definition is_json_ws (c : ascii) : bool :=
  (N.eqb (code c) 32 || N.eqb (code c) 9
   || N.eqb (code c) 10 || N.eqb (code c) 13)%bool.

(** [str.lower] on one code point below 256: the ASCII capitals and the
    Latin-1 capitals (all of 192..222 but the multiplication sign). *)
Definition lower (c : ascii) : ascii :=
  if in_range 65 90 c then chr (code c + 32)
  else if (in_range 192 222 c && negb (N.eqb (code c) 215))%bool
       then chr (code c + 32)
       else c.
End Ch.

(** ** Strings *)

Module Str.
Fixpoint map (f : ascii -> ascii) (s : string) : string :=
  match s with
  | EmptyString => EmptyString
  | String c s' => String (f c) (map f s')
  end.

Fixpoint forallb (p : ascii -> bool) (s : string) : bool :=
  match s with
  | EmptyString => true
  | String c s' => (p c && forallb p s')%bool
  end.

Fixpoint existsb (p : ascii -> bool) (s : string) : bool :=
  match s with
  | EmptyString => false
  | String c s' => (p c || existsb p s')%bool
  end.

Fixpoint concat (l : list string) : string :=
  match l with
  | [] => EmptyString
  | s :: l' => s +:+ concat l'
  end.

(** [sep.join(l)] *)
Fixpoint join (sep : string) (l : list string) : string :=
  match l with
  | [] => EmptyString
  | [s] => s
  | s :: l' => s +:+ sep +:+ join sep l'
  end.

(** [s * n] *)
Fixpoint repeat (s : string) (n : nat) : string :=
  match n with
  | O => EmptyString
  | S n' => s +:+ repeat s n'
  end.

Definition is_empty (s : string) : bool :=
  match s with EmptyString => true | _ => false end.

Definition eqb (a b : string) : bool := bool_decide (a = b).

(** [s.lower()] *)
Definition lower (s : string) : string := map Ch.lower s.

Fixpoint lstrip (s : string) : string :=
  match s with
  | EmptyString => EmptyString
  | String c s' => if Ch.is_space c then lstrip s' else s
  end.

Fixpoint rstrip (s : string) : string :=
  match s with
  | EmptyString => EmptyString
  | String c s' =>
      match rstrip s' with
      | EmptyString => if Ch.is_space c then EmptyString else String c EmptyString
      | r => String c r
      end
  end.

(** [s.strip()] *)
Definition strip (s : string) : string := rstrip (lstrip s).

(** [c in s] for a one-character [c] *)
Definition contains (c : ascii) (s : string) : bool := existsb (Ch.eqb c) s.

(** [s.split(c)] for a one-character separator: never empty, the
    pieces are the maximal runs between separators. *)
Fixpoint split (c : ascii) (s : string) : list string :=
  match s with
  | EmptyString => [EmptyString]
  | String a s' =>
      if Ch.eqb a c then EmptyString :: split c s'
      else match split c s' with
           | [] => [String a EmptyString]
           | p :: ps => String a p :: ps
           end
  end.

(** [l[0]] and [l[-1]] on the result of a split *)
Definition first (l : list string) : string := List.hd EmptyString l.
Definition last (l : list string) : string := List.last l EmptyString.
End Str.

(** ** Values *)

(** *** Floats

    A float is held as the decimal that [repr] prints for it: a sign, the
    digits before the point and the digits after it.  The decimals taken
    are those of at most 15 significant digits, below ten to the 15th and
    not below a ten-thousandth, with no zero at the end of the fraction
    but a lone one: each is the shortest decimal of one float and is what
    Python prints for it, and it orders with the integers as that float
    does.  The other floats are outside the model. *)

Definition whole (fraction : uint) : bool := uint_beq fraction (D0 Nil).

Definition significant_digits (integer : N) (fraction : uint) : nat :=
  if N.eqb integer 0 then nb_digits (nzhead fraction)
  else (nb_digits (N.to_uint integer)
        + (if whole fraction then 0 else nb_digits fraction))%nat.

Definition real_ok (integer : N) (fraction : uint) : bool :=
  (negb (uint_beq fraction Nil)
   && (whole fraction
       || uint_beq (nzhead (Decimal.rev fraction)) (Decimal.rev fraction))
   && N.ltb integer 1000000000000000
   && Nat.leb (significant_digits integer fraction) 15
   && (negb (N.eqb integer 0) || whole fraction
       || Nat.leb (nb_digits fraction - nb_digits (nzhead fraction)) 3))%bool.

Record real : Type := Real {
  real_negative : bool;
  real_integer : N;
  real_fraction : uint;
  real_canonical : real_ok real_integer real_fraction = true
}.

(** [Real], when the digits are those of a decimal of the model. *)
Definition make_real (negative : bool) (integer : N) (fraction : uint)
  : option real :=
  match real_ok integer fraction as b
        return real_ok integer fraction = b -> option real with
  | true => fun ok => Some (Real negative integer fraction ok)
  | false => fun _ => None
  end eq_refl.

Definition real_is_zero (x : real) : bool :=
  (N.eqb (real_integer x) 0 && whole (real_fraction x))%bool.

(** The order of a float and an integer. *)
Definition real_compare_int (x : real) (n : Z) : comparison :=
  let magnitude (m : N) :=
    match N.compare (real_integer x) m with
    | Eq => if whole (real_fraction x) then Eq else Gt
    | c => c
    end in
  if real_is_zero x then Z.compare 0 n
  else if real_negative x then
    match n with
    | Zneg p => CompOpp (magnitude (Npos p))
    | _ => Lt
    end
  else
    match n with
    | Zpos p => magnitude (Npos p)
    | _ => Gt
    end.

Definition real_eqb (x y : real) : bool :=
  ((real_is_zero x && real_is_zero y)
   || (Bool.eqb (real_negative x) (real_negative y)
       && N.eqb (real_integer x) (real_integer y)
       && uint_beq (real_fraction x) (real_fraction y)))%bool.

(** What a column of a fetched row, and so a field of a Record, holds. *)
Inductive scalar : Type :=
| SNone
| SInt (n : Z)
| SStr (s : string)
| SReal (x : real).

(** A Record: a [dict] from field names to scalars, in insertion order. *)
Definition record : Type := list (string * scalar).

(** [d[key]], when the key is there. *)
Fixpoint dict_get (k : string) (d : record) : option scalar :=
  match d with
  | [] => None
  | (k', v) :: d' => if bool_decide (k = k') then Some v else dict_get k d'
  end.

(** What the serializers may be handed: a scalar, a [dict], or a [list]
    of such values. *)
Inductive pyval : Type :=
| PScalar (v : scalar)
| PDict (d : record)
| PList (l : list pyval).

(** A Result Set as the callers build it: one Record or a list of them. *)
Definition of_records (rs : list record) : pyval := PList (List.map PDict rs).

(** *** Decimal numerals: [int.__repr__] *)

Definition digit_char (n : N) : ascii := Ch.chr (48 + n).

Fixpoint string_of_uint (d : uint) : string :=
  match d with
  | Nil => EmptyString
  | D0 d => String (digit_char 0) (string_of_uint d)
  | D1 d => String (digit_char 1) (string_of_uint d)
  | D2 d => String (digit_char 2) (string_of_uint d)
  | D3 d => String (digit_char 3) (string_of_uint d)
  | D4 d => String (digit_char 4) (string_of_uint d)
  | D5 d => String (digit_char 5) (string_of_uint d)
  | D6 d => String (digit_char 6) (string_of_uint d)
  | D7 d => String (digit_char 7) (string_of_uint d)
  | D8 d => String (digit_char 8) (string_of_uint d)
  | D9 d => String (digit_char 9) (string_of_uint d)
  end.

Definition repr_int (z : Z) : string :=
  match Z.to_int z with
  | Pos d => string_of_uint d
  | Neg d => String Ch.minus (string_of_uint d)
  end.

(** [float.__repr__] *)
Definition repr_real (x : real) : string :=
  (if real_negative x then String Ch.minus EmptyString else EmptyString)
  +:+ string_of_uint (N.to_uint (real_integer x))
  +:+ String Ch.dot (string_of_uint (real_fraction x)).

(** [str(value)] on a scalar. *)
Definition py_str (v : scalar) : string :=
  match v with
  | SNone => "None"
  | SInt n => repr_int n
  | SStr s => s
  | SReal x => repr_real x
  end.

(** ** Exceptions *)

Inductive exn : Type :=
| ValueError
| AttributeError
| TypeError
| EOFError
| RecursionError
| ExpatError
| OSError.

Inductive result (A : Type) : Type :=
| Ok (a : A)
| Raise (e : exn).
Arguments Ok {A} a.
Arguments Raise {A} e.

(** ** The JSON encoder: [json.dumps(data, indent=4)] *)

Module Json.

Definition hex_digit (n : N) : ascii :=
  if N.ltb n 10 then Ch.chr (48 + n) else Ch.chr (87 + n).

(** ['\\u{0:04x}'.format(n)] for [n] below 256 *)
Definition u_escape (c : ascii) : string :=
  String Ch.backslash (String (Ch.chr 117)
    (String (digit_char 0) (String (digit_char 0)
      (String (hex_digit (Ch.code c / 16))
        (String (hex_digit (Ch.code c mod 16)) EmptyString))))).

Definition esc2 (c : ascii) : string := String Ch.backslash (String c EmptyString).

(** The replacement of one character by [py_encode_basestring_ascii]:
    the table [ESCAPE_DCT] first, then the characters from the space to
    the tilde as they are, then the [\u] form. *)
Definition escape_char (c : ascii) : string :=
  let n := Ch.code c in
  if N.eqb n 92 then esc2 Ch.backslash
  else if N.eqb n 34 then esc2 Ch.quote
  else if N.eqb n 8 then esc2 (Ch.chr 98)
  else if N.eqb n 12 then esc2 (Ch.chr 102)
  else if N.eqb n 10 then esc2 (Ch.chr 110)
  else if N.eqb n 13 then esc2 (Ch.chr 114)
  else if N.eqb n 9 then esc2 (Ch.chr 116)
  else if Ch.in_range 32 126 c then String c EmptyString
  else u_escape c.

Fixpoint escape (s : string) : string :=
  match s with
  | EmptyString => EmptyString
  | String c s' => escape_char c +:+ escape s'
  end.

Definition encode_basestring_ascii (s : string) : string :=
  String Ch.quote (escape s +:+ String Ch.quote EmptyString).

Definition encode_scalar (v : scalar) : string :=
  match v with
  | SNone => "null"
  | SInt n => repr_int n
  | SStr s => encode_basestring_ascii s
  | SReal x => repr_real x
  end.

Section Indent.
(** [_indent], the string repeated once per nesting level. *)
Variable indent : string.

Definition newline_indent (level : nat) : string :=
  String Ch.newline (Str.repeat indent level).

(** The item separator is [','] once an indent is given, the key
    separator [': ']. *)
Definition item_separator (level : nat) : string :=
  String Ch.comma (newline_indent level).
Definition key_separator : string := String Ch.colon (String Ch.space EmptyString).

Definition encode_item (kv : string * scalar) : string :=
  encode_basestring_ascii kv.1 +:+ key_separator +:+ encode_scalar kv.2.

Definition iterencode_dict (level : nat) (d : record) : string :=
  match d with
  | [] => "{}"
  | _ => String Ch.lbrace (newline_indent (S level)
           +:+ Str.join (item_separator (S level)) (List.map encode_item d)
           +:+ newline_indent level +:+ String Ch.rbrace EmptyString)
  end.

Fixpoint iterencode (level : nat) (o : pyval) : string :=
  match o with
  | PScalar v => encode_scalar v
  | PDict d => iterencode_dict level d
  | PList l =>
      match l with
      | [] => "[]"
      | _ => String Ch.lbracket (newline_indent (S level)
               +:+ Str.join (item_separator (S level))
                     (List.map (iterencode (S level)) l)
               +:+ newline_indent level +:+ String Ch.rbracket EmptyString)
      end
  end.
End Indent.

Definition dumps (data : pyval) : string := iterencode "    " 0 data.

End Json.


(** ** The JSON decoder: [json.loads]

    The reader of an exported file.  [None] stands both for a
    [JSONDecodeError] and for a document whose value is outside [pyval]
    (a boolean, a code point above 255, an object with a container as a
    field), and for a float that is not written as the decimal of the
    model that names it. *)

Module JsonDecoder.

(** [WHITESPACE.match(s, end).end()] *)
Fixpoint skip_ws (s : string) : string :=
  match s with
  | EmptyString => EmptyString
  | String c s' => if Ch.is_json_ws c then skip_ws s' else s
  end.

Fixpoint strip_prefix (p s : string) : option string :=
  match p, s with
  | EmptyString, _ => Some s
  | String a p', String b s' => if Ch.eqb a b then strip_prefix p' s' else None
  | String _ _, EmptyString => None
  end.

Definition hex_val (c : ascii) : option N :=
  let n := Ch.code c in
  if Ch.in_range 48 57 c then Some (n - 48)%N
  else if Ch.in_range 97 102 c then Some (n - 87)%N
  else if Ch.in_range 65 70 c then Some (n - 55)%N
  else None.

Definition hex4 (a b c d : ascii) : option N :=
  x3 ← hex_val a; x2 ← hex_val b;
  x1 ← hex_val c; x0 ← hex_val d;
  Some (((x3 * 16 + x2) * 16 + x1) * 16 + x0)%N.

(** The table [BACKSLASH] of the one-letter escapes. *)
Definition unescape (e : ascii) : option ascii :=
  let n := Ch.code e in
  if N.eqb n 34 then Some Ch.quote
  else if N.eqb n 92 then Some Ch.backslash
  else if N.eqb n 47 then Some Ch.slash
  else if N.eqb n 98 then Some (Ch.chr 8)
  else if N.eqb n 102 then Some (Ch.chr 12)
  else if N.eqb n 110 then Some (Ch.chr 10)
  else if N.eqb n 114 then Some (Ch.chr 13)
  else if N.eqb n 116 then Some (Ch.chr 9)
  else None.

(** [scanstring] in strict mode, from the character after the opening
    quote: the decoded text and what follows the closing quote. *)
Fixpoint scanstring (s : string) : option (string * string) :=
  match s with
  | EmptyString => None
  | String c s' =>
      if N.eqb (Ch.code c) 34 then Some (EmptyString, s')
      else if N.eqb (Ch.code c) 92 then
        match s' with
        | EmptyString => None
        | String e s'' =>
            if N.eqb (Ch.code e) 117 then
              match s'' with
              | String h1 (String h2 (String h3 (String h4 r))) =>
                  n ← hex4 h1 h2 h3 h4;
                  if N.ltb n 256 then
                    '(str, rest) ← scanstring r;
                    Some (String (Ch.chr n) str, rest)
                  else None
              | _ => None
              end
            else
              ch ← unescape e;
              '(str, rest) ← scanstring s'';
              Some (String ch str, rest)
        end
      else if N.ltb (Ch.code c) 32 then None
      else
        '(str, rest) ← scanstring s';
        Some (String c str, rest)
  end.

Definition digit_of (c : ascii) : option (uint -> uint) :=
  match Ch.code c with
  | 48%N => Some D0 | 49%N => Some D1 | 50%N => Some D2 | 51%N => Some D3
  | 52%N => Some D4 | 53%N => Some D5 | 54%N => Some D6 | 55%N => Some D7
  | 56%N => Some D8 | 57%N => Some D9
  | _ => None
  end.

(** The longest run of decimal digits at the head of [s]. *)
Fixpoint scan_digits (s : string) : uint * string :=
  match s with
  | EmptyString => (Nil, EmptyString)
  | String c s' =>
      match digit_of c with
      | Some D => let '(d, r) := scan_digits s' in (D d, r)
      | None => (Nil, s)
      end
  end.

(** The integer group of [NUMBER_RE]: an optional minus sign, then a
    lone zero or a digit run that does not start with zero. *)
Definition scan_integer (s : string) : option (Decimal.int * string) :=
  let '(neg, s1) :=
    match s with
    | String c s' => if N.eqb (Ch.code c) 45 then (true, s') else (false, s)
    | EmptyString => (false, s)
    end in
  let sign := if neg then Neg else Pos in
  match s1 with
  | EmptyString => None
  | String c s2 =>
      if N.eqb (Ch.code c) 48 then Some (sign (D0 Nil), s2)
      else if Ch.is_digit c then
        let '(d, r) := scan_digits s1 in Some (sign d, r)
      else None
  end.

(** The fraction group of [NUMBER_RE] at the head of [s]: its digits
    and what follows them. *)
Definition fraction (s : string) : option (uint * string) :=
  match s with
  | String c ((String d _) as s') =>
      if (N.eqb (Ch.code c) 46 && Ch.is_digit d)%bool then Some (scan_digits s')
      else None
  | _ => None
  end.

(** Whether the exponent group of [NUMBER_RE] matches at the head of
    [s]. *)
Definition exponent (s : string) : bool :=
  match s with
  | String c (String d r) =>
      ((N.eqb (Ch.code c) 101 || N.eqb (Ch.code c) 69)
       && (Ch.is_digit d
           || ((N.eqb (Ch.code d) 43 || N.eqb (Ch.code d) 45)
               && match r with String x _ => Ch.is_digit x | EmptyString => false end)))%bool
  | _ => false
  end.

(** [float(integer + frac)] *)
Definition parse_float (i : Decimal.int) (f : uint) : option real :=
  match i with
  | Pos d => make_real false (N.of_uint d) f
  | Neg d => make_real true (N.of_uint d) f
  end.

(** The number that [match_number] found: a float when the fraction or
    the exponent group matched. *)
Definition number (i : Decimal.int) (r : string) : option (pyval * string) :=
  match fraction r with
  | Some (f, r') =>
      if exponent r' then None
      else x ← parse_float i f; Some (PScalar (SReal x), r')
  | None =>
      if exponent r then None
      else Some (PScalar (SInt (Z.of_int i)), r)
  end.

(** [d[key] = value] on a [dict]: a present key keeps its place and
    takes the new value, a new key goes last. *)
Fixpoint dict_set (k : string) (v : scalar) (d : record) : record :=
  match d with
  | [] => [(k, v)]
  | (k', v') :: d' =>
      if Str.eqb k k' then (k', v) :: d' else (k', v') :: dict_set k v d'
  end.

(** [dict(pairs)] *)
Definition dict_of_pairs (pairs : list (string * scalar)) : record :=
  List.fold_left (fun d kv => dict_set kv.1 kv.2 d) pairs [].

Section Containers.
(** [scan_once], one nesting level down. *)
Variable scan : string -> option (pyval * string).

(** The loop of [JSONObject], entered right after the opening quote
    of a key. *)
Fixpoint object_items (fuel : nat) (s : string)
  : option (list (string * scalar) * string) :=
  match fuel with
  | O => None
  | S fuel' =>
      '(key, s1) ← scanstring s;
      match skip_ws s1 with
      | String c s2 =>
          if N.eqb (Ch.code c) 58 then
            '(v, s3) ← scan (skip_ws s2);
            match v with
            | PScalar x =>
                match skip_ws s3 with
                | String c' s4 =>
                    if N.eqb (Ch.code c') 125 then Some ([(key, x)], s4)
                    else if N.eqb (Ch.code c') 44 then
                      match skip_ws s4 with
                      | String q s5 =>
                          if N.eqb (Ch.code q) 34 then
                            '(pairs, r) ← object_items fuel' s5;
                            Some ((key, x) :: pairs, r)
                          else None
                      | EmptyString => None
                      end
                    else None
                | EmptyString => None
                end
            | _ => None
            end
          else None
      | EmptyString => None
      end
  end.

(** [JSONObject], from the character after the opening brace. *)
Definition JSONObject (fuel : nat) (s : string)
  : option (record * string) :=
  match skip_ws s with
  | String c s1 =>
      if N.eqb (Ch.code c) 125 then Some ([], s1)
      else if N.eqb (Ch.code c) 34 then
        '(pairs, r) ← object_items fuel s1;
        Some (dict_of_pairs pairs, r)
      else None
  | EmptyString => None
  end.

(** The loop of [JSONArray], entered at the head of a value. *)
Fixpoint array_items (fuel : nat) (s : string)
  : option (list pyval * string) :=
  match fuel with
  | O => None
  | S fuel' =>
      '(v, s1) ← scan s;
      match skip_ws s1 with
      | String c s2 =>
          if N.eqb (Ch.code c) 93 then Some ([v], s2)
          else if N.eqb (Ch.code c) 44 then
            '(vs, r) ← array_items fuel' (skip_ws s2);
            Some (v :: vs, r)
          else None
      | EmptyString => None
      end
  end.

(** [JSONArray], from the character after the opening bracket. *)
Definition JSONArray (fuel : nat) (s : string)
  : option (list pyval * string) :=
  match skip_ws s with
  | String c s1 =>
      if N.eqb (Ch.code c) 93 then Some ([], s1)
      else array_items fuel (skip_ws s)
  | EmptyString => None
  end.
End Containers.

(** [scan_once]: dispatch on the first character.  The fuel bounds the
    nesting depth and the number of items of a container. *)
Fixpoint scan_once (fuel : nat) (s : string) : option (pyval * string) :=
  match fuel with
  | O => None
  | S fuel' =>
      match s with
      | EmptyString => None
      | String c s' =>
          if N.eqb (Ch.code c) 34 then
            '(str, r) ← scanstring s';
            Some (PScalar (SStr str), r)
          else if N.eqb (Ch.code c) 123 then
            '(d, r) ← JSONObject (scan_once fuel') fuel' s';
            Some (PDict d, r)
          else if N.eqb (Ch.code c) 91 then
            '(vs, r) ← JSONArray (scan_once fuel') fuel' s';
            Some (PList vs, r)
          else if N.eqb (Ch.code c) 110 then
            r ← strip_prefix "null" s;
            Some (PScalar SNone, r)
          else
            '(i, r) ← scan_integer s;
            number i r
      end
  end.

(** [json.loads(s)]: one value between optional whitespace, and nothing
    after it.  A document of [n] characters nests less than [n] deep and
    no container in it has [n] items, so the fuel never runs out. *)
Definition loads (s : string) : option pyval :=
  '(v, r) ← scan_once (S (String.length s)) (skip_ws s);
  match skip_ws r with
  | EmptyString => Some v
  | String _ _ => None
  end.

End JsonDecoder.

(** ** The text of an encoded document

    What the statements about the two JSON functions speak of. *)

Module JsonShape.
Import Json JsonDecoder.

(** What may follow a value in an encoded document: nothing, a comma,
    or a line break. *)
Definition follows (r : string) : Prop :=
  match r with
  | EmptyString => True
  | String c _ => Ch.code c = 44%N \/ Ch.code c = 10%N
  end.

Definition starts_digit (r : string) : bool :=
  match r with
  | String c _ => Ch.is_digit c
  | EmptyString => false
  end.

(** The numerals of [Z.to_int] carry no leading zero. *)
Definition canonical (d : uint) : Prop :=
  d <> Nil /\ forall d', d = D0 d' -> d' = Nil.

Definition number_head (c : ascii) : bool :=
  (Ch.eqb c Ch.minus || Ch.is_digit c)%bool.

Definition starts_token (s : string) : Prop :=
  match s with
  | EmptyString => True
  | String c _ => Ch.is_json_ws c = false
  end.

(** The items after the first, each behind its separator. *)
Definition items_tail (indent : string) (level : nat) (d : record) : string :=
  Str.concat (List.map (String.append (item_separator indent level))
                (List.map encode_item d)).

End JsonShape.


(** ** Element trees: [xml.etree.ElementTree]

    Elements are mutable objects: [SubElement] attaches the new element to
    its parent and hands it back, and the text is assigned afterwards
    through that reference.  The heap keeps one [node] per allocated
    element; a reference is an index into it. *)

Module ET.

Record node : Type := Node {
  tag : string;
  text : option string;
  children : list nat
}.

Abbreviation heap := (list node).

Definition set_node_text (s : option string) (n : node) : node :=
  {| tag := tag n; text := s; children := children n |}.

Definition add_node_child (c : nat) (n : node) : node :=
  {| tag := tag n; text := text n; children := children n ++ [c] |}.

(** [ET.Element(tag)] *)
Definition Element (t : string) (h : heap) : nat * heap :=
  (length h, h ++ [Node t None []]).

(** [parent.append(child)] *)
Definition append (parent child : nat) (h : heap) : heap :=
  alter (add_node_child child) parent h.

(** [ET.SubElement(parent, tag)] *)
Definition SubElement (parent : nat) (t : string) (h : heap) : nat * heap :=
  let '(e, h1) := Element t h in (e, append parent e h1).

(** [element.text = s] *)
Definition set_text (e : nat) (s : string) (h : heap) : heap :=
  alter (set_node_text (Some s)) e h.

(** The tree below a reference, as a serializer walks it. *)
Inductive element : Type :=
| Elem (etag : string) (etext : option string) (echildren : list element).

Definition etag (e : element) : string := let 'Elem t _ _ := e in t.
Definition etext (e : element) : option string := let 'Elem _ x _ := e in x.
Definition echildren (e : element) : list element := let 'Elem _ _ c := e in c.

(** Walk the tree below [e]; [None] when the walk is deeper than
    [fuel] (a cycle) or leaves the heap. *)
Fixpoint walk (fuel : nat) (h : heap) (e : nat) : option element :=
  match fuel with
  | O => None
  | S fuel' =>
      n ← h !! e;
      cs ← mapM (walk fuel' h) (children n);
      Some (Elem (tag n) (text n) cs)
  end.

(** A tree with no cycle is no deeper than the heap is long. *)
Definition snapshot (h : heap) (e : nat) : option element :=
  walk (length h) h e.

End ET.

(** ** The markup serializer: building the tree *)

(** Lines 80-82 and 84-86: one leaf per field, the text assigned through
    the reference that [SubElement] returned. *)
Definition add_fields (parent : nat) (d : record) (h : ET.heap) : ET.heap :=
  List.fold_left
    (fun h kv =>
       let '(child, h1) := ET.SubElement parent kv.1 h in
       ET.set_text child (py_str kv.2) h1)
    d h.

(** Lines 78-82: the loop over the items of a list.  Only a [dict] has
    [items()]; on anything else the attribute lookup raises. *)
Fixpoint add_items (root : nat) (data : list pyval) (h : ET.heap)
  : result ET.heap :=
  match data with
  | [] => Ok h
  | item :: rest =>
      let '(item_element, h1) := ET.SubElement root "item" h in
      match item with
      | PDict d => add_items root rest (add_fields item_element d h1)
      | PScalar _ | PList _ => Raise AttributeError
      end
  end.

(** Lines 74-88 of [store_data_as_xml]: the root and what hangs below
    it, or the exception raised on the way. *)
Definition build_tree (data : pyval) : result (nat * ET.heap) :=
  let '(root, h) := ET.Element "data" [] in
  match data with
  | PList l =>
      match add_items root l h with
      | Ok h' => Ok (root, h')
      | Raise e => Raise e
      end
  | PDict d => Ok (root, add_fields root d h)
  | PScalar _ => Raise ValueError
  end.

(** ** The trees and heaps of the statements *)

Module XmlShape.
Import ET.
Local Open Scope nat_scope.

(** The leaf of one field, and the tree of one Record of a list. *)
Definition leaf (kv : string * scalar) : element :=
  Elem kv.1 (Some (py_str kv.2)) [].
Definition item (r : record) : element :=
  Elem "item" None (List.map leaf r).

Definition leaf_node (kv : string * scalar) : node :=
  Node kv.1 (Some (py_str kv.2)) [].

Definition add_children (cs : list nat) (n : node) : node :=
  {| tag := tag n; text := text n; children := children n ++ cs |}.

(** The nodes that one item and its fields occupy, and those of all
    the items after it, from address [base] on. *)
Fixpoint blocks (base : nat) (rs : list record) : heap :=
  match rs with
  | [] => []
  | r :: rs' =>
      Node "item" None (seq (S base) (length r))
        :: List.map leaf_node r ++ blocks (S base + length r) rs'
  end.

Fixpoint item_ids (base : nat) (rs : list record) : list nat :=
  match rs with
  | [] => []
  | r :: rs' => base :: item_ids (S base + length r) rs'
  end.

Definition need_item (r : record) : nat :=
  match r with
  | [] => 1
  | _ :: _ => 2
  end.

(** The document tree of a single Record and of a list of Records. *)
Definition record_tree (r : record) : element :=
  Elem "data" None (List.map leaf r).
Definition records_tree (rs : list record) : element :=
  Elem "data" None (List.map item rs).

End XmlShape.

(** ** The pretty-printer: [xml.etree.ElementTree] into [xml.dom.minidom]

    What lines 91-93 make of a tree whose tags are XML names: the tree is
    serialized, parsed again, and written out with one element per line.
    The parser refuses a control character, and reads a carriage return,
    with the line feed that may follow it, as one line feed. *)

Module Minidom.
Import ET.

(** The characters of a name, among the code points below 256; the colon
    is left out, which the parser takes for a namespace prefix. *)
Definition name_start (c : ascii) : bool :=
  (Ch.in_range 65 90 c || N.eqb (Ch.code c) 95 || Ch.in_range 97 122 c
   || Ch.in_range 192 214 c || Ch.in_range 216 246 c || Ch.in_range 248 255 c)%bool.

Definition name_char (c : ascii) : bool :=
  (name_start c || Ch.in_range 48 57 c || Ch.in_range 45 46 c
   || N.eqb (Ch.code c) 183)%bool.

Definition is_name (s : string) : bool :=
  match s with
  | EmptyString => false
  | String c s' => (name_start c && Str.forallb name_char s')%bool
  end.

(** The characters that no document may hold: those below the space
    but the tab, the line feed and the carriage return. *)
Definition is_control (c : ascii) : bool :=
  (N.ltb (Ch.code c) 32
   && negb (N.eqb (Ch.code c) 9 || N.eqb (Ch.code c) 10 || N.eqb (Ch.code c) 13))%bool.

(** The line ends as the parser hands them on. *)
Fixpoint normalize (s : string) : string :=
  match s with
  | EmptyString => EmptyString
  | String c s' =>
      if N.eqb (Ch.code c) 13 then
        String Ch.newline
          match s' with
          | String d s'' => if N.eqb (Ch.code d) 10 then normalize s'' else normalize s'
          | EmptyString => EmptyString
          end
      else String c (normalize s')
  end.

(** [_write_data]: the four replacements of character data. *)
Definition write_data_char (c : ascii) : string :=
  let n := Ch.code c in
  if N.eqb n 38 then "&amp;"
  else if N.eqb n 60 then "&lt;"
  else if N.eqb n 34 then "&quot;"
  else if N.eqb n 62 then "&gt;"
  else String c EmptyString.

Fixpoint write_data (s : string) : string :=
  match s with
  | EmptyString => EmptyString
  | String c s' => write_data_char c +:+ write_data s'
  end.

Definition newl : string := String Ch.newline EmptyString.
Definition addindent : string := "  ".

(** [Element.writexml(writer, indent, addindent, newl)] on the node that
    the parser built for [e]: an element with no content closes itself, an
    element whose only child is a text stays on one line, and any other
    has its children on lines of their own, one step further in. *)
Fixpoint writexml (indent : string) (e : element) : string :=
  match e with
  | Elem tag text children =>
      let data := normalize (default EmptyString text) in
      let inner := indent +:+ addindent in
      indent +:+ "<" +:+ tag +:+
      match data, children with
      | EmptyString, [] => "/>" +:+ newl
      | String _ _, [] =>
          ">" +:+ write_data data +:+ "</" +:+ tag +:+ ">" +:+ newl
      | _, _ :: _ =>
          ">" +:+ newl
          +:+ match data with
              | EmptyString => EmptyString
              | String _ _ => write_data (inner +:+ data +:+ newl)
              end
          +:+ Str.concat (List.map (writexml inner) children)
          +:+ indent +:+ "</" +:+ tag +:+ ">" +:+ newl
      end
  end.

Definition declaration : string :=
  "<?xml version=" +:+ String Ch.quote ("1.0" +:+ String Ch.quote " ?>").

(** [Document.toprettyxml(indent="  ")] *)
Definition toprettyxml (root : element) : string :=
  declaration +:+ newl +:+ writexml EmptyString root.

Fixpoint has_control (e : element) : bool :=
  match e with
  | Elem _ text children =>
      (Str.existsb is_control (default EmptyString text)
       || List.existsb has_control children)%bool
  end.

Fixpoint well_named (e : element) : bool :=
  match e with
  | Elem tag _ children => (is_name tag && List.forallb well_named children)%bool
  end.

(** [minidom.parseString(ET.tostring(root, 'utf-8')).toprettyxml(indent="  ")]
    for a tree whose tags are names. *)
Definition reparse (root : element) : result string :=
  if has_control root then Raise ExpatError else Ok (toprettyxml root).

End Minidom.

(** ** The world: files and the terminal *)

(** Text is written through a UTF-8 codec. *)
Definition utf8_char (c : ascii) : list ascii :=
  let n := Ch.code c in
  if N.ltb n 128 then [c]
  else [Ch.chr (192 + n / 64); Ch.chr (128 + n mod 64)].

Fixpoint utf8_encode (s : string) : list ascii :=
  match s with
  | EmptyString => []
  | String c s' => utf8_char c ++ utf8_encode s'
  end.

(** The reading side of the codec, on the byte sequences that encode
    code points below 256; [None] on any other sequence. *)
Fixpoint utf8_decode (b : list ascii) : option string :=
  match b with
  | [] => Some EmptyString
  | c :: b' =>
      if N.ltb (Ch.code c) 128 then String c <$> utf8_decode b'
      else
        match b' with
        | d :: b'' =>
            if (Ch.in_range 194 195 c && Ch.in_range 128 191 d)%bool
            then String (Ch.chr ((Ch.code c - 192) * 64 + (Ch.code d - 128)))
                   <$> utf8_decode b''
            else None
        | [] => None
        end
  end.

(** A file holds bytes. *)
Record world : Type := World {
  files : gmap string (list ascii);
  stdout : list string
}.

Definition print (s : string) (w : world) : world :=
  {| files := files w; stdout := stdout w ++ [s] |}.

(** [f.write(text)] and the closing of a file that
    [open(filename, 'w', encoding='utf-8')] has opened: the file holds the
    encoded text and nothing of what it held before. *)
Definition write_text (filename text : string) (w : world) : world :=
  {| files := <[filename := utf8_encode text]> (files w); stdout := stdout w |}.

(** [open(filename, encoding='utf-8').read()], when the file is there
    and holds well-formed text. *)
Definition read_text (filename : string) (w : world) : option string :=
  b ← files w !! filename; utf8_decode b.

Definition nl (s : string) : string := String Ch.newline s.
Definition bold (s : string) : string :=
  String (Ch.chr 27) "[1m" +:+ s +:+ String (Ch.chr 27) "[0m".

(** The two library calls of lines 91-93, which the sources do not
    define: [ET.tostring(root, 'utf-8')], and
    [minidom.parseString(...).toprettyxml(indent="  ")], which raises when
    the rough string is not well-formed.  For a tree whose tags are names
    the two calls together give what [Minidom.reparse] says; a tag that is
    no name may make a rough string of any kind. *)
Class XmlLib : Type := {
  tostring : ET.element -> string;
  parse_toprettyxml : string -> result string;
  reparse_named : forall root : ET.element,
    Minidom.well_named root = true ->
    parse_toprettyxml (tostring root) = Minidom.reparse root
}.

(** [open(filename, 'w', encoding='utf-8')], which the sources do not
    define either: the exception that the call raises for a name, or
    [None] when it opens the file.  The interpreter raises [ValueError] for
    a name that holds a NUL, and [OSError] when the system refuses the
    name (a directory that is missing, a directory in the place of the
    file, a medium that cannot be written). *)
Class FileSystem : Type := {
  open_w : string -> option exn
}.

(** The file system in which every name can be opened for writing. *)
#[export] Instance writable : FileSystem := {|
  open_w := fun _ => None
|}.

Section Exporter.
Context `{XmlLib}.
Context `{FS : FileSystem}.

Definition store_data_as_json (data : pyval) (filename : string) (w : world)
  : result unit * world :=
  let json_data := Json.dumps data in
  match open_w filename with
  | Some e => (Raise e, w)
  | None =>
      let w1 := write_text filename json_data w in
      (Ok tt, print (nl "Data successfully written to " +:+ filename) w1)
  end.

(** Lines 91-98 of [store_data_as_xml]: the tree is serialized,
    reparsed and pretty-printed, and the text written to the file. *)
Definition write_tree (tree : ET.element) (filename : string) (w : world)
  : result unit * world :=
  let rough_string := tostring tree in
  match parse_toprettyxml rough_string with
  | Raise e => (Raise e, w)
  | Ok pretty_xml =>
      match open_w filename with
      | Some e => (Raise e, w)
      | None =>
          let w1 := write_text filename pretty_xml w in
          (Ok tt, print (nl "Data successfully written to " +:+ filename) w1)
      end
  end.

Definition store_data_as_xml (data : pyval) (filename : string) (w : world)
  : result unit * world :=
  match build_tree data with
  | Raise e => (Raise e, w)
  | Ok (root, h) =>
      match ET.snapshot h root with
      | None => (Raise RecursionError, w)
      | Some tree => write_tree tree filename w
      end
  end.

(** *** [int(text)] in base ten *)

Definition digit_value (c : ascii) : Z := Z.of_N (Ch.code c - 48).

(** The blanks that [int] skips at either end of its text: the white
    space of C, and the two spaces among the code points from 128 to 255.
    The separators 28 to 31, which [str.strip] removes, are not among
    them. *)
Definition is_blank (c : ascii) : bool :=
  (Ch.in_range 9 13 c || N.eqb (Ch.code c) 32
   || N.eqb (Ch.code c) 133 || N.eqb (Ch.code c) 160)%bool.

Fixpoint skip_blanks (s : string) : string :=
  match s with
  | EmptyString => EmptyString
  | String c s' => if is_blank c then skip_blanks s' else s
  end.

Fixpoint drop_blanks (s : string) : string :=
  match s with
  | EmptyString => EmptyString
  | String c s' =>
      match drop_blanks s' with
      | EmptyString => if is_blank c then EmptyString else String c EmptyString
      | r => String c r
      end
  end.

(** Digits, with single underscores allowed between two digits. *)
Fixpoint int_digits (s : string) (acc : Z) (after_digit : bool) : option Z :=
  match s with
  | EmptyString => if after_digit then Some acc else None
  | String c s' =>
      if Ch.is_digit c then int_digits s' (10 * acc + digit_value c) true
      else if (Ch.eqb c Ch.underscore && after_digit)%bool
           then int_digits s' acc false
           else None
  end.

(** [sys.get_int_max_str_digits()], as the interpreter sets it: a
    literal of more digits is refused, leading zeros counted. *)
Definition int_max_str_digits : nat := 4300.

Fixpoint count_digits (s : string) : nat :=
  match s with
  | EmptyString => O
  | String c s' => ((if Ch.is_digit c then 1 else 0) + count_digits s')%nat
  end.

Definition int_literal (s : string) : option Z :=
  if Nat.ltb int_max_str_digits (count_digits s) then None
  else int_digits s 0 false.

(** [None] is the [ValueError] of a text that is no integer literal. *)
Definition py_int (s : string) : option Z :=
  match drop_blanks (skip_blanks s) with
  | EmptyString => None
  | String c s' =>
      if Ch.eqb c Ch.minus then Z.opp <$> int_literal s'
      else if Ch.eqb c Ch.plus then int_literal s'
      else int_literal (String c s')
  end.

(** *** The export prompt *)

(** Which of the two nested loops of [offer_to_store] is reading. *)
Inductive prompt : Type :=
| AskChoice
| AskFilename.

(** What the filename check of lines 121-133 decides. *)
Inductive target : Type :=
| BadName
| ToXml
| ToJson
| BadExtension.

Definition classify (filename : string) : target :=
  if (Str.is_empty filename
      || negb (Str.contains Ch.dot filename)
      || Str.is_empty (Str.first (Str.split Ch.dot filename)))%bool
  then BadName
  else
    let ext := Str.lower (Str.last (Str.split Ch.dot filename)) in
    if Str.eqb ext "xml" then ToXml
    else if Str.eqb ext "json" then ToJson
    else BadExtension.

Definition msg_save : string := nl "Would you like to save this result as a file?".
Definition msg_choice : string := nl "Enter 1 for Yes or 2 for No: ".
Definition msg_filename : string := nl "Specify filename. Must end in .xml or .json: ".
Definition msg_bad_name : string :=
  nl "Invalid filename. Please enter a valid filename with a base name and .xml or .json extension.".
Definition msg_bad_ext : string := nl "Invalid file extension. Please use .xml or .json.".
Definition msg_no_file : string := nl "No file will be saved.".
Definition msg_bad_choice : string := nl "Invalid choice. Please enter 1 for Yes or 2 for No.".
Definition msg_bad_input : string :=
  nl "Invalid input. Please enter a valid number (1 for Yes, 2 for No).".

(** [offer_to_store], one line of input per turn of either loop.  The
    result is what the call returns or raises, the input left unread,
    and the world.  [input] raises [EOFError] when nothing is left; a
    [ValueError] from inside the [try] goes back to the first question. *)
Fixpoint offer_loop (data : pyval) (p : prompt) (inputs : list string)
  (w : world) : result unit * list string * world :=
  match p with
  | AskChoice =>
      let w := print msg_choice (print msg_save w) in
      match inputs with
      | [] => (Raise EOFError, [], w)
      | line :: rest =>
          match py_int line with
          | None => offer_loop data AskChoice rest (print msg_bad_input w)
          | Some 1 => offer_loop data AskFilename rest w
          | Some 2 => (Ok tt, rest, print msg_no_file w)
          | Some _ => offer_loop data AskChoice rest (print msg_bad_choice w)
          end
      end
  | AskFilename =>
      let w := print msg_filename w in
      match inputs with
      | [] => (Raise EOFError, [], w)
      | line :: rest =>
          let filename := Str.strip line in
          match classify filename with
          | BadName => offer_loop data AskFilename rest (print msg_bad_name w)
          | BadExtension => offer_loop data AskFilename rest (print msg_bad_ext w)
          | ToXml =>
              match store_data_as_xml data filename w with
              | (Ok _, w') => (Ok tt, rest, w')
              | (Raise ValueError, w') =>
                  offer_loop data AskChoice rest (print msg_bad_input w')
              | (Raise e, w') => (Raise e, rest, w')
              end
          | ToJson =>
              match store_data_as_json data filename w with
              | (Ok _, w') => (Ok tt, rest, w')
              | (Raise ValueError, w') =>
                  offer_loop data AskChoice rest (print msg_bad_input w')
              | (Raise e, w') => (Raise e, rest, w')
              end
          end
      end
  end.

Definition offer_to_store (data : pyval) (inputs : list string) (w : world)
  : result unit * list string * world :=
  offer_loop data AskChoice inputs w.

End Exporter.

(** ** The persistent store *)

(** Modelled from the spec: the tables of [create_database.sql], which is
    not among the sources; section 6 of the specification names them and
    their columns.  A column holds a [scalar]; no key or foreign-key
    constraint is assumed. *)
Record Student : Type := {
  s_student_id : scalar;
  s_first_name : scalar;
  s_last_name : scalar;
  s_email : scalar;
  s_address_id : scalar
}.

Record Course : Type := {
  c_course_code : scalar;
  c_course_name : scalar;
  c_teacher_id : scalar
}.

Record StudentCourse : Type := {
  sc_student_id : scalar;
  sc_course_code : scalar;
  sc_is_complete : scalar;
  sc_mark : scalar
}.

Record Address : Type := {
  a_address_id : scalar;
  a_street : scalar;
  a_city : scalar
}.

Record Review : Type := {
  r_student_id : scalar;
  r_course_code : scalar;
  r_completeness : scalar;
  r_efficiency : scalar;
  r_style : scalar;
  r_documentation : scalar;
  r_review_text : scalar
}.

Record database : Type := {
  Students : list Student;
  Courses : list Course;
  StudentCourses : list StudentCourse;
  Addresses : list Address;
  Reviews : list Review
}.

(** *** Comparisons of the [WHERE] clauses

    A comparison with [NULL] is never true; numbers compare by value,
    an integer with a float too; a number and a text are never equal, and
    every text sorts after every number. *)

Definition sql_eq (a b : scalar) : bool :=
  match a, b with
  | SInt x, SInt y => Z.eqb x y
  | SStr x, SStr y => Str.eqb x y
  | SReal x, SReal y => real_eqb x y
  | SReal x, SInt n | SInt n, SReal x =>
      match real_compare_int x n with
      | Eq => true
      | _ => false
      end
  | _, _ => false
  end.

(** [column <= n] for an integer literal [n] *)
Definition sql_le_int (a : scalar) (n : Z) : bool :=
  match a with
  | SInt x => Z.leb x n
  | SReal x =>
      match real_compare_int x n with
      | Gt => false
      | _ => true
      end
  | SNone | SStr _ => false
  end.

(** [column IN (?, ..., ?)] *)
Definition sql_in (a : scalar) (l : list scalar) : bool :=
  List.existsb (sql_eq a) l.

(** [cur.fetchone()] and [cur.fetchall()] on the rows of the statement
    just executed. *)
Definition fetchone {A : Type} (rows : list A) : option A := List.head rows.
Definition fetchall {A : Type} (rows : list A) : list A := rows.

(** *** The statements, each with the rows it selects, in table order *)

(** [SELECT first_name, last_name, email FROM Student WHERE student_id=?] *)
Definition select_student_info (db : database) (student_id : scalar)
  : list (scalar * scalar * scalar) :=
  List.map (fun s => (s_first_name s, s_last_name s, s_email s))
    (List.filter (fun s => sql_eq (s_student_id s) student_id) (Students db)).

(** [SELECT course_name FROM Course WHERE course_code=?] *)
Definition select_course_name (db : database) (course_code : scalar)
  : list scalar :=
  List.map c_course_name
    (List.filter (fun c => sql_eq (c_course_code c) course_code) (Courses db)).

(** [SELECT first_name, last_name FROM Student] *)
Definition select_student_names (db : database) : list (scalar * scalar) :=
  List.map (fun s => (s_first_name s, s_last_name s)) (Students db).

(** [SELECT course_code FROM StudentCourse WHERE student_id=?] *)
Definition select_course_codes (db : database) (student_id : scalar)
  : list scalar :=
  List.map sc_course_code
    (List.filter (fun e => sql_eq (sc_student_id e) student_id) (StudentCourses db)).

(** [SELECT course_name FROM Course WHERE course_code IN (?, ..., ?)] *)
Definition select_course_names_in (db : database) (course_codes : list scalar)
  : list scalar :=
  List.map c_course_name
    (List.filter (fun c => sql_in (c_course_code c) course_codes) (Courses db)).

(** [SELECT address_id FROM Student WHERE first_name=? AND last_name=?] *)
Definition select_address_id (db : database) (firstname surname : scalar)
  : list scalar :=
  List.map s_address_id
    (List.filter
       (fun s => (sql_eq (s_first_name s) firstname
                  && sql_eq (s_last_name s) surname)%bool)
       (Students db)).

(** [SELECT street, city FROM Address WHERE address_id=?] *)
Definition select_address (db : database) (address_id : scalar)
  : list (scalar * scalar) :=
  List.map (fun a => (a_street a, a_city a))
    (List.filter (fun a => sql_eq (a_address_id a) address_id) (Addresses db)).

(** [SELECT course_code, completeness, efficiency, style, documentation,
    review_text FROM Review WHERE student_id=?] *)
Definition select_reviews (db : database) (student_id : scalar)
  : list Review :=
  List.filter (fun r => sql_eq (r_student_id r) student_id) (Reviews db).

(** [SELECT course_name FROM Course WHERE teacher_id=?] *)
Definition select_courses_by_teacher (db : database) (teacher_id : scalar)
  : list scalar :=
  List.map c_course_name
    (List.filter (fun c => sql_eq (c_teacher_id c) teacher_id) (Courses db)).

(** [SELECT student_id, course_code FROM StudentCourse WHERE is_complete = 0] *)
Definition select_incomplete (db : database) : list (scalar * scalar) :=
  List.map (fun e => (sc_student_id e, sc_course_code e))
    (List.filter (fun e => sql_eq (sc_is_complete e) (SInt 0)) (StudentCourses db)).

(** The rows that [WHERE mark <= 30] keeps. *)
Definition low_rows (db : database) : list StudentCourse :=
  List.filter (fun e => sql_le_int (sc_mark e) 30) (StudentCourses db).

(** [SELECT student_id, course_code, mark FROM StudentCourse WHERE mark <= 30] *)
Definition select_low_marks (db : database) : list (scalar * scalar * scalar) :=
  List.map (fun e => (sc_student_id e, sc_course_code e, sc_mark e)) (low_rows db).

(** ** The lookups *)

Definition get_student_info (db : database) (student_id : scalar)
  : option (scalar * scalar * scalar) :=
  fetchone (select_student_info db student_id).

(** [cur.fetchone()[0]]: subscripting the [None] of an empty result
    raises [TypeError]. *)
Definition get_course_name (db : database) (course_code : scalar)
  : result scalar :=
  match fetchone (select_course_name db course_code) with
  | Some name => Ok name
  | None => Raise TypeError
  end.

Section Lookups.
Context `{XmlLib}.
Context `{FS : FileSystem}.
(** [str.upper], which leaves the code points below 256 and so is not
    given here. *)
Variable upper : string -> string.

(** Lines 144-156, on the line that [input] returned. *)
Definition go_back_to_menu (line : string) : bool :=
  Str.eqb (Str.strip (upper line)) "B".

Definition msg_go_back : string :=
  nl "Enter 'B' to go back to the main menu or any other key to continue: ".

(** Lines 239-246: the codes of the enrollment rows, then the names of
    the courses whose code is among them, one Record each. *)
Definition subjects_data (db : database) (courses : list scalar)
  : list record :=
  let course_codes := courses in
  let subjects := fetchall (select_course_names_in db course_codes) in
  List.map (fun subject => [("course_name", subject)]) subjects.

(** Lines 248-249; every Record of [subjects_data] has the field. *)
Definition print_subjects (data : list record) (w : world) : world :=
  List.fold_left
    (fun w subject_data =>
       match dict_get "course_name" subject_data with
       | Some name => print (nl (bold "Course Name:") +:+ " " +:+ py_str name) w
       | None => w
       end)
    data w.

Fixpoint view_subjects_by_student (db : database) (inputs : list string)
  (w : world) : result unit * list string * world :=
  let w := print (nl "Enter student ID: ") w in
  match inputs with
  | [] => (Raise EOFError, [], w)
  | line :: rest =>
      let student_id := Str.strip (upper line) in
      let courses := fetchall (select_course_codes db (SStr student_id)) in
      match courses with
      | _ :: _ =>
          match subjects_data db courses with
          | (_ :: _) as data =>
              let w := print (nl (bold "Subjects taken by the student:")) w in
              offer_to_store (of_records data) rest (print_subjects data w)
          | [] => (Ok tt, rest, print (nl "No subjects found for this student.") w)
          end
      | [] =>
          let w := print (nl "Incorrect student ID " +:+ student_id
                          +:+ ". Please try again.") w in
          let w := print msg_go_back w in
          match rest with
          | [] => (Raise EOFError, [], w)
          | answer :: rest' =>
              if go_back_to_menu answer then (Ok tt, rest', w)
              else view_subjects_by_student db rest' w
          end
      end
  end.

(** *** The two listings over the enrollment table *)

Definition incomplete_record (student_id course_code : scalar)
  (info : scalar * scalar * scalar) (course_name : scalar) : record :=
  let '(first_name, last_name, email) := info in
  [("student_id", student_id); ("course_code", course_code);
   ("first_name", first_name); ("last_name", last_name);
   ("email", email); ("course_name", course_name)].

Definition incomplete_line (count : Z) (student_id : scalar)
  (info : scalar * scalar * scalar) (course_name : scalar) : string :=
  let '(first_name, last_name, email) := info in
  repr_int count +:+ ". " +:+ py_str student_id +:+ " " +:+ py_str first_name
    +:+ " " +:+ py_str last_name +:+ " (" +:+ py_str email +:+ ") - Course: "
    +:+ py_str course_name.

(** Lines 409-424: the loop body looks up the student, then the course
    name, and keeps the row only when the student was found. *)
Fixpoint incomplete_loop (db : database) (rows : list (scalar * scalar))
  (count : Z) (incomplete_data : list record) (w : world)
  : result (list record) * world :=
  match rows with
  | [] => (Ok incomplete_data, w)
  | (student_id, course_code) :: rest =>
      let student_info := get_student_info db student_id in
      match get_course_name db course_code with
      | Raise e => (Raise e, w)
      | Ok course_name =>
          match student_info with
          | Some info =>
              incomplete_loop db rest (count + 1)
                (incomplete_data
                   ++ [incomplete_record student_id course_code info course_name])
                (print (incomplete_line count student_id info course_name) w)
          | None => incomplete_loop db rest (count + 1) incomplete_data w
          end
      end
  end.

Definition list_students_not_completed (db : database) (inputs : list string)
  (w : world) : result unit * list string * world :=
  let incomplete_courses := fetchall (select_incomplete db) in
  match incomplete_courses with
  | _ :: _ =>
      let w := print (nl (bold "Students who have not completed their courses:")
                      +:+ String Ch.newline EmptyString) w in
      match incomplete_loop db incomplete_courses 1 [] w with
      | (Raise e, w') => (Raise e, inputs, w')
      | (Ok incomplete_data, w') =>
          offer_to_store (of_records incomplete_data) inputs w'
      end
  | [] => (Ok tt, inputs, print (nl "No students have incomplete courses.") w)
  end.

Definition low_record (student_id course_code mark : scalar)
  (info : scalar * scalar * scalar) (course_name : scalar) : record :=
  let '(first_name, last_name, email) := info in
  [("student_id", student_id); ("course_code", course_code);
   ("first_name", first_name); ("last_name", last_name);
   ("email", email); ("course_name", course_name); ("mark", mark)].

Definition low_line (count : Z) (student_id mark : scalar)
  (info : scalar * scalar * scalar) (course_name : scalar) : string :=
  incomplete_line count student_id info course_name
    +:+ " - Mark: " +:+ py_str mark.

(** Lines 449-465, the same loop with the mark carried along. *)
Fixpoint low_loop (db : database) (rows : list (scalar * scalar * scalar))
  (count : Z) (low_data : list record) (w : world)
  : result (list record) * world :=
  match rows with
  | [] => (Ok low_data, w)
  | (student_id, course_code, mark) :: rest =>
      let student_info := get_student_info db student_id in
      match get_course_name db course_code with
      | Raise e => (Raise e, w)
      | Ok course_name =>
          match student_info with
          | Some info =>
              low_loop db rest (count + 1)
                (low_data
                   ++ [low_record student_id course_code mark info course_name])
                (print (low_line count student_id mark info course_name) w)
          | None => low_loop db rest (count + 1) low_data w
          end
      end
  end.

Definition list_students_with_low_marks (db : database) (inputs : list string)
  (w : world) : result unit * list string * world :=
  let low_courses := fetchall (select_low_marks db) in
  match low_courses with
  | _ :: _ =>
      let w := print (nl (bold "Students who have a mark below 30:")
                      +:+ String Ch.newline EmptyString) w in
      match low_loop db low_courses 1 [] w with
      | (Raise e, w') => (Raise e, inputs, w')
      | (Ok low_data, w') => offer_to_store (of_records low_data) inputs w'
      end
  | [] => (Ok tt, inputs, print (nl "No students have a mark below 30.") w)
  end.

End Lookups.

(** ** The other operations of the menu *)

(** [f"{d[key]}"] for a key that the Record was built with a few lines
    above; the empty text stands for the [KeyError] that cannot occur. *)
Definition show_field (k : string) (d : record) : string :=
  match dict_get k d with
  | Some v => py_str v
  | None => EmptyString
  end.

(** How [menu_options] ends: [sys.exit(0)] after the connection is
    closed, or an exception that nothing catches. *)
Inductive menu_end : Type :=
| Exited (status : Z)
| Crashed (e : exn).

Section Menu.
Context `{XmlLib}.
Context `{FS : FileSystem}.
(** [str.upper] and [str.capitalize], which leave the code points below
    256 and so are not given here. *)
Variable upper : string -> string.
Variable capitalize : string -> string.

(** *** Option 1 *)

(** Line 206 *)
Definition student_record (row : scalar * scalar) : record :=
  let '(firstname, surname) := row in
  [("first_name", firstname); ("last_name", surname)].

(** Lines 209-210: [enumerate(students_data, 1)] *)
Fixpoint print_students (students_data : list record) (i : Z) (w : world)
  : world :=
  match students_data with
  | [] => w
  | student :: rest =>
      print_students rest (i + 1)
        (print (repr_int i +:+ ". " +:+ show_field "first_name" student
                +:+ " " +:+ show_field "last_name" student) w)
  end.

Definition all_student_names (db : database) (inputs : list string) (w : world)
  : result unit * list string * world :=
  match fetchall (select_student_names db) with
  | (_ :: _) as data =>
      let w := print (nl (bold "Student names and surnames:")
                      +:+ String Ch.newline EmptyString) w in
      let students_data := List.map student_record data in
      offer_to_store (of_records students_data) inputs
        (print_students students_data 1 w)
  | [] => (Ok tt, inputs, print (nl "No students found.") w)
  end.

(** *** Option 3 *)

(** Lines 287-291 *)
Definition address_record (address : scalar * scalar) : record :=
  [("street", address.1); ("city", address.2)].

Definition print_address (address_data : record) (w : world) : world :=
  List.fold_left
    (fun w kv =>
       print (nl (bold (capitalize kv.1 +:+ ":")) +:+ " " +:+ py_str kv.2) w)
    address_data (print (nl (bold "Address")) w).

(** One turn of the loop reads two lines, and a third when the name is
    not found.  The address found is stored as a single mapping. *)
Fixpoint lookup_address_by_name (db : database) (inputs : list string)
  (w : world) : result unit * list string * world :=
  let w := print "Enter first name: " w in
  match inputs with
  | [] => (Raise EOFError, [], w)
  | line1 :: rest1 =>
      let firstname := Str.strip (capitalize line1) in
      let w := print "Enter surname: " w in
      match rest1 with
      | [] => (Raise EOFError, [], w)
      | line2 :: rest2 =>
          let surname := Str.strip (capitalize line2) in
          match fetchone (select_address_id db (SStr firstname) (SStr surname)) with
          | Some address_id =>
              match fetchone (select_address db address_id) with
              | Some address =>
                  let address_data := address_record address in
                  offer_to_store (PDict address_data) rest2
                    (print_address address_data w)
              | None =>
                  (Ok tt, rest2, print (nl "No address found for this student.") w)
              end
          | None =>
              let w := print (nl "No student found with the name " +:+ firstname
                              +:+ " " +:+ surname +:+ ". Please try again.") w in
              let w := print msg_go_back w in
              match rest2 with
              | [] => (Raise EOFError, [], w)
              | answer :: rest3 =>
                  if go_back_to_menu upper answer then (Ok tt, rest3, w)
                  else lookup_address_by_name db rest3 w
              end
          end
      end
  end.

(** *** Option 4 *)

(** Lines 325-335 *)
Definition review_record (review : Review) : record :=
  [("course_code", r_course_code review);
   ("completeness", r_completeness review);
   ("efficiency", r_efficiency review);
   ("style", r_style review);
   ("documentation", r_documentation review);
   ("review_text", r_review_text review)].

(** Lines 339-345 *)
Definition print_review (review_data : record) (w : world) : world :=
  let w := print (bold "Course Code:" +:+ " " +:+ show_field "course_code" review_data) w in
  let w := print (bold "Completeness:" +:+ " " +:+ show_field "completeness" review_data) w in
  let w := print (bold "Efficiency:" +:+ " " +:+ show_field "efficiency" review_data) w in
  let w := print (bold "Style:" +:+ " " +:+ show_field "style" review_data) w in
  let w := print (bold "Documentation:" +:+ " " +:+ show_field "documentation" review_data) w in
  print (bold "Review Text:" +:+ " " +:+ show_field "review_text" review_data
         +:+ String Ch.newline EmptyString) w.

Fixpoint list_reviews_by_student (db : database) (inputs : list string)
  (w : world) : result unit * list string * world :=
  let w := print "Enter student ID: " w in
  match inputs with
  | [] => (Raise EOFError, [], w)
  | line :: rest =>
      let student_id := Str.strip (upper line) in
      match fetchall (select_reviews db (SStr student_id)) with
      | (_ :: _) as reviews =>
          let reviews_data := List.map review_record reviews in
          let w := print (nl (bold ("Reviews for student with ID " +:+ student_id +:+ ":"))
                          +:+ nl "(NB: Ratings are out of 4)"
                          +:+ String Ch.newline EmptyString) w in
          offer_to_store (of_records reviews_data) rest
            (List.fold_left (fun w review_data => print_review review_data w)
               reviews_data w)
      | [] =>
          let w := print (nl "No reviews found for student with ID " +:+ student_id
                          +:+ ". Please try again.") w in
          let w := print msg_go_back w in
          match rest with
          | [] => (Raise EOFError, [], w)
          | answer :: rest' =>
              if go_back_to_menu upper answer then (Ok tt, rest', w)
              else list_reviews_by_student db rest' w
          end
      end
  end.

(** *** Option 5 *)

(** Line 375: the identifier typed, beside each name found. *)
Definition teacher_record (teacher_id : string) (course_name : scalar) : record :=
  [("teacher_id", SStr teacher_id); ("course_name", course_name)].

Fixpoint list_courses_by_teacher (db : database) (inputs : list string)
  (w : world) : result unit * list string * world :=
  let w := print "Enter teacher ID: " w in
  match inputs with
  | [] => (Raise EOFError, [], w)
  | line :: rest =>
      let teacher_id := Str.strip (upper line) in
      match fetchall (select_courses_by_teacher db (SStr teacher_id)) with
      | (_ :: _) as courses =>
          let subjects_data := List.map (teacher_record teacher_id) courses in
          let w := print (nl (bold ("Courses offered by teacher with ID "
                                    +:+ teacher_id +:+ ":"))) w in
          offer_to_store (of_records subjects_data) rest
            (List.fold_left
               (fun w course =>
                  print (nl (bold "Course Name:") +:+ " "
                         +:+ show_field "course_name" course) w)
               subjects_data w)
      | [] =>
          let w := print (nl "No courses found for teacher with ID " +:+ teacher_id
                          +:+ ". Please try again.") w in
          let w := print msg_go_back w in
          match rest with
          | [] => (Raise EOFError, [], w)
          | answer :: rest' =>
              if go_back_to_menu upper answer then (Ok tt, rest', w)
              else list_courses_by_teacher db rest' w
          end
      end
  end.

(** *** The menu *)

Definition menu_text : string := "
    What would you like to do?

    1 - View all students
    2 - View subjects taken by a student
    3 - Lookup address for a student
    4 - List reviews for a student
    5 - List all courses given by a teacher
    6 - List all students who have not completed their course
    7 - List all students who have completed their course and achieved 30 or below
    8 - Exit this program

    Type your option here: ".

(** Lines 519-532: the operation behind an option from 1 to 7. *)
Definition menu_action (user_input : Z) (db : database) (inputs : list string)
  (w : world) : option (result unit * list string * world) :=
  match user_input with
  | 1 => Some (all_student_names db inputs w)
  | 2 => Some (view_subjects_by_student upper db inputs w)
  | 3 => Some (lookup_address_by_name db inputs w)
  | 4 => Some (list_reviews_by_student db inputs w)
  | 5 => Some (list_courses_by_teacher db inputs w)
  | 6 => Some (list_students_not_completed db inputs w)
  | 7 => Some (list_students_with_low_marks db inputs w)
  | _ => None
  end.

Definition msg_bad_number : string := nl "Invalid input. Please enter a valid number.".
Definition msg_bad_option : string :=
  nl "Invalid option. Please select a number between 1 and 8.".

(** [menu_options], one turn of the loop per unit of fuel; [None] when
    the fuel runs out.  A [ValueError] goes back to the menu, any other
    exception leaves the loop, and option 8 closes the connection and
    exits with status 0. *)
Fixpoint menu_loop (fuel : nat) (db : database) (inputs : list string)
  (w : world) : option (menu_end * list string * world) :=
  match fuel with
  | O => None
  | S fuel' =>
      let w := print menu_text w in
      match inputs with
      | [] => Some (Crashed EOFError, [], w)
      | line :: rest =>
          match py_int line with
          | None => menu_loop fuel' db rest (print msg_bad_number w)
          | Some user_input =>
              let w := print EmptyString w in
              if Z.eqb user_input 8 then
                Some (Exited 0, rest, print (nl "Program exited successfully!") w)
              else
                match menu_action user_input db rest w with
                | None => menu_loop fuel' db rest (print msg_bad_option w)
                | Some (Ok _, rest', w') => menu_loop fuel' db rest' w'
                | Some (Raise ValueError, rest', w') =>
                    menu_loop fuel' db rest' (print msg_bad_number w')
                | Some (Raise e, rest', w') => Some (Crashed e, rest', w')
                end
          end
      end
  end.

(** Every turn reads a line, so the loop takes no more turns than there
    are lines, and one more to meet the end of the input. *)
Definition menu_options (db : database) (inputs : list string) (w : world)
  : option (menu_end * list string * world) :=
  let w := print (bold "Welcome to the HyperionDev Query APP!") w in
  menu_loop (S (length inputs)) db inputs w.

End Menu.

(** ** A reader of exported markup

    What a program that reads an exported file back finds in it: the
    tree of the document's elements.  The reader takes a document of
    elements without attributes, whose character data stands in leaves
    only, with the five predefined references; white space between tags
    is layout and is dropped.  [None] is any other text. *)

Module XmlReader.
Import ET.

Definition is_ws (c : ascii) : bool :=
  (N.eqb (Ch.code c) 32 || N.eqb (Ch.code c) 9
   || N.eqb (Ch.code c) 10 || N.eqb (Ch.code c) 13)%bool.

Fixpoint skip_ws (s : string) : string :=
  match s with
  | EmptyString => EmptyString
  | String c s' => if is_ws c then skip_ws s' else s
  end.

(** The longest run of name characters at the head of [s]. *)
Fixpoint read_name (s : string) : string * string :=
  match s with
  | EmptyString => (EmptyString, EmptyString)
  | String c s' =>
      if Minidom.name_char c
      then let '(name, r) := read_name s' in (String c name, r)
      else (EmptyString, s)
  end.

Definition is3 (a b c : ascii) (x y z : N) : bool :=
  (N.eqb (Ch.code a) x && N.eqb (Ch.code b) y && N.eqb (Ch.code c) z)%bool.

(** Character data up to the next tag, its references resolved, and the
    text from that tag on. *)
Fixpoint read_data (s : string) : option (string * string) :=
  match s with
  | EmptyString => None
  | String c s' =>
      if N.eqb (Ch.code c) 60 then Some (EmptyString, s)
      else if N.eqb (Ch.code c) 38 then
        match s' with
        | String a (String b (String x r3)) =>
            if is3 a b x 108 116 59 then
              '(d, r) ← read_data r3; Some (String (Ch.chr 60) d, r)
            else if is3 a b x 103 116 59 then
              '(d, r) ← read_data r3; Some (String (Ch.chr 62) d, r)
            else
              match r3 with
              | String y r4 =>
                  if (is3 a b x 97 109 112 && N.eqb (Ch.code y) 59)%bool then
                    '(d, r) ← read_data r4; Some (String (Ch.chr 38) d, r)
                  else
                    match r4 with
                    | String z r5 =>
                        if (is3 a b x 113 117 111 && N.eqb (Ch.code y) 116
                            && N.eqb (Ch.code z) 59)%bool then
                          '(d, r) ← read_data r5; Some (String (Ch.chr 34) d, r)
                        else if (is3 a b x 97 112 111 && N.eqb (Ch.code y) 115
                                 && N.eqb (Ch.code z) 59)%bool then
                          '(d, r) ← read_data r5; Some (String (Ch.chr 39) d, r)
                        else None
                    | EmptyString => None
                    end
              | EmptyString => None
              end
        | _ => None
        end
      else '(d, r) ← read_data s'; Some (String c d, r)
  end.

(** The rest of an end tag, from the character after its slash. *)
Definition read_close (name : string) (s : string) : option string :=
  r ← JsonDecoder.strip_prefix name s;
  match skip_ws r with
  | String c r' => if N.eqb (Ch.code c) 62 then Some r' else None
  | EmptyString => None
  end.

Section Elements.
(** [read_element], one nesting level down. *)
Variable read_element : string -> option (element * string).

(** The children of the element [name] and its end tag, from the tag
    at the head of [s]. *)
Fixpoint read_children (fuel : nat) (name : string) (s : string)
  : option (list element * string) :=
  match fuel with
  | O => None
  | S fuel' =>
      match s with
      | String c1 (String c2 r) =>
          if N.eqb (Ch.code c1) 60 then
            if N.eqb (Ch.code c2) 47 then
              r' ← read_close name r; Some ([], r')
            else
              '(child, r1) ← read_element (String c2 r);
              '(gap, r2) ← read_data r1;
              if Str.forallb is_ws gap then
                '(more, r3) ← read_children fuel' name r2;
                Some (child :: more, r3)
              else None
          else None
      | _ => None
      end
  end.
End Elements.

(** An element, from the character after the [<] of its start tag.  The
    fuel bounds the nesting depth and the number of children. *)
Fixpoint read_element (fuel : nat) (s : string) : option (element * string) :=
  match fuel with
  | O => None
  | S fuel' =>
      let '(name, s1) := read_name s in
      if Minidom.is_name name then
        match skip_ws s1 with
        | String c r =>
            if N.eqb (Ch.code c) 47 then
              match r with
              | String d r' =>
                  if N.eqb (Ch.code d) 62 then Some (Elem name None [], r') else None
              | EmptyString => None
              end
            else if N.eqb (Ch.code c) 62 then
              '(data, r1) ← read_data r;
              match r1 with
              | String _ (String c2 r2) =>
                  if N.eqb (Ch.code c2) 47 then
                    r3 ← read_close name r2;
                    Some (Elem name
                            (if Str.is_empty data then None else Some data) [], r3)
                  else if Str.forallb is_ws data then
                    '(children, r3) ← read_children (read_element fuel') fuel' name r1;
                    Some (Elem name None children, r3)
                  else None
              | _ => None
              end
            else None
        | EmptyString => None
        end
      else None
  end.

(** The text after the first [?>] of [s]. *)
Fixpoint skip_declaration (s : string) : option string :=
  match s with
  | String c ((String d r) as s') =>
      if (N.eqb (Ch.code c) 63 && N.eqb (Ch.code d) 62)%bool then Some r
      else skip_declaration s'
  | _ => None
  end.

(** A document: an optional declaration, one element, and nothing after
    it but white space. *)
Definition read_document (s : string) : option element :=
  s1 ← match JsonDecoder.strip_prefix "<?xml" (skip_ws s) with
       | Some r => skip_declaration r
       | None => Some (skip_ws s)
       end;
  match skip_ws s1 with
  | String c r =>
      if N.eqb (Ch.code c) 60 then
        '(e, r') ← read_element (String.length s) r;
        match skip_ws r' with
        | EmptyString => Some e
        | String _ _ => None
        end
      else None
  | EmptyString => None
  end.

(** The mapping that a reader makes of a document whose root holds
    leaves: each tag with its text, which is a string whatever the field
    held. *)
Definition read_record (s : string) : option record :=
  root ← read_document s;
  Some (List.map (fun c => (etag c, SStr (default EmptyString (etext c))))
          (echildren root)).

End XmlReader.

(** ** Terms of the statements *)

Definition is_dict (v : pyval) : bool :=
  match v with
  | PDict _ => true
  | PScalar _ | PList _ => false
  end.

(** An enrollment table with a dangling row: student [S9] and course [C9]
    exist in no other table. *)
Definition db_dangling : database := {|
  Students := [];
  Courses := [];
  StudentCourses :=
    [ {| sc_student_id := SStr "S9"; sc_course_code := SStr "C9";
         sc_is_complete := SInt 0; sc_mark := SInt 10 |} ];
  Addresses := [];
  Reviews := []
|}.

(** Student [S1] is enrolled in [C1] and [C2]; only [C1] is a course. *)
Definition db_two_codes : database := {|
  Students :=
    [ {| s_student_id := SStr "S1"; s_first_name := SStr "Ada";
         s_last_name := SStr "Byron"; s_email := SStr "ada@example.org";
         s_address_id := SInt 1 |} ];
  Courses :=
    [ {| c_course_code := SStr "C1"; c_course_name := SStr "Algebra";
         c_teacher_id := SStr "T1" |} ];
  StudentCourses :=
    [ {| sc_student_id := SStr "S1"; sc_course_code := SStr "C1";
         sc_is_complete := SInt 1; sc_mark := SInt 30 |};
      {| sc_student_id := SStr "S1"; sc_course_code := SStr "C2";
         sc_is_complete := SInt 1; sc_mark := SInt 31 |} ];
  Addresses := [];
  Reviews := []
|}.

Definition incomplete_records (db : database) (rows : list (scalar * scalar))
  : list record :=
  List.flat_map
    (fun row =>
       match get_student_info db row.1, fetchone (select_course_name db row.2) with
       | Some info, Some name => [incomplete_record row.1 row.2 info name]
       | _, _ => []
       end)
    rows.

(** Whether some Course row carries the code. *)
Definition has_course (db : database) (code : scalar) : bool :=
  List.existsb (fun c => sql_eq (c_course_code c) code) (Courses db).

(** The dispatch as the specification words it: by the extension after
    the last dot alone. *)
Definition target_by_extension (ext : string) : target :=
  if Str.eqb (Str.lower ext) "xml" then ToXml
  else if Str.eqb (Str.lower ext) "json" then ToJson
  else BadExtension.

Definition extension (filename : string) : string :=
  Str.last (Str.split Ch.dot filename).

(** The guard of line 121: the name is empty, holds no dot, or starts
    with one. *)
Definition no_base_name (filename : string) : bool :=
  (Str.is_empty filename
   || negb (Str.contains Ch.dot filename)
   || Str.is_empty (Str.first (Str.split Ch.dot filename)))%bool.

Definition is_ascii (c : ascii) : bool := N.ltb (Ch.code c) 128.

(** The layout of an encoded Record, as the specification words it: an
    opening brace, one line per field behind four spaces, the lines
    joined by a comma and a line break, and a closing brace on its own
    line. *)
Definition field_line (kv : string * scalar) : string :=
  "    " +:+ Json.encode_item kv.

Definition comma_newline : string :=
  String Ch.comma (String Ch.newline EmptyString).

Definition layout (r : record) : string :=
  match r with
  | [] => "{}"
  | _ :: _ =>
      String Ch.lbrace
        (String Ch.newline
           (Str.join comma_newline (List.map field_line r)
            +:+ String Ch.newline (String Ch.rbrace EmptyString)))
  end.

(** The address of the specification's end-to-end scenario. *)
Definition address_data : record :=
  [("street", SStr "12 Oak Ave"); ("city", SStr "Springfield")].

(** A stand-in for the two library calls, to run the export on concrete
    data: the rough string of a tree is already what the pretty-printer
    makes of it, or a lone [<] when the parser would refuse the tree, and
    every other rough string is accepted as it is. *)
Definition plain_tostring (t : ET.element) : string :=
  match Minidom.reparse t with
  | Ok pretty_xml => pretty_xml
  | Raise _ => "<"
  end.

Definition plain_parse (rough_string : string) : result string :=
  match rough_string with
  | String _ EmptyString => Raise ExpatError
  | _ => Ok rough_string
  end.

Definition plain_xml : XmlLib.
Proof.
  refine {| tostring := plain_tostring; parse_toprettyxml := plain_parse |}.
  intros root _. unfold plain_tostring, Minidom.reparse.
  destruct (Minidom.has_control root); reflexivity.
Defined.

(** A file system with a working directory and nothing below it: a
    name with a slash cannot be opened. *)
Definition no_directories : FileSystem := {|
  open_w := fun filename =>
    if Str.contains Ch.slash filename then Some OSError else None
|}.

(** What a reader finds of the leaf of a field and of the element of a
    Record: the text as the parser hands it on, and no text at all where
    the string conversion is empty. *)
Definition text_of (s : string) : option string :=
  if Str.is_empty s then None else Some s.
Definition read_leaf (kv : string * scalar) : ET.element :=
  ET.Elem kv.1 (text_of (Minidom.normalize (py_str kv.2))) [].
Definition read_item (r : record) : ET.element :=
  ET.Elem "item" None (List.map read_leaf r).

(** No value of the Record holds a control character, which the markup
    parser refuses; none holds a carriage return, which it reads as a
    line feed. *)
Definition printable (r : record) : bool :=
  List.forallb (fun kv => negb (Str.existsb Minidom.is_control (py_str kv.2))) r.
Definition no_return (r : record) : bool :=
  List.forallb
    (fun kv => negb (Str.existsb (fun c => N.eqb (Ch.code c) 13) (py_str kv.2))) r.

(** A note that is one carriage return before an [x], and one that is
    the bell character, code point 7. *)
Definition note_return : record := [("note", SStr (String (Ch.chr 13) "x"))].
Definition note_bell : record := [("note", SStr (String (Ch.chr 7) EmptyString))].

(** A Record with a mark that is a number. *)
Definition mark_30 : record := [("mark", SInt 30)].

(** The field names of a Record are XML names. *)
Definition named_fields (r : record) : Prop :=
  Forall (fun kv => Minidom.is_name kv.1 = true) r.

(** A line that starts with the file separator, code point 28, which
    [str.strip] removes and [int] does not skip. *)
Definition separator_then (s : string) : string := String (Ch.chr 28) s.

(** The world after some lines were printed. *)
Definition prints (lines : list string) (w : world) : world :=
  {| files := files w; stdout := stdout w ++ lines |}.

(** What the subjects lookup prints in a turn whose identifier has no
    enrollment row. *)
Definition subjects_miss (upper : string -> string) (line : string)
  : list string :=
  [nl "Enter student ID: ";
   nl "Incorrect student ID " +:+ Str.strip (upper line) +:+ ". Please try again.";
   msg_go_back].

(** A mark that is no greater than 30, as the specification words the
    threshold: an integer up to 30, or a float whose decimal is negative,
    has less than 30 before the point, or is 30.0. *)
Definition mark_at_most_30 (mark : scalar) : Prop :=
  match mark with
  | SInt m => m <= 30
  | SReal x =>
      real_negative x = true
      \/ (real_integer x < 30)%N
      \/ (real_integer x = 30%N /\ real_fraction x = D0 Nil)
  | SNone | SStr _ => False
  end.

Definition at_most_30 (mark : scalar) : bool :=
  match mark with
  | SInt m => Z.leb m 30
  | SReal x =>
      (real_negative x || N.ltb (real_integer x) 30
       || (N.eqb (real_integer x) 30 && whole (real_fraction x)))%bool
  | SNone | SStr _ => false
  end.

(** The floats 29.5 and 30.5. *)
Definition real_29_5 : real := Real false 29 (D5 Nil) eq_refl.
Definition real_30_5 : real := Real false 30 (D5 Nil) eq_refl.

(** One student in one course, with one enrollment row per kind of
    mark around the threshold. *)
Definition db_marks : database := {|
  Students :=
    [ {| s_student_id := SStr "S1"; s_first_name := SStr "Ada";
         s_last_name := SStr "Byron"; s_email := SStr "ada@example.org";
         s_address_id := SInt 1 |} ];
  Courses :=
    [ {| c_course_code := SStr "C1"; c_course_name := SStr "Algebra";
         c_teacher_id := SStr "T1" |} ];
  StudentCourses :=
    List.map
      (fun mark => {| sc_student_id := SStr "S1"; sc_course_code := SStr "C1";
                      sc_is_complete := SInt 1; sc_mark := mark |})
      [SReal real_29_5; SInt 30; SReal real_30_5; SInt 31; SNone; SStr "30"];
  Addresses := [];
  Reviews := []
|}.

(** The enrollment rows with such a mark, in table order. *)
Definition low_enrollments (db : database) : list StudentCourse :=
  List.filter (fun e => at_most_30 (sc_mark e)) (StudentCourses db).

Definition empty_world : world := {| files := ∅; stdout := [] |}.

(** The file names that the lines of an input spell, once stripped. *)
Definition names_file (inputs : list string) (name : string) : Prop :=
  Exists (fun line => Str.strip line = name) inputs.

(** From [w] to [w'] no file changed but those the input names. *)
Definition keeps_other_files (inputs : list string) (w w' : world) : Prop :=
  forall name : string,
    ~ names_file inputs name -> files w' !! name = files w !! name.

(** An interactive operation that was given [inputs] in the world [w]
    left a tail of its input unread and wrote no file the input does not
    name. *)
Definition tame {A : Type} (inputs : list string) (w : world)
  (out : A * list string * world) : Prop :=
  suffix out.1.2 inputs /\ keeps_other_files inputs w out.2.

(** [s.count(c)] for a one-character [c] *)
Fixpoint count_char (c : ascii) (s : string) : nat :=
  match s with
  | EmptyString => O
  | String a s' => ((if Ch.eqb a c then 1 else 0) + count_char c s')%nat
  end.

(** The Records of the low-marks listing, for the rows that have a
    student and a course name. *)
Definition low_records (db : database) (rows : list (scalar * scalar * scalar))
  : list record :=
  List.flat_map
    (fun row =>
       match get_student_info db row.1.1, fetchone (select_course_name db row.1.2) with
       | Some info, Some name => [low_record row.1.1 row.1.2 row.2 info name]
       | _, _ => []
       end)
    rows.

(** The field names of the Records of the two listings. *)
Definition incomplete_fields : list string :=
  ["student_id"; "course_code"; "first_name"; "last_name"; "email"; "course_name"].
Definition low_fields : list string := incomplete_fields ++ ["mark"].

(** What the export prompt prints for an answer that is neither 1 nor 2:
    the question, the request, and the complaint that fits the answer. *)
Definition wrong_answer_lines (line : string) : list string :=
  [msg_save; msg_choice;
   match py_int line with
   | None => msg_bad_input
   | Some _ => msg_bad_choice
   end].

(** How a run of the menu may end: by the exit of option 8 with status
    0, or by an exception other than the [ValueError] that the loop
    catches; a tail of the input is left, and no file changed but those
    the input names. *)
Definition menu_ends (inputs : list string) (w : world)
  (o : option (menu_end * list string * world)) : Prop :=
  exists (e : menu_end) (rest : list string) (w' : world),
    o = Some (e, rest, w')
    /\ (e = Exited 0 \/ exists ex, e = Crashed ex /\ ex <> ValueError)
    /\ suffix rest inputs
    /\ keeps_other_files inputs w w'.

(** The Records after the first of an encoded list, each behind its
    separator. *)
Definition elems_tail (indent : string) (level : nat) (rs : list record) : string :=
  Str.concat (List.map (String.append (Json.item_separator indent level))
                (List.map (Json.iterencode_dict indent level) rs)).

(** [print(f"\nData successfully written to {filename}")] *)
Definition confirmation (filename : string) : string :=
  nl "Data successfully written to " +:+ filename.

(** A small school: two students, two courses of one teacher, and four
    enrollment rows, of which one belongs to a student that the Student
    table does not have. *)
Definition db_school : database := {|
  Students :=
    [ {| s_student_id := SStr "S1"; s_first_name := SStr "Ada";
         s_last_name := SStr "Byron"; s_email := SStr "ada@example.org";
         s_address_id := SInt 1 |};
      {| s_student_id := SStr "S2"; s_first_name := SStr "Alan";
         s_last_name := SStr "Turing"; s_email := SNone;
         s_address_id := SInt 2 |} ];
  Courses :=
    [ {| c_course_code := SStr "C1"; c_course_name := SStr "Algebra";
         c_teacher_id := SStr "T1" |};
      {| c_course_code := SStr "C2"; c_course_name := SStr "Logic";
         c_teacher_id := SStr "T1" |} ];
  StudentCourses :=
    [ {| sc_student_id := SStr "S1"; sc_course_code := SStr "C1";
         sc_is_complete := SInt 0; sc_mark := SInt 25 |};
      {| sc_student_id := SStr "S2"; sc_course_code := SStr "C2";
         sc_is_complete := SInt 1; sc_mark := SInt 30 |};
      {| sc_student_id := SStr "S3"; sc_course_code := SStr "C1";
         sc_is_complete := SInt 0; sc_mark := SInt 12 |};
      {| sc_student_id := SStr "S1"; sc_course_code := SStr "C2";
         sc_is_complete := SInt 1; sc_mark := SInt 75 |} ];
  Addresses :=
    [ {| a_address_id := SInt 1; a_street := SStr "12 Oak Ave";
         a_city := SStr "Springfield" |} ];
  Reviews :=
    [ {| r_student_id := SStr "S1"; r_course_code := SStr "C1";
         r_completeness := SInt 4; r_efficiency := SInt 3; r_style := SInt 4;
         r_documentation := SInt 2; r_review_text := SStr "Tidy work." |} ]
|}.

(** Every exception that an operation raises is one of [P]. *)
Definition raises_in {A : Type} (P : exn -> Prop)
  (out : result A * list string * world) : Prop :=
  forall e : exn, out.1.1 = Raise e -> P e.

(** What leaves the export prompt: the end of the input, or an exception
    of [P] that the prompt does not catch. *)
Definition escapes (P : exn -> Prop) (e : exn) : Prop :=
  e = EOFError \/ (P e /\ e <> ValueError).

(** The lines of the turns that miss: the identifier typed and the
    answer to the question that follows. *)
Definition miss_lines (misses : list (string * string)) : list string :=
  List.flat_map (fun m => [m.1; m.2]) misses.

(** The same for the address lookup, which reads two names a turn. *)
Definition miss_lines3 (misses : list (string * string * string)) : list string :=
  List.flat_map (fun m => [m.1.1; m.1.2; m.2]) misses.

(** The line that option 1 prints for the student of a row, under the
    number [i]. *)
Definition student_line (i : Z) (s : Student) : string :=
  repr_int i +:+ ". " +:+ py_str (s_first_name s) +:+ " " +:+ py_str (s_last_name s).

(** A line that the menu takes for no option: no integer, or an integer
    outside 1 to 8. *)
Definition no_option (line : string) : Prop :=
  match py_int line with
  | None => True
  | Some z => z < 1 \/ 8 < z
  end.

(** What the menu prints for such a line: the menu, the empty line of
    line 520 when the line is an integer, and its complaint. *)
Definition menu_complaint (line : string) : list string :=
  match py_int line with
  | None => [menu_text; msg_bad_number]
  | Some _ => [menu_text; EmptyString; msg_bad_option]
  end.

(** ** The text of an exported document

    The documents that the pretty-printer makes of the trees of the
    serializer, told from the reader's side. *)

Module XmlText.
Import ET Minidom XmlReader.

Section Layout.
Variables tag inner indent : string.

(** The text from the end of a start tag or of a child on: for each
    child a line break, the indentation and the child, then the end tag
    on its own line.  A child is given by its text after the [<], as a
    function of what follows it. *)
Fixpoint tail_text (cs : list ((string -> string) * element)) (rest : string)
  : string :=
  match cs with
  | [] =>
      newl +:+ indent
      +:+ String (Ch.chr 60) (String (Ch.chr 47) (tag +:+ String (Ch.chr 62) rest))
  | (body, _) :: cs' =>
      newl +:+ inner +:+ String (Ch.chr 60) (body (tail_text cs' rest))
  end.

Definition after_gap (cs : list ((string -> string) * element)) (rest : string)
  : string :=
  match cs with
  | [] => String (Ch.chr 60) (String (Ch.chr 47) (tag +:+ String (Ch.chr 62) rest))
  | (body, _) :: cs' => String (Ch.chr 60) (body (tail_text cs' rest))
  end.

End Layout.

(** A child that the element reader [read_elem] reads, whatever follows
    it. *)
Definition readable (read_elem : string -> option (element * string))
  (c : (string -> string) * element) : Prop :=
  forall x : string,
    (exists a s, c.1 x = String a s /\ N.eqb (Ch.code a) 47 = false)
    /\ read_elem (c.1 x) = Some (c.2, x).

(** A child that is followed by [x] is no shorter than [x]. *)
Definition grows (n : nat) (c : (string -> string) * element) : Prop :=
  forall x : string, (n + String.length x <= String.length (c.1 x))%nat.

(** The text of the leaf of a field and of the element of a Record,
    after the [<] and followed by [x]. *)
Definition leaf_body (kv : string * scalar) (x : string) : string :=
  match normalize (py_str kv.2) with
  | EmptyString => kv.1 +:+ String (Ch.chr 47) (String (Ch.chr 62) x)
  | String _ _ as data =>
      kv.1 +:+ String (Ch.chr 62)
                 (write_data data
                  +:+ String (Ch.chr 60) (String (Ch.chr 47)
                        (kv.1 +:+ String (Ch.chr 62) x)))
  end.

Definition leaf_child (kv : string * scalar) : (string -> string) * element :=
  (leaf_body kv, read_leaf kv).

Definition container_body (tag indent : string)
  (cs : list ((string -> string) * element)) (x : string) : string :=
  match cs with
  | [] => tag +:+ String (Ch.chr 47) (String (Ch.chr 62) x)
  | _ :: _ =>
      tag +:+ String (Ch.chr 62) (tail_text tag (indent +:+ addindent) indent cs x)
  end.

Definition item_child (indent : string) (r : record)
  : (string -> string) * element :=
  (container_body "item" indent (List.map leaf_child r), read_item r).

End XmlText.

(** * Properties *)

(** ** Marks *)

Lemma at_most_30_spec (mark : scalar) :
  at_most_30 mark = true <-> mark_at_most_30 mark.
Proof.
  destruct mark as [|m|s|x]; cbn [at_most_30 mark_at_most_30];
    try (split; [discriminate | contradiction]).
  - apply Z.leb_le.
  - rewrite !orb_true_iff, andb_true_iff, N.ltb_lt, N.eqb_eq.
    unfold whole. split.
    + intros [[Hn | Hl] | [He Hw]]; [now left | right; now left |].
      right; right. split; [exact He|].
      now apply Decimal.internal_uint_dec_bl.
    + intros [Hn | [Hl | [He Hw]]]; [left; now left | left; now right |].
      right. split; [exact He|]. rewrite Hw. reflexivity.
Qed.

(** ** Strings *)

Lemma app_assoc_s (a b c : string) : (a +:+ b) +:+ c = a +:+ (b +:+ c).
Proof. induction a as [|x a IH]; simpl; [reflexivity | now rewrite IH]. Qed.

Lemma app_nil_r_s (a : string) : a +:+ EmptyString = a.
Proof. induction a as [|x a IH]; simpl; [reflexivity | now rewrite IH]. Qed.

Lemma length_app_s (a b : string) :
  String.length (a +:+ b) = (String.length a + String.length b)%nat.
Proof. induction a as [|x a IH]; simpl; [reflexivity | now rewrite IH]. Qed.

Lemma forallb_app_s p (a b : string) :
  Str.forallb p (a +:+ b) = (Str.forallb p a && Str.forallb p b)%bool.
Proof.
  induction a as [|x a IH]; simpl; [reflexivity|].
  rewrite IH. now destruct (p x).
Qed.

Lemma join_cons sep (x : string) (l : list string) :
  Str.join sep (x :: l) = x +:+ Str.concat (List.map (String.append sep) l).
Proof.
  revert x. induction l as [|y l IH]; intros x.
  - simpl. now rewrite app_nil_r_s.
  - change (Str.join sep (x :: y :: l)) with (x +:+ sep +:+ Str.join sep (y :: l)).
    rewrite IH. simpl. now rewrite app_assoc_s.
Qed.

(** Decide the tests on known characters that [simpl] leaves alone. *)
Ltac reduce_bool t :=
  let b := eval vm_compute in t in
  match b with
  | true => change t with true
  | false => change t with false
  end.

Ltac char_tests :=
  repeat match goal with
    | |- context [N.eqb (Ch.code ?c) ?n] => reduce_bool (N.eqb (Ch.code c) n)
    | |- context [N.ltb (Ch.code ?c) ?n] => reduce_bool (N.ltb (Ch.code c) n)
    | |- context [Ch.eqb ?c ?d] => reduce_bool (Ch.eqb c d)
    | |- context [Ch.is_digit ?c] => reduce_bool (Ch.is_digit c)
    | |- context [Ch.is_json_ws ?c] => reduce_bool (Ch.is_json_ws c)
    | |- context [Ch.is_space ?c] => reduce_bool (Ch.is_space c)
    end.

(** The same for the tests of the markup reader on known characters. *)
Ltac char_ws :=
  repeat match goal with
    | |- context [N.eqb (Ch.code ?c) ?n] => reduce_bool (N.eqb (Ch.code c) n)
    | |- context [XmlReader.is_ws ?c] => reduce_bool (XmlReader.is_ws c)
    end;
  cbv beta iota.

Ltac scan_step :=
  repeat (progress (cbn [String.append JsonDecoder.skip_ws mbind option_bind];
                    char_tests; cbv beta iota)).

(** ** The decoder inverts the encoder *)

Module RoundTrip.
Import Json JsonDecoder JsonShape.

Lemma scanstring_escape_char (c : ascii) (tail : string) :
  scanstring (escape_char c +:+ tail)
  = '(str, rest) ← scanstring tail; Some (String c str, rest).
Proof. destruct c as [[] [] [] [] [] [] [] []]; reflexivity. Qed.

Lemma scanstring_escape (s r : string) :
  scanstring (escape s +:+ String Ch.quote r) = Some (s, r).
Proof.
  induction s as [|c s IH]; [reflexivity|].
  simpl escape. rewrite app_assoc_s, scanstring_escape_char, IH. reflexivity.
Qed.

Lemma scan_once_string fuel (s r : string) :
  scan_once (S fuel) (encode_basestring_ascii s +:+ r) = Some (PScalar (SStr s), r).
Proof.
  unfold encode_basestring_ascii. simpl.
  rewrite app_assoc_s. simpl. now rewrite scanstring_escape.
Qed.

(** *** Numbers *)

Lemma digit_of_none (c : ascii) : Ch.is_digit c = false -> digit_of c = None.
Proof. destruct c as [[] [] [] [] [] [] [] []]; intros E; first [discriminate E | reflexivity]. Qed.

Lemma scan_digits_stop (r : string) :
  starts_digit r = false -> scan_digits r = (Nil, r).
Proof.
  destruct r as [|c r]; [reflexivity|]. simpl. intros E.
  now rewrite (digit_of_none c E).
Qed.

Lemma scan_digits_uint (d : uint) (r : string) :
  starts_digit r = false -> scan_digits (string_of_uint d +:+ r) = (d, r).
Proof.
  intros E. induction d as [|d IH|d IH|d IH|d IH|d IH|d IH|d IH|d IH|d IH|d IH];
    [now apply scan_digits_stop | ..];
    cbn [string_of_uint String.append scan_digits]; rewrite IH; reflexivity.
Qed.

Lemma unorm_fix_canonical (d : uint) : unorm d = d -> canonical d.
Proof.
  intros E. split.
  - intros ->. discriminate E.
  - intros d' ->. unfold unorm in E.
    destruct (nzhead (D0 d')) eqn:Hn; try discriminate E.
    + now injection E.
    + exfalso. injection E as ->. now apply (nzhead_nonzero (D0 d') d').
Qed.

Lemma nzhead_fix_canonical (d : uint) : nzhead d = d -> d <> Nil -> canonical d.
Proof.
  intros E Hd. split; [assumption|].
  intros d' ->. exfalso. now apply (nzhead_nonzero (D0 d') d').
Qed.

Lemma to_int_canonical (z : Z) :
  match Z.to_int z with
  | Pos d => canonical d
  | Neg d => canonical d /\ d <> D0 Nil
  end.
Proof.
  pose proof (DecimalZ.to_of (Z.to_int z)) as E.
  rewrite DecimalZ.of_to in E.
  destruct (Z.to_int z) as [d|d]; simpl in E.
  - apply unorm_fix_canonical. now injection E.
  - destruct (nzhead d) eqn:Hn; try discriminate E;
      injection E as E; subst d;
      (split; [apply nzhead_fix_canonical; [assumption | discriminate]
              | intros Heq; rewrite Heq in Hn; discriminate Hn]).
Qed.

Lemma scan_integer_uint (neg : bool) (d : uint) (r : string) :
  canonical d -> starts_digit r = false ->
  scan_integer ((if neg then String Ch.minus EmptyString else EmptyString)
                +:+ string_of_uint d +:+ r)
  = Some ((if neg then Neg else Pos) d, r).
Proof.
  intros [Hnil H0] E.
  pose proof (scan_digits_uint d r E) as Hs.
  destruct d as [|d|d|d|d|d|d|d|d|d|d]; [contradiction | ..].
  1: { rewrite (H0 d eq_refl). now destruct neg. }
  all: destruct neg; unfold scan_integer;
    cbn [string_of_uint String.append] in Hs |- *;
    repeat (char_tests; cbv beta iota); rewrite Hs; reflexivity.
Qed.

Lemma scan_integer_repr (z : Z) (r : string) :
  starts_digit r = false ->
  scan_integer (repr_int z +:+ r) = Some (Z.to_int z, r).
Proof.
  intros E. unfold repr_int. pose proof (to_int_canonical z) as Hc.
  destruct (Z.to_int z) as [d|d].
  - exact (scan_integer_uint false d r Hc E).
  - exact (scan_integer_uint true d r (proj1 Hc) E).
Qed.

Lemma repr_int_head (z : Z) :
  exists c s, repr_int z = String c s /\ number_head c = true.
Proof.
  unfold repr_int. pose proof (to_int_canonical z) as Hc.
  destruct (Z.to_int z) as [d|d].
  - destruct Hc as [Hnil _].
    destruct d; [contradiction | ..]; eexists _, _; split; reflexivity.
  - eexists _, _; split; reflexivity.
Qed.

Lemma scan_once_number fuel (c : ascii) (s : string) :
  number_head c = true ->
  scan_once (S fuel) (String c s)
  = '(i, r) ← scan_integer (String c s); number i r.
Proof.
  destruct c as [[] [] [] [] [] [] [] []]; intros E;
    first [discriminate E | reflexivity].
Qed.

Lemma number_head_token (c : ascii) :
  number_head c = true -> Ch.is_json_ws c = false.
Proof.
  destruct c as [[] [] [] [] [] [] [] []]; intros E;
    first [discriminate E | reflexivity].
Qed.

Lemma follows_not_digit (r : string) : follows r -> starts_digit r = false.
Proof.
  destruct r as [|c r]; [reflexivity|]. simpl.
  unfold Ch.is_digit, Ch.in_range. now intros [-> | ->].
Qed.

Lemma follows_not_float (r : string) :
  follows r -> fraction r = None /\ exponent r = false.
Proof.
  destruct r as [|c [|d r]]; try (split; reflexivity). simpl.
  unfold fraction, exponent. now intros [-> | ->].
Qed.

Lemma number_integer (i : Decimal.int) (r : string) :
  follows r -> number i r = Some (PScalar (SInt (Z.of_int i)), r).
Proof.
  intros Hr. unfold number.
  destruct (follows_not_float r Hr) as [-> ->]. reflexivity.
Qed.

(** *** Floats *)

Lemma uint_beq_eq (a b : uint) : uint_beq a b = true -> a = b.
Proof. apply Decimal.internal_uint_dec_bl. Qed.

Lemma make_real_ok (x : real) :
  make_real (real_negative x) (real_integer x) (real_fraction x) = Some x.
Proof.
  destruct x as [neg ip f ok]. cbn [real_negative real_integer real_fraction].
  unfold make_real.
  generalize (eq_refl (real_ok ip f)).
  generalize (real_ok ip f) at 2 3 as b.
  intros b. destruct b; intros E; [|congruence].
  f_equal. f_equal. apply Eqdep_dec.UIP_dec, Bool.bool_dec.
Qed.

Lemma real_fraction_digits (x : real) :
  exists (D : uint -> uint) (c : ascii) (d : uint) (s : string),
    real_fraction x = D d
    /\ string_of_uint (real_fraction x) = String c s
    /\ Ch.is_digit c = true.
Proof.
  destruct x as [neg ip f ok]. cbn [real_fraction].
  unfold real_ok in ok.
  destruct f as [|d|d|d|d|d|d|d|d|d|d]; [discriminate ok | ..];
    eexists _, _, d, _; (split; [reflexivity|]); split; reflexivity.
Qed.

Lemma to_uint_canonical (n : N) : canonical (N.to_uint n).
Proof.
  pose proof (to_int_canonical (Z.of_N n)) as Hc.
  destruct n as [|p]; exact Hc.
Qed.

Lemma scan_integer_real (x : real) (r : string) :
  starts_digit r = false ->
  scan_integer ((if real_negative x then String Ch.minus EmptyString
                 else EmptyString)
                +:+ string_of_uint (N.to_uint (real_integer x)) +:+ r)
  = Some ((if real_negative x then Neg else Pos) (N.to_uint (real_integer x)), r).
Proof. apply scan_integer_uint, to_uint_canonical. Qed.

Lemma repr_real_head (x : real) :
  exists c s, repr_real x = String c s /\ number_head c = true.
Proof.
  unfold repr_real. destruct (real_negative x).
  - eexists _, _. split; reflexivity.
  - destruct (to_uint_canonical (real_integer x)) as [Hnil _].
    destruct (N.to_uint (real_integer x)); [contradiction | ..];
      eexists _, _; split; reflexivity.
Qed.

Lemma scan_real (fuel : nat) (x : real) (r : string) :
  follows r ->
  scan_once (S fuel) (repr_real x +:+ r) = Some (PScalar (SReal x), r).
Proof.
  intros Hr.
  destruct (repr_real_head x) as (c & s & E & Hc).
  pose proof (scan_once_number fuel c (s +:+ r) Hc) as Hn.
  change (String c (s +:+ r)) with (String c s +:+ r) in Hn.
  rewrite <- E in Hn. rewrite Hn. clear Hn E Hc c s.
  unfold repr_real. rewrite !app_assoc_s.
  rewrite scan_integer_real by reflexivity.
  cbn [mbind option_bind]. unfold number.
  destruct (real_fraction_digits x) as (D & c & d & s & Hf & Hs & Hc).
  assert (Hfr : fraction (String Ch.dot (string_of_uint (real_fraction x)) +:+ r)
                = Some (real_fraction x, r)).
  { cbn [String.append]. rewrite Hs. cbn [String.append]. unfold fraction.
    change (N.eqb (Ch.code Ch.dot) 46) with true. rewrite Hc. cbn [andb].
    change (String c (s +:+ r)) with (String c s +:+ r). rewrite <- Hs.
    now rewrite scan_digits_uint by now apply follows_not_digit. }
  rewrite Hfr. destruct (follows_not_float r Hr) as [_ ->].
  assert (Hp : parse_float ((if real_negative x then Neg else Pos)
                              (N.to_uint (real_integer x)))
                 (real_fraction x) = Some x).
  { unfold parse_float.
    destruct (real_negative x) eqn:Hneg;
      rewrite DecimalN.Unsigned.of_to; rewrite <- Hneg; apply make_real_ok. }
  rewrite Hp. reflexivity.
Qed.

(** A scalar is read back whatever the fuel left. *)
Lemma scan_once_scalar fuel (v : scalar) (r : string) :
  follows r ->
  scan_once (S fuel) (encode_scalar v +:+ r) = Some (PScalar v, r).
Proof.
  intros Hr. destruct v as [|n|s|x]; cbn [encode_scalar].
  - reflexivity.
  - pose proof (scan_integer_repr n r (follows_not_digit r Hr)) as Hi.
    destruct (repr_int_head n) as (c & s & E & Hc).
    rewrite E in *. cbn [String.append] in *.
    rewrite (scan_once_number _ _ _ Hc), Hi. cbn [mbind option_bind].
    now rewrite (number_integer _ r Hr), DecimalZ.of_to.
  - apply scan_once_string.
  - now apply scan_real.
Qed.

(** *** Whitespace *)

Lemma skip_ws_token (s : string) : starts_token s -> skip_ws s = s.
Proof. destruct s as [|c s]; [reflexivity|]. simpl. now intros ->. Qed.

Lemma skip_ws_app (a r : string) :
  Str.forallb Ch.is_json_ws a = true -> skip_ws (a +:+ r) = skip_ws r.
Proof.
  induction a as [|c a IH]; [reflexivity|]. simpl.
  destruct (Ch.is_json_ws c); [exact IH | discriminate].
Qed.

Lemma encode_scalar_token (v : scalar) (r : string) :
  starts_token (encode_scalar v +:+ r).
Proof.
  destruct v as [|n|s|x]; cbn [encode_scalar]; try reflexivity.
  - destruct (repr_int_head n) as (c & s & -> & Hc).
    now apply number_head_token.
  - destruct (repr_real_head x) as (c & s & -> & Hc).
    now apply number_head_token.
Qed.

(** *** Objects *)

Section Objects.
Variable indent : string.
Hypothesis indent_ws : Str.forallb Ch.is_json_ws indent = true.

Lemma newline_indent_ws (level : nat) :
  Str.forallb Ch.is_json_ws (newline_indent indent level) = true.
Proof.
  unfold newline_indent. simpl.
  induction level as [|n IH]; [reflexivity|].
  simpl. now rewrite forallb_app_s, indent_ws, IH.
Qed.

Lemma skip_newline_indent (level : nat) (r : string) :
  skip_ws (newline_indent indent level +:+ r) = skip_ws r.
Proof. apply skip_ws_app, newline_indent_ws. Qed.

Lemma follows_items_tail (level level' : nat) (d : record) (r : string) :
  follows (items_tail indent level d +:+ newline_indent indent level' +:+ r).
Proof. destruct d as [|kv d]; [right | left]; reflexivity. Qed.

Variable scan : string -> option (pyval * string).
Hypothesis scan_scalar : forall v r,
  follows r -> scan (encode_scalar v +:+ r) = Some (PScalar v, r).

Lemma object_items_encoded (level : nat) (r : string) (d : record) :
  forall (k : string) (v : scalar) (fuel : nat),
  (length d < fuel)%nat ->
  object_items scan fuel
    (escape k
     +:+ String Ch.quote
           (key_separator +:+ encode_scalar v
            +:+ items_tail indent (S level) d
            +:+ newline_indent indent level +:+ String Ch.rbrace r))
  = Some ((k, v) :: d, r).
Proof.
  induction d as [|[k2 v2] d IH]; intros k v fuel Hfuel;
    (destruct fuel as [|fuel]; [simpl in Hfuel; lia|]);
    cbn [object_items]; rewrite scanstring_escape;
    unfold key_separator; scan_step;
    rewrite (skip_ws_token _ (encode_scalar_token v _));
    rewrite scan_scalar by apply follows_items_tail; scan_step.
  - cbn [items_tail List.map Str.concat String.append].
    rewrite skip_newline_indent. scan_step. reflexivity.
  - cbn [items_tail List.map Str.concat]. unfold item_separator at 1.
    rewrite !app_assoc_s. scan_step.
    rewrite skip_newline_indent.
    unfold encode_item at 1, encode_basestring_ascii. cbn [fst snd].
    rewrite !app_assoc_s. scan_step.
    fold (items_tail indent (S level) d).
    rewrite !app_assoc_s. cbn [String.append].
    rewrite (IH k2 v2 fuel) by (simpl in Hfuel; lia).
    reflexivity.
Qed.
End Objects.

(** Distinct keys come back as the [dict] they were. *)
Lemma dict_set_fresh (k : string) (v : scalar) (d : record) :
  k ∉ List.map fst d -> dict_set k v d = d ++ [(k, v)].
Proof.
  induction d as [|[k' v'] d IH]; intros Hk; [reflexivity|].
  simpl in *. apply not_elem_of_cons in Hk as [Hne Hk].
  unfold Str.eqb. rewrite bool_decide_eq_false_2 by assumption.
  now rewrite IH.
Qed.

Lemma dict_of_pairs_from (d acc : record) :
  NoDup (List.map fst (acc ++ d)) ->
  List.fold_left (fun d kv => dict_set kv.1 kv.2 d) d acc = acc ++ d.
Proof.
  revert acc. induction d as [|[k v] d IH]; intros acc Hnd.
  - now rewrite app_nil_r.
  - simpl. rewrite dict_set_fresh.
    + rewrite IH; rewrite <- app_assoc; [reflexivity | exact Hnd].
    + rewrite map_app in Hnd. apply NoDup_app in Hnd as (_ & Hdis & _).
      intros Hin. apply (Hdis k Hin). simpl. left.
Qed.

Lemma dict_of_pairs_nodup (d : record) :
  NoDup (List.map fst d) -> dict_of_pairs d = d.
Proof. intros Hnd. exact (dict_of_pairs_from d [] Hnd). Qed.

Lemma length_items_tail indent (level : nat) (d : record) :
  (length d <= String.length (items_tail indent level d))%nat.
Proof.
  induction d as [|kv d IH]; [reflexivity|].
  cbn [items_tail List.map Str.concat]. fold (items_tail indent level d).
  unfold item_separator. cbn [String.append length String.length].
  rewrite !length_app_s. lia.
Qed.

Lemma length_iterencode_dict indent (level : nat) (d : record) :
  (length d <= String.length (iterencode_dict indent level d))%nat.
Proof.
  destruct d as [|kv d]; [simpl; lia|].
  unfold iterencode_dict.
  change (List.map encode_item (kv :: d)) with (encode_item kv :: List.map encode_item d).
  rewrite join_cons. fold (items_tail indent (S level) d).
  cbn [String.length length]. rewrite !length_app_s.
  pose proof (length_items_tail indent (S level) d). lia.
Qed.

Lemma scan_once_lbrace fuel (s : string) :
  scan_once (S fuel) (String Ch.lbrace s)
  = '(d, r) ← JSONObject (scan_once fuel) fuel s; Some (PDict d, r).
Proof. reflexivity. Qed.

Section Records.
Variable indent : string.
Hypothesis indent_ws : Str.forallb Ch.is_json_ws indent = true.

Lemma scan_once_record (level fuel : nat) (d : record) (r : string) :
  NoDup (List.map fst d) ->
  (length d <= fuel)%nat ->
  scan_once (S fuel) (iterencode_dict indent level d +:+ r) = Some (PDict d, r).
Proof.
  intros Hnd Hfuel. destruct d as [|[k v] d]; [reflexivity|].
  destruct fuel as [|fuel]; [simpl in Hfuel; lia|].
  unfold iterencode_dict.
  change (List.map encode_item ((k, v) :: d))
    with (encode_item (k, v) :: List.map encode_item d).
  rewrite join_cons. fold (items_tail indent (S level) d).
  cbn [String.append]. rewrite scan_once_lbrace.
  unfold JSONObject. rewrite !app_assoc_s, skip_newline_indent by assumption.
  unfold encode_item at 1, encode_basestring_ascii. cbn [fst snd].
  rewrite !app_assoc_s. scan_step. rewrite !app_assoc_s. cbn [String.append].
  rewrite (object_items_encoded indent indent_ws (scan_once (S fuel))
             (scan_once_scalar fuel) level r d k v (S fuel))
    by (simpl in Hfuel; lia).
  scan_step. now rewrite dict_of_pairs_nodup.
Qed.
End Records.

(** [json.loads(json.dumps(record, indent=4)) == record] *)
Lemma loads_dumps_record (d : record) :
  NoDup (List.map fst d) -> loads (dumps (PDict d)) = Some (PDict d).
Proof.
  intros Hnd. unfold loads, dumps. cbn [iterencode].
  set (s := iterencode_dict "    " 0 d).
  assert (Hs : skip_ws s = s).
  { apply skip_ws_token. subst s. now destruct d. }
  rewrite Hs. rewrite <- (app_nil_r_s s) at 2.
  subst s. rewrite scan_once_record; try assumption; try reflexivity.
  apply length_iterencode_dict.
Qed.
End RoundTrip.

(** ** The tree that the markup serializer builds *)

Module XmlTree.
Import ET XmlShape.
Local Open Scope nat_scope.

Lemma length_blocks base rs :
  length (blocks base rs) = length rs + list_sum (List.map (@length _) rs).
Proof.
  revert base. induction rs as [|r rs IH]; intros base; [reflexivity|].
  simpl. rewrite length_app, length_map, IH. lia.
Qed.

Lemma add_children_nil n : add_children [] n = n.
Proof. destruct n. unfold add_children. simpl. now rewrite app_nil_r. Qed.

Lemma add_children_app cs1 cs2 n :
  add_children cs2 (add_children cs1 n) = add_children (cs1 ++ cs2) n.
Proof. unfold add_children. simpl. now rewrite app_assoc. Qed.

(** One field: the parent gains a child, the heap gains the leaf. *)
Lemma add_field_step parent k s h :
  parent < length h ->
  set_text (length h) s (snd (SubElement parent k h))
  = alter (add_children [length h]) parent h ++ [Node k (Some s) []].
Proof.
  intros Hp. unfold SubElement, Element, set_text, append. cbn [fst snd].
  rewrite alter_app_l by assumption.
  rewrite alter_app_r_alt by (rewrite length_alter; lia).
  rewrite length_alter, Nat.sub_diag. reflexivity.
Qed.

Lemma add_fields_heap (d : record) : forall parent h,
  parent < length h ->
  add_fields parent d h
  = alter (add_children (seq (length h) (length d))) parent h
    ++ List.map leaf_node d.
Proof.
  induction d as [|[k v] d IH]; intros parent h Hp.
  - simpl. rewrite app_nil_r.
    symmetry. apply list_alter_id, add_children_nil.
  - unfold add_fields. cbn [List.fold_left fst snd].
    change (let '(child, h1) := SubElement parent k h in set_text child (py_str v) h1)
      with (set_text (length h) (py_str v) (snd (SubElement parent k h))).
    rewrite add_field_step by assumption.
    fold (add_fields parent d
            (alter (add_children [length h]) parent h ++ [Node k (Some (py_str v)) []])).
    rewrite IH by (rewrite length_app, length_alter; simpl; lia).
    rewrite length_app, length_alter. cbn [length].
    rewrite alter_app_l by (rewrite length_alter; lia).
    rewrite list_alter_alter_eq.
    rewrite <- app_assoc. cbn [List.map app fst snd].
    f_equal. apply list_alter_ext; [|reflexivity]. intros n _.
    cbn [compose]. rewrite add_children_app. f_equal.
    cbn [length seq app]. do 2 f_equal. lia.
Qed.

Lemma sub_element_item root h :
  root < length h ->
  SubElement root "item" h
  = (length h, alter (add_children [length h]) root h ++ [Node "item" None []]).
Proof.
  intros Hr. unfold SubElement, Element, append.
  now rewrite alter_app_l by assumption.
Qed.

(** The items of a list of Records: the root gains one child per
    of them, the heap gains their blocks. *)
Lemma add_items_heap (rs : list record) : forall root h,
  root < length h ->
  add_items root (List.map PDict rs) h
  = Ok (alter (add_children (item_ids (length h) rs)) root h
        ++ blocks (length h) rs).
Proof.
  induction rs as [|r rs IH]; intros root h Hr.
  - simpl. rewrite app_nil_r. f_equal.
    symmetry. apply list_alter_id, add_children_nil.
  - cbn [List.map add_items]. rewrite sub_element_item by assumption.
    rewrite add_fields_heap by (rewrite length_app, length_alter; simpl; lia).
    rewrite length_app, length_alter. cbn [length].
    rewrite alter_app_r_alt by (rewrite length_alter; lia).
    rewrite length_alter, Nat.sub_diag. cbn [alter list_alter].
    rewrite IH by (rewrite !length_app, length_alter; simpl; lia).
    rewrite !length_app, length_alter, length_map. cbn [length].
    rewrite <- !app_assoc.
    rewrite alter_app_l by (rewrite length_alter; lia).
    rewrite list_alter_alter_eq.
    f_equal. cbn [blocks item_ids add_children app children tag text].
    replace (length h + 1 + length r) with (S (length h) + length r) by lia.
    replace (length h + 1) with (S (length h)) by lia.
    rewrite <- app_assoc. f_equal.
    apply list_alter_ext; [|reflexivity]. intros n _.
    cbn [compose]. now rewrite add_children_app.
Qed.

(** *** Walking the heap *)

Lemma walk_leaf fuel (h : heap) (e : nat) (kv : string * scalar) :
  h !! e = Some (leaf_node kv) -> walk (S fuel) h e = Some (leaf kv).
Proof. intros E. cbn [walk]. now rewrite E. Qed.

Lemma walk_node fuel (h : heap) (e : nat) (n : node) (ts : list element) :
  h !! e = Some n ->
  Forall2 (fun c t => walk fuel h c = Some t) (children n) ts ->
  walk (S fuel) h e = Some (Elem (tag n) (text n) ts).
Proof.
  intros E Hc. cbn [walk]. rewrite E. cbn [mbind option_bind].
  now rewrite (mapM_Some_2 _ _ _ Hc).
Qed.

(** The leaves of a block sit right behind its item node. *)
Lemma walk_leaves fuel (pre post : heap) (r : record) :
  Forall2 (fun c t => walk (S fuel) (pre ++ List.map leaf_node r ++ post) c = Some t)
    (seq (length pre) (length r)) (List.map leaf r).
Proof.
  revert pre. induction r as [|kv r IH]; intros pre; [constructor|].
  cbn [length seq List.map]. constructor.
  - apply walk_leaf. cbn [app]. now rewrite list_lookup_middle.
  - specialize (IH (pre ++ [leaf_node kv])).
    rewrite length_app, Nat.add_1_r, <- app_assoc in IH. exact IH.
Qed.

Lemma walk_parent fuel (t : string) (pre post : heap) (r : record) :
  need_item r <= fuel ->
  walk fuel
    (pre ++ Node t None (seq (S (length pre)) (length r))
         :: List.map leaf_node r ++ post)
    (length pre)
  = Some (Elem t None (List.map leaf r)).
Proof.
  intros Hf. destruct fuel as [|fuel]; [destruct r; simpl in Hf; lia|].
  apply (walk_node fuel _ _ (Node t None (seq (S (length pre)) (length r)))).
  - now rewrite list_lookup_middle.
  - destruct r as [|kv r]; [constructor|].
    destruct fuel as [|fuel]; [simpl in Hf; lia|].
    pose proof (walk_leaves fuel
                  (pre ++ [Node t None (seq (S (length pre)) (length (kv :: r)))])
                  post (kv :: r)) as Hl.
    rewrite length_app, Nat.add_1_r, <- app_assoc in Hl. exact Hl.
Qed.

Lemma walk_items fuel (rs : list record) : forall (pre : heap),
  Forall (fun r => need_item r <= fuel) rs ->
  Forall2 (fun c t => walk fuel (pre ++ blocks (length pre) rs) c = Some t)
    (item_ids (length pre) rs) (List.map item rs).
Proof.
  induction rs as [|r rs IH]; intros pre Hf; [constructor|].
  apply Forall_cons in Hf as [Hr Hf].
  cbn [item_ids blocks List.map]. constructor.
  - now apply walk_parent.
  - specialize (IH (pre ++ Node "item" None (seq (S (length pre)) (length r))
                        :: List.map leaf_node r) Hf).
    rewrite length_app in IH. cbn [length] in IH. rewrite length_map in IH.
    replace (length pre + S (length r)) with (S (length pre) + length r) in IH by lia.
    rewrite <- app_assoc in IH. exact IH.
Qed.

Lemma need_item_blocks base (rs : list record) :
  Forall (fun r => need_item r <= length (blocks base rs)) rs.
Proof.
  apply Forall_forall. intros r Hin. rewrite length_blocks.
  induction rs as [|r' rs IH]; [inversion Hin|].
  apply elem_of_cons in Hin as [-> | Hin].
  - destruct r'; simpl; lia.
  - specialize (IH Hin). simpl. lia.
Qed.

Lemma build_tree_record (r : record) :
  exists h, build_tree (PDict r) = Ok (0, h)
            /\ snapshot h 0 = Some (record_tree r).
Proof.
  eexists. split.
  - unfold build_tree, Element. cbn [length].
    rewrite add_fields_heap by (simpl; lia). reflexivity.
  - unfold snapshot. cbn [alter list_alter add_children children tag text app length].
    rewrite length_map.
    pose proof (walk_parent (S (length r)) "data" [] [] r) as Hw.
    rewrite app_nil_r in Hw. apply Hw.
    destruct r; simpl; lia.
Qed.

Lemma build_tree_records (rs : list record) :
  exists h, build_tree (of_records rs) = Ok (0, h)
            /\ snapshot h 0 = Some (records_tree rs).
Proof.
  eexists. split.
  - unfold build_tree, of_records, Element. cbn [length].
    rewrite add_items_heap by (simpl; lia). reflexivity.
  - unfold snapshot. cbn [alter list_alter add_children children tag text app length].
    apply (walk_node _ _ _ (Node "data" None (item_ids 1 rs))); [reflexivity|].
    apply (walk_items _ rs [Node "data" None (item_ids 1 rs)]).
    apply need_item_blocks.
Qed.
End XmlTree.

(** * The claims *)

(** ** The reader inverts the pretty-printer *)

Module XmlRoundTrip.
Import ET Minidom XmlReader XmlText.

Lemma read_data_char (c : ascii) (tail : string) :
  read_data (write_data_char c +:+ tail)
  = '(d, r) ← read_data tail; Some (String c d, r).
Proof. destruct c as [[] [] [] [] [] [] [] []]; reflexivity. Qed.

Lemma read_write_data (d r : string) :
  read_data (write_data d +:+ String (Ch.chr 60) r) = Some (d, String (Ch.chr 60) r).
Proof.
  induction d as [|c d IH]; [reflexivity|].
  cbn [write_data]. rewrite app_assoc_s, read_data_char, IH. reflexivity.
Qed.

Lemma is_ws_data (c : ascii) :
  is_ws c = true -> write_data_char c = String c EmptyString.
Proof.
  destruct c as [[] [] [] [] [] [] [] []]; intros E;
    first [discriminate E | reflexivity].
Qed.

Lemma write_data_ws (a : string) : Str.forallb is_ws a = true -> write_data a = a.
Proof.
  induction a as [|c a IH]; [reflexivity|]. cbn [Str.forallb write_data].
  intros [Hc Ha]%andb_prop. now rewrite (is_ws_data c Hc), IH.
Qed.

Lemma read_data_ws (a r : string) :
  Str.forallb is_ws a = true ->
  read_data (a +:+ String (Ch.chr 60) r) = Some (a, String (Ch.chr 60) r).
Proof.
  intros Ha. rewrite <- (write_data_ws a Ha) at 1. apply read_write_data.
Qed.

Lemma name_start_char (c : ascii) :
  name_start c = true -> name_char c = true /\ N.eqb (Ch.code c) 47 = false.
Proof.
  destruct c as [[] [] [] [] [] [] [] []]; intros E;
    first [discriminate E | split; reflexivity].
Qed.

Lemma is_name_chars (k : string) :
  is_name k = true ->
  Str.forallb name_char k = true
  /\ exists a s, k = String a s /\ N.eqb (Ch.code a) 47 = false.
Proof.
  destruct k as [|c k]; [discriminate|]. cbn [is_name Str.forallb].
  intros [Hc Hk]%andb_prop. destruct (name_start_char c Hc) as [Hn Hs].
  rewrite Hn, Hk. split; [reflexivity|]. now exists c, k.
Qed.

Lemma read_name_stop (k : string) (c : ascii) (x : string) :
  Str.forallb name_char k = true -> name_char c = false ->
  read_name (k +:+ String c x) = (k, String c x).
Proof.
  intros Hk Hc. induction k as [|a k IH].
  - cbn [String.append read_name]. now rewrite Hc.
  - cbn [Str.forallb] in Hk. apply andb_prop in Hk as [Ha Hk].
    cbn [String.append read_name]. now rewrite Ha, (IH Hk).
Qed.

Lemma strip_prefix_app (k x : string) :
  JsonDecoder.strip_prefix k (k +:+ x) = Some x.
Proof.
  induction k as [|a k IH]; [reflexivity|].
  cbn [String.append JsonDecoder.strip_prefix]. unfold Ch.eqb.
  now rewrite N.eqb_refl.
Qed.

Lemma read_close_tag (k x : string) :
  read_close k (k +:+ String (Ch.chr 62) x) = Some x.
Proof. unfold read_close. rewrite strip_prefix_app. reflexivity. Qed.

(** *** Elements *)

Lemma read_element_empty (f : nat) (k x : string) :
  is_name k = true ->
  read_element (S f) (k +:+ String (Ch.chr 47) (String (Ch.chr 62) x))
  = Some (Elem k None [], x).
Proof.
  intros Hk. destruct (is_name_chars k Hk) as [Hc _].
  cbn [read_element]. rewrite (read_name_stop k (Ch.chr 47) _ Hc eq_refl), Hk.
  reflexivity.
Qed.

Lemma read_element_text (f : nat) (k data x : string) :
  is_name k = true -> Str.is_empty data = false ->
  read_element (S f)
    (k +:+ String (Ch.chr 62)
             (write_data data
              +:+ String (Ch.chr 60) (String (Ch.chr 47)
                    (k +:+ String (Ch.chr 62) x))))
  = Some (Elem k (Some data) [], x).
Proof.
  intros Hk Hd. destruct (is_name_chars k Hk) as [Hc _].
  cbn [read_element]. rewrite (read_name_stop k (Ch.chr 62) _ Hc eq_refl), Hk.
  cbn [skip_ws]. char_ws.
  rewrite read_write_data. cbn [mbind option_bind]. char_ws.
  rewrite read_close_tag. cbn [mbind option_bind]. now rewrite Hd.
Qed.

Section Children.
Variable read_elem : string -> option (element * string).
Variables tag inner indent : string.
Hypothesis inner_ws : Str.forallb is_ws inner = true.
Hypothesis indent_ws : Str.forallb is_ws indent = true.

Local Abbreviation tail_text := (XmlText.tail_text tag inner indent).
Local Abbreviation after_gap := (XmlText.after_gap tag inner indent).
Local Abbreviation readable := (XmlText.readable read_elem).

Lemma read_data_gap (cs : list ((string -> string) * element)) (rest : string) :
  exists gap,
    Str.forallb is_ws gap = true
    /\ read_data (tail_text cs rest) = Some (gap, after_gap cs rest).
Proof.
  destruct cs as [|[body e] cs]; cbn [XmlText.tail_text XmlText.after_gap].
  - exists (newl +:+ indent). split.
    + unfold newl. cbn [String.append Str.forallb]. now rewrite indent_ws.
    + rewrite <- app_assoc_s. apply read_data_ws.
      unfold newl. cbn [String.append Str.forallb]. now rewrite indent_ws.
  - exists (newl +:+ inner). split.
    + unfold newl. cbn [String.append Str.forallb]. now rewrite inner_ws.
    + rewrite <- app_assoc_s. apply read_data_ws.
      unfold newl. cbn [String.append Str.forallb]. now rewrite inner_ws.
Qed.

Lemma read_children_after_gap (cs : list ((string -> string) * element))
  (rest : string) :
  Forall readable cs ->
  forall fuel : nat,
    (length cs < fuel)%nat ->
    read_children read_elem fuel tag (after_gap cs rest)
    = Some (List.map snd cs, rest).
Proof.
  induction 1 as [|[body e] cs Hc _ IH]; intros fuel Hf;
    (destruct fuel as [|fuel]; [simpl in Hf; lia|]).
  - cbn [XmlText.after_gap read_children]. char_ws.
    rewrite read_close_tag. reflexivity.
  - cbn [XmlText.after_gap]. destruct (Hc (tail_text cs rest)) as [(a & s & Hb & Ha) Hr].
    cbn [fst snd] in Hb, Hr. cbn [read_children]. rewrite Hb. char_ws.
    rewrite Ha. rewrite <- Hb, Hr. cbn [mbind option_bind].
    destruct (read_data_gap cs rest) as (gap & Hg & ->).
    cbn [mbind option_bind]. rewrite Hg.
    rewrite IH by (simpl in Hf; lia). reflexivity.
Qed.

Lemma tail_text_length (cs : list ((string -> string) * element)) (rest : string) :
  Forall (grows 0) cs ->
  (length cs + String.length rest <= String.length (tail_text cs rest))%nat.
Proof.
  induction 1 as [|[body e] cs Hc _ IH]; cbn [XmlText.tail_text length].
  - unfold newl. rewrite !length_app_s. cbn [String.length].
    rewrite !length_app_s. cbn [String.length]. lia.
  - specialize (Hc (tail_text cs rest)). cbn [fst] in Hc.
    unfold newl. rewrite !length_app_s. cbn [String.length]. lia.
Qed.

Lemma tail_text_length_child (cs : list ((string -> string) * element))
  (rest : string) (n : nat) (c : (string -> string) * element) :
  Forall (grows 0) cs -> In c cs -> grows n c ->
  (n + String.length rest <= String.length (tail_text cs rest))%nat.
Proof.
  intros Hcs Hin Hn. induction Hcs as [|[body e] cs Hc Hcs IH]; [destruct Hin|].
  cbn [XmlText.tail_text]. unfold newl. rewrite !length_app_s. cbn [String.length].
  destruct Hin as [<- | Hin].
  - specialize (Hn (tail_text cs rest)). cbn [fst] in Hn.
    pose proof (tail_text_length cs rest Hcs). lia.
  - specialize (IH Hin). specialize (Hc (tail_text cs rest)). cbn [fst] in Hc. lia.
Qed.
End Children.

Lemma read_element_children (f : nat) (k inner indent x : string)
  (cs : list ((string -> string) * element)) :
  is_name k = true ->
  Str.forallb is_ws inner = true -> Str.forallb is_ws indent = true ->
  cs <> [] ->
  Forall (readable (read_element f)) cs ->
  (length cs < f)%nat ->
  read_element (S f) (k +:+ String (Ch.chr 62) (tail_text k inner indent cs x))
  = Some (Elem k None (List.map snd cs), x).
Proof.
  intros Hk Hi Hd Hne Hcs Hf. destruct (is_name_chars k Hk) as [Hc _].
  cbn [read_element]. rewrite (read_name_stop k (Ch.chr 62) _ Hc eq_refl), Hk.
  cbn [skip_ws]. char_ws.
  destruct (read_data_gap k inner indent Hi Hd cs x) as (gap & Hg & ->).
  cbn [mbind option_bind].
  pose proof (read_children_after_gap (read_element f) k inner indent Hi Hd cs x
                Hcs f Hf) as Hch.
  destruct cs as [|[body e] cs]; [contradiction|].
  apply Forall_cons in Hcs as [Hb _].
  destruct (Hb (tail_text k inner indent cs x)) as [(a & s & Hbs & Ha) _].
  cbn [fst] in Hbs. cbn [after_gap] in Hch |- *. rewrite Hbs in Hch |- *.
  rewrite Ha, Hg, Hch. reflexivity.
Qed.

(** *** The documents of the serializer *)

Lemma writexml_leaf (indent : string) (kv : string * scalar) (y : string) :
  writexml indent (XmlShape.leaf kv) +:+ y
  = indent +:+ String (Ch.chr 60) (leaf_body kv (newl +:+ y)).
Proof.
  unfold XmlShape.leaf, leaf_body. cbn [writexml].
  change (default EmptyString (Some (py_str kv.2))) with (py_str kv.2).
  destruct (normalize (py_str kv.2)) as [|c d];
    rewrite !app_assoc_s; reflexivity.
Qed.

Lemma tail_text_children (tag inner indent : string) (es : list element)
  (cs : list ((string -> string) * element)) (rest : string) :
  Forall2 (fun e c => forall y,
             writexml inner e +:+ y
             = inner +:+ String (Ch.chr 60) (c.1 (newl +:+ y))) es cs ->
  newl +:+ Str.concat (List.map (writexml inner) es) +:+ indent
  +:+ String (Ch.chr 60) (String (Ch.chr 47) (tag +:+ String (Ch.chr 62) rest))
  = tail_text tag inner indent cs rest.
Proof.
  induction 1 as [|e [body e'] es cs Hec _ IH]; [reflexivity|].
  cbn [List.map Str.concat tail_text fst] in *.
  rewrite app_assoc_s, Hec. rewrite <- IH. reflexivity.
Qed.

Lemma writexml_container (tag indent : string) (es : list element)
  (cs : list ((string -> string) * element)) (y : string) :
  Forall2 (fun e c => forall y,
             writexml (indent +:+ addindent) e +:+ y
             = (indent +:+ addindent)
               +:+ String (Ch.chr 60) (c.1 (newl +:+ y))) es cs ->
  writexml indent (Elem tag None es) +:+ y
  = indent +:+ String (Ch.chr 60) (container_body tag indent cs (newl +:+ y)).
Proof.
  intros Hes. unfold container_body.
  destruct Hes as [|e c es cs Hec Hes].
  - cbn [writexml]. change (default EmptyString None) with EmptyString.
    cbn [normalize]. rewrite !app_assoc_s. reflexivity.
  - rewrite <- (tail_text_children tag (indent +:+ addindent) indent
                  (e :: es) (c :: cs) (newl +:+ y)) by now constructor.
    cbn [writexml]. change (default EmptyString None) with EmptyString.
    cbn [normalize]. rewrite !app_assoc_s. reflexivity.
Qed.

Lemma leaves_children (indent : string) (r : record) :
  Forall2 (fun e c => forall y,
             writexml indent e +:+ y
             = indent +:+ String (Ch.chr 60) (c.1 (newl +:+ y)))
    (List.map XmlShape.leaf r) (List.map leaf_child r).
Proof.
  induction r as [|kv r IH]; [constructor|].
  cbn [List.map]. constructor; [|exact IH].
  intros y. apply writexml_leaf.
Qed.

Lemma writexml_item (indent : string) (r : record) (y : string) :
  writexml indent (XmlShape.item r) +:+ y
  = indent +:+ String (Ch.chr 60) ((item_child indent r).1 (newl +:+ y)).
Proof. apply writexml_container, leaves_children. Qed.

Lemma items_children (indent : string) (rs : list record) :
  Forall2 (fun e c => forall y,
             writexml indent e +:+ y
             = indent +:+ String (Ch.chr 60) (c.1 (newl +:+ y)))
    (List.map XmlShape.item rs) (List.map (item_child indent) rs).
Proof.
  induction rs as [|r rs IH]; [constructor|].
  cbn [List.map]. constructor; [|exact IH].
  intros y. apply writexml_item.
Qed.

(** *** Reading them *)

Lemma leaf_readable (f : nat) (kv : string * scalar) :
  is_name kv.1 = true -> readable (read_element (S f)) (leaf_child kv).
Proof.
  intros Hk x. destruct (is_name_chars kv.1 Hk) as [_ (a & s & Hks & Ha)].
  unfold leaf_child, leaf_body, read_leaf. cbn [fst snd].
  destruct (normalize (py_str kv.2)) as [|c d] eqn:Hd.
  - split.
    + rewrite Hks. cbn [String.append]. now eexists _, _.
    + now apply read_element_empty.
  - split.
    + rewrite Hks. cbn [String.append]. now eexists _, _.
    + now apply read_element_text.
Qed.

Lemma leaf_grows (kv : string * scalar) : grows 0 (leaf_child kv).
Proof.
  intros x. unfold leaf_child, leaf_body. cbn [fst].
  destruct (normalize (py_str kv.2));
    rewrite ?length_app_s; cbn [String.length]; rewrite ?length_app_s;
    cbn [String.length]; rewrite ?length_app_s; cbn [String.length]; lia.
Qed.

Lemma indent_ws (n : nat) : Str.forallb is_ws (Str.repeat addindent n) = true.
Proof. induction n as [|n IH]; [reflexivity | exact IH]. Qed.

Lemma leaves_readable (f : nat) (r : record) :
  named_fields r ->
  Forall (readable (read_element (S f))) (List.map leaf_child r).
Proof.
  induction 1 as [|kv r Hk _ IH]; cbn [List.map]; constructor;
    [now apply leaf_readable | exact IH].
Qed.

Lemma leaves_grow (r : record) : Forall (grows 0) (List.map leaf_child r).
Proof.
  induction r as [|kv r IH]; cbn [List.map]; constructor;
    [apply leaf_grows | exact IH].
Qed.

Lemma read_container (f : nat) (tag inner : string) (r : record) (x : string) :
  is_name tag = true ->
  Str.forallb is_ws inner = true ->
  named_fields r ->
  (length r < S f)%nat ->
  read_element (S (S f))
    (container_body tag inner (List.map leaf_child r) x)
  = Some (Elem tag None (List.map read_leaf r), x).
Proof.
  intros Ht Hi Hr Hf. unfold container_body.
  destruct r as [|kv r]; cbn [List.map].
  - now apply read_element_empty.
  - change (leaf_child kv :: List.map leaf_child r)
      with (List.map leaf_child (kv :: r)).
    rewrite read_element_children.
    + now rewrite List.map_map.
    + exact Ht.
    + rewrite forallb_app_s, Hi. reflexivity.
    + exact Hi.
    + discriminate.
    + now apply leaves_readable.
    + now rewrite length_map.
Qed.

Lemma container_grows (tag inner : string) (r : record) :
  grows (length r) (container_body tag inner (List.map leaf_child r), read_item r).
Proof.
  intros x. cbn [fst]. unfold container_body.
  destruct r as [|kv r]; cbn [List.map].
  - rewrite length_app_s. cbn [length String.length]. lia.
  - change (leaf_child kv :: List.map leaf_child r)
      with (List.map leaf_child (kv :: r)).
    pose proof (tail_text_length tag (inner +:+ addindent) inner
                  (List.map leaf_child (kv :: r)) x (leaves_grow (kv :: r))) as Hl.
    rewrite length_map in Hl.
    rewrite length_app_s. cbn [String.length]. lia.
Qed.

(** The text of a document, from its declaration to the last line. *)
Lemma read_document_body (body rest : string) (e : element) :
  (forall f, (String.length body <= f)%nat -> read_element (S f) body = Some (e, rest)) ->
  skip_ws rest = EmptyString ->
  read_document (declaration +:+ newl +:+ String (Ch.chr 60) body) = Some e.
Proof.
  intros Hbody Hrest. unfold read_document.
  change (skip_ws (declaration +:+ newl +:+ String (Ch.chr 60) body))
    with (declaration +:+ newl +:+ String (Ch.chr 60) body).
  change (JsonDecoder.strip_prefix "<?xml"
            (declaration +:+ newl +:+ String (Ch.chr 60) body))
    with (Some (" version=" +:+ String Ch.quote ("1.0" +:+ String Ch.quote " ?>")
                +:+ newl +:+ String (Ch.chr 60) body)).
  cbv beta iota.
  match goal with
  | |- context [skip_declaration ?t] =>
      change (skip_declaration t) with (Some (newl +:+ String (Ch.chr 60) body))
  end.
  cbn [mbind option_bind].
  change (skip_ws (newl +:+ String (Ch.chr 60) body))
    with (String (Ch.chr 60) body).
  char_ws.
  change (String.length (declaration +:+ newl +:+ String (Ch.chr 60) body))
    with (S (23 + String.length body)).
  rewrite Hbody by lia. cbn [mbind option_bind]. now rewrite Hrest.
Qed.

(** The document of a single Record reads as a root that holds the
    leaves of the fields. *)
Lemma read_record_tree (r : record) :
  named_fields r ->
  read_document (toprettyxml (XmlShape.record_tree r))
  = Some (Elem "data" None (List.map read_leaf r)).
Proof.
  intros Hr. unfold toprettyxml, XmlShape.record_tree.
  pose proof (writexml_container "data" EmptyString (List.map XmlShape.leaf r)
                (List.map leaf_child r) EmptyString
                (leaves_children _ r)) as Hw.
  rewrite app_nil_r_s in Hw. rewrite Hw. cbn [String.append].
  apply (read_document_body _ newl); [|reflexivity].
  intros f Hf.
  pose proof (container_grows "data" EmptyString r (newl +:+ EmptyString)) as Hg.
  cbn [fst] in Hg. change (newl +:+ EmptyString) with newl in *.
  change (String.length newl) with 1%nat in Hg.
  destruct f as [|f]; [lia|].
  apply read_container; [reflexivity | reflexivity | exact Hr | lia].
Qed.

Lemma item_readable (f : nat) (inner : string) (r : record) :
  Str.forallb is_ws inner = true ->
  named_fields r ->
  (length r < S f)%nat ->
  readable (read_element (S (S f))) (item_child inner r).
Proof.
  intros Hi Hr Hf x. unfold item_child. cbn [fst snd]. split.
  - unfold container_body. destruct (List.map leaf_child r);
      cbn [String.append]; now eexists _, _.
  - unfold read_item. now apply read_container.
Qed.

Lemma items_grow (rs : list record) :
  Forall (grows 0) (List.map (item_child addindent) rs).
Proof.
  induction rs as [|r rs IH]; cbn [List.map]; constructor; [|exact IH].
  intros x. pose proof (container_grows "item" addindent r x) as Hg.
  cbn [fst item_child] in *. lia.
Qed.

Lemma read_items (f : nat) (rs : list record) (x : string) :
  Forall named_fields rs ->
  (length rs < S (S f))%nat ->
  (forall r, In r rs -> (length r < S f)%nat) ->
  read_element (S (S (S f)))
    (container_body "data" EmptyString (List.map (item_child addindent) rs) x)
  = Some (Elem "data" None (List.map read_item rs), x).
Proof.
  intros Hrs Hlen Hitems. unfold container_body.
  destruct rs as [|r rs]; cbn [List.map].
  - now apply read_element_empty.
  - change (item_child addindent r :: List.map (item_child addindent) rs)
      with (List.map (item_child addindent) (r :: rs)).
    rewrite read_element_children.
    + now rewrite List.map_map.
    + reflexivity.
    + reflexivity.
    + reflexivity.
    + discriminate.
    + apply Forall_forall. intros c Hc.
      apply list_elem_of_In, in_map_iff in Hc as (r' & <- & Hin).
      apply item_readable; [reflexivity | | now apply Hitems].
      rewrite Forall_forall in Hrs. apply Hrs. now apply list_elem_of_In.
    + now rewrite length_map.
Qed.

(** The document of a list of Records reads as a root that holds one
    [item] for each Record, with the leaves of its fields. *)
Lemma read_records_tree (rs : list record) :
  Forall named_fields rs ->
  read_document (toprettyxml (XmlShape.records_tree rs))
  = Some (Elem "data" None (List.map read_item rs)).
Proof.
  intros Hrs. unfold toprettyxml, XmlShape.records_tree.
  pose proof (writexml_container "data" EmptyString (List.map XmlShape.item rs)
                (List.map (item_child addindent) rs) EmptyString
                (items_children _ rs)) as Hw.
  rewrite app_nil_r_s in Hw. rewrite Hw. cbn [String.append].
  apply (read_document_body _ newl); [|reflexivity].
  intros f Hf. change (newl +:+ EmptyString) with newl in *.
  assert (Hbody : forall n c,
             In c (List.map (item_child addindent) rs) -> grows n c ->
             (n + 6 <= String.length
                         (container_body "data" EmptyString
                            (List.map (item_child addindent) rs) newl))%nat).
  { intros n c Hin Hn. unfold container_body.
    destruct (List.map (item_child addindent) rs) as [|c0 cs] eqn:E;
      [destruct Hin|].
    pose proof (tail_text_length_child "data" (EmptyString +:+ addindent)
                  EmptyString (c0 :: cs) newl n c) as Hl.
    rewrite <- E in Hl. specialize (Hl (items_grow rs)).
    rewrite E in Hl. specialize (Hl Hin Hn).
    rewrite length_app_s. change (String.length newl) with 1%nat in Hl.
    cbn [String.length]. lia. }
  assert (Hcount : (length rs + 5 <= String.length
                      (container_body "data" EmptyString
                         (List.map (item_child addindent) rs) newl))%nat).
  { unfold container_body.
    destruct (List.map (item_child addindent) rs) as [|c0 cs] eqn:E.
    - apply (f_equal (@length _)) in E. rewrite length_map in E.
      rewrite E. rewrite length_app_s. cbn [length String.length]. lia.
    - pose proof (tail_text_length "data" (EmptyString +:+ addindent)
                    EmptyString (c0 :: cs) newl) as Hl.
      rewrite <- E in Hl. specialize (Hl (items_grow rs)).
      rewrite length_map in Hl. rewrite E in Hl.
      rewrite length_app_s. change (String.length newl) with 1%nat in Hl.
      cbn [String.length]. lia. }
  destruct f as [|[|f]]; [lia | lia |].
  apply read_items; [exact Hrs | lia |].
  intros r Hin.
  specialize (Hbody (length r) (item_child addindent r)
                (in_map (item_child addindent) rs r Hin)
                (container_grows "item" addindent r)).
  lia.
Qed.

End XmlRoundTrip.

(** ** The exported markup document *)

Lemma well_named_leaves (r : record) :
  named_fields r ->
  List.forallb Minidom.well_named (List.map XmlShape.leaf r) = true.
Proof.
  induction 1 as [|kv r Hkv _ IH]; [reflexivity|].
  cbn [List.map List.forallb XmlShape.leaf Minidom.well_named].
  rewrite Hkv, IH. reflexivity.
Qed.

Lemma well_named_record_tree (r : record) :
  named_fields r -> Minidom.well_named (XmlShape.record_tree r) = true.
Proof.
  intros Hr. unfold XmlShape.record_tree. cbn [Minidom.well_named].
  now rewrite well_named_leaves.
Qed.

Lemma well_named_records_tree (rs : list record) :
  Forall named_fields rs -> Minidom.well_named (XmlShape.records_tree rs) = true.
Proof.
  intros Hrs. unfold XmlShape.records_tree. cbn [Minidom.well_named].
  change (Minidom.is_name "data") with true. cbn [andb].
  induction Hrs as [|r rs Hr _ IH]; [reflexivity|].
  cbn [List.map List.forallb XmlShape.item Minidom.well_named].
  rewrite (well_named_leaves r Hr), IH. reflexivity.
Qed.

Lemma utf8_decode_char (c : ascii) (b : list ascii) :
  utf8_decode (utf8_char c ++ b) = String c <$> utf8_decode b.
Proof. destruct c as [[] [] [] [] [] [] [] []]; reflexivity. Qed.

(** Reading a written text gives the text back. *)
Lemma utf8_decode_encode (s : string) : utf8_decode (utf8_encode s) = Some s.
Proof.
  induction s as [|c s IH]; [reflexivity|].
  cbn [utf8_encode]. now rewrite utf8_decode_char, IH.
Qed.

Lemma default_text_of (s : string) : default EmptyString (text_of s) = s.
Proof. destruct s; reflexivity. Qed.

(** A text without a carriage return is handed on as it is. *)
Lemma normalize_no_return (s : string) :
  Str.existsb (fun c => N.eqb (Ch.code c) 13) s = false ->
  Minidom.normalize s = s.
Proof.
  induction s as [|c s IH]; [reflexivity|].
  cbn [Str.existsb]. intros Hs. apply orb_false_elim in Hs as [Hc Hs].
  cbn [Minidom.normalize]. rewrite Hc. now rewrite IH.
Qed.

Lemma read_leaves_no_return (r : record) :
  no_return r = true ->
  List.map read_leaf r
  = List.map (fun kv => ET.Elem kv.1 (text_of (py_str kv.2)) []) r.
Proof.
  induction r as [|kv r IH]; [reflexivity|].
  unfold no_return. cbn [List.forallb List.map]. intros Hr.
  apply andb_prop in Hr as [Hkv Hr]. apply negb_true_iff in Hkv.
  unfold read_leaf at 1. rewrite (normalize_no_return _ Hkv).
  now rewrite (IH Hr).
Qed.

(** The parser refuses the tree of a Record exactly when a value holds a
    control character. *)
Lemma has_control_leaves (r : record) :
  List.existsb Minidom.has_control (List.map XmlShape.leaf r) = negb (printable r).
Proof.
  induction r as [|kv r IH]; [reflexivity|].
  unfold printable.
  cbn [List.map List.existsb List.forallb XmlShape.leaf Minidom.has_control default].
  fold (printable r). rewrite IH, orb_false_r, negb_andb. now rewrite negb_involutive.
Qed.

Lemma has_control_record_tree (r : record) :
  Minidom.has_control (XmlShape.record_tree r) = negb (printable r).
Proof. apply has_control_leaves. Qed.

Lemma has_control_records_tree (rs : list record) :
  Minidom.has_control (XmlShape.records_tree rs) = negb (List.forallb printable rs).
Proof.
  unfold XmlShape.records_tree. cbn [Minidom.has_control default Str.existsb orb].
  induction rs as [|r rs IH]; [reflexivity|].
  cbn [List.map List.existsb List.forallb XmlShape.item Minidom.has_control
       default Str.existsb orb].
  now rewrite has_control_leaves, IH, negb_andb.
Qed.

Lemma read_items_shape (rs : list record) :
  Forall2 (fun r c =>
             ET.etag c = "item"
             /\ ET.echildren c
                = List.map
                    (fun kv => ET.Elem kv.1 (text_of (Minidom.normalize (py_str kv.2))) [])
                    r
             /\ (no_return r = true ->
                 ET.echildren c
                 = List.map (fun kv => ET.Elem kv.1 (text_of (py_str kv.2)) []) r))
    rs (List.map read_item rs).
Proof.
  induction rs as [|r rs IH]; cbn [List.map]; constructor; [|exact IH].
  split; [reflexivity|]. split; [reflexivity|].
  intros Hr. cbn [read_item ET.echildren]. now apply read_leaves_no_return.
Qed.

Section Markup.
Context `{XmlLib}.
Context `{FS : FileSystem}.

(** The markup export of a list of Records whose field names are names:
    the parser refuses a control character, [open] may refuse the name,
    and otherwise the file holds the pretty-printed document. *)
Lemma store_xml_named_records (rs : list record) (filename : string) (w : world) :
  Forall named_fields rs ->
  store_data_as_xml (of_records rs) filename w
  = match Minidom.reparse (XmlShape.records_tree rs), open_w filename with
    | Raise e, _ => (Raise e, w)
    | Ok _, Some e => (Raise e, w)
    | Ok pretty_xml, None =>
        (Ok tt, print (confirmation filename) (write_text filename pretty_xml w))
    end.
Proof.
  intros Hrs.
  destruct (XmlTree.build_tree_records rs) as (h & Hb & Hs).
  unfold store_data_as_xml. rewrite Hb, Hs. unfold write_tree.
  rewrite (reparse_named _ (well_named_records_tree rs Hrs)).
  reflexivity.
Qed.

Lemma store_xml_named_record (r : record) (filename : string) (w : world) :
  named_fields r ->
  store_data_as_xml (PDict r) filename w
  = match Minidom.reparse (XmlShape.record_tree r), open_w filename with
    | Raise e, _ => (Raise e, w)
    | Ok _, Some e => (Raise e, w)
    | Ok pretty_xml, None =>
        (Ok tt, print (confirmation filename) (write_text filename pretty_xml w))
    end.
Proof.
  intros Hr.
  destruct (XmlTree.build_tree_record r) as (h & Hb & Hs).
  unfold store_data_as_xml. rewrite Hb, Hs. unfold write_tree.
  rewrite (reparse_named _ (well_named_record_tree r Hr)).
  reflexivity.
Qed.


End Markup.

Lemma note_return_named : named_fields note_return.
Proof. repeat constructor. Qed.

Lemma note_bell_named : named_fields note_bell.
Proof. repeat constructor. Qed.



Section Claims.
Context `{XmlLib}.

(** *** The shape check of the markup serializer *)

Lemma add_items_dicts (l : list pyval) (root : nat) (h : ET.heap) :
  List.forallb is_dict l = true -> exists h', add_items root l h = Ok h'.
Proof.
  revert h. induction l as [|v l IH]; intros h Hall; [now eexists|].
  simpl in Hall. apply andb_prop in Hall as [Hv Hl].
  destruct v as [x|d|l']; try discriminate Hv.
  cbn [add_items]. destruct (ET.SubElement root "item" h) as [e h1].
  now apply IH.
Qed.

Lemma add_items_non_dict (l : list pyval) (root : nat) (h : ET.heap) :
  List.forallb is_dict l = false -> add_items root l h = Raise AttributeError.
Proof.
  revert h. induction l as [|v l IH]; intros h Hall; [discriminate Hall|].
  simpl in Hall. cbn [add_items]. destruct (ET.SubElement root "item" h) as [e h1].
  destruct v as [x|d|l']; try reflexivity.
  now apply IH.
Qed.

(** What lines 74-88 raise, by the shape of the data: nothing on a
    mapping or a list of mappings, [ValueError] on what is neither a list
    nor a mapping, and [AttributeError] on a list with an item that is no
    mapping. *)
Lemma build_tree_outcome (data : pyval) :
  match data with
  | PScalar _ => build_tree data = Raise ValueError
  | PDict _ => exists t, build_tree data = Ok t
  | PList l =>
      if List.forallb is_dict l then exists t, build_tree data = Ok t
      else build_tree data = Raise AttributeError
  end.
Proof.
  destruct data as [x|d|l]; [reflexivity | now eexists |].
  change (build_tree (PList l))
    with (match add_items 0 l [ET.Node "data" None []] with
          | Ok h' => Ok (0%nat, h')
          | Raise e => Raise e
          end).
  destruct (List.forallb is_dict l) eqn:Hall.
  - destruct (add_items_dicts l 0%nat [ET.Node "data" None []] Hall) as [h' ->].
    now eexists.
  - now rewrite add_items_non_dict.
Qed.

(** C2 (the code departs from it).  A list holding an item that is no
    mapping is neither a mapping nor a list of mappings, yet on [[1]] the
    serializer raises [AttributeError], not the [ValueError] that its
    docstring promises for such data; nothing is written. *)
Theorem C2_non_mapping_item_raises_attribute_error :
  forall (filename : string) (w : world),
    store_data_as_xml (PList [PScalar (SInt 1)]) filename w
    = (Raise AttributeError, w).
Proof. reflexivity. Qed.

(** *** Exporting twice *)

(** C5.  Exporting the same data to the same file a second time leaves
    the same bytes in every file and ends the same way, for either
    serializer: what is written depends on the data alone. *)
Theorem C5_export_twice_same_bytes :
  forall (data : pyval) (filename : string) (w : world),
    (let '(r1, w1) := store_data_as_json data filename w in
     let '(r2, w2) := store_data_as_json data filename w1 in
     r2 = r1 /\ files w2 = files w1
     /\ files w1 !! filename = Some (utf8_encode (Json.dumps data)))
    /\ (let '(r1, w1) := store_data_as_xml data filename w in
        let '(r2, w2) := store_data_as_xml data filename w1 in
        r2 = r1 /\ files w2 = files w1).
Proof.
  intros data filename w. split.
  - unfold store_data_as_json, write_text, print. cbn [files stdout].
    repeat split.
    + apply insert_insert_eq.
    + apply lookup_insert_eq.
  - unfold store_data_as_xml.
    destruct (build_tree data) as [[root h]|e]; [|now split].
    destruct (ET.snapshot h root) as [tree|]; [|now split].
    unfold write_tree.
    destruct (parse_toprettyxml (tostring tree)) as [text|e]; [|now split].
    unfold write_text, print. cbn [files stdout]. split; [reflexivity|].
    apply insert_insert_eq.
Qed.

(** *** The query layer *)

(** A miss on a filtered statement is an empty list of rows. *)
Lemma filter_miss {A : Type} (p : A -> bool) (l : list A) :
  (forall x, In x l -> p x = false) -> List.filter p l = [].
Proof.
  induction l as [|x l IH]; intros Hp; [reflexivity|].
  simpl. rewrite (Hp x (or_introl eq_refl)). apply IH.
  intros y Hy. apply Hp. now right.
Qed.

Lemma get_student_info_miss (db : database) (student_id : scalar) :
  (forall s, In s (Students db) -> sql_eq (s_student_id s) student_id = false) ->
  get_student_info db student_id = None.
Proof.
  intros Hm. unfold get_student_info, select_student_info.
  now rewrite filter_miss.
Qed.

Lemma get_course_name_miss (db : database) (course_code : scalar) :
  (forall c, In c (Courses db) -> sql_eq (c_course_code c) course_code = false) ->
  get_course_name db course_code = Raise TypeError.
Proof.
  intros Hm. unfold get_course_name, select_course_name.
  now rewrite filter_miss.
Qed.

(** C7 (the code departs from it).  The course-name lookup does not
    survive a miss: for a code with no Course row the statement selects no
    row, and subscripting the [None] that [fetchone] returns raises
    [TypeError]. *)
Theorem C7_course_name_miss_raises :
  select_course_name db_two_codes (SStr "C2") = []
  /\ get_course_name db_two_codes (SStr "C2") = Raise TypeError.
Proof. split; reflexivity. Qed.

(** C10 (the code departs from it).  On a selected row whose student and
    course are both missing, neither listing omits the row in silence:
    the course name is fetched before the student is checked, and the
    fetch raises [TypeError].  The defect is that of C7. *)
Theorem C10_dangling_row_raises :
  forall (inputs : list string) (w : world),
    fst (fst (list_students_not_completed db_dangling inputs w)) = Raise TypeError
    /\ fst (fst (list_students_with_low_marks db_dangling inputs w)) = Raise TypeError.
Proof. intros inputs w. split; reflexivity. Qed.

(** What the listings do by design, when every course code resolves: a
    row whose student is missing changes neither the data nor the
    terminal, and the Records are those of the rows with a student. *)
Lemma incomplete_loop_skip (db : database) (student_id course_code name : scalar)
  (rest : list (scalar * scalar)) (count : Z) (acc : list record) (w : world) :
  get_student_info db student_id = None ->
  get_course_name db course_code = Ok name ->
  incomplete_loop db ((student_id, course_code) :: rest) count acc w
  = incomplete_loop db rest (count + 1) acc w.
Proof. intros Hs Hc. cbn [incomplete_loop]. now rewrite Hs, Hc. Qed.

Lemma low_loop_skip (db : database) (student_id course_code mark name : scalar)
  (rest : list (scalar * scalar * scalar)) (count : Z) (acc : list record)
  (w : world) :
  get_student_info db student_id = None ->
  get_course_name db course_code = Ok name ->
  low_loop db ((student_id, course_code, mark) :: rest) count acc w
  = low_loop db rest (count + 1) acc w.
Proof. intros Hs Hc. cbn [low_loop]. now rewrite Hs, Hc. Qed.

Lemma incomplete_loop_records (db : database) (rows : list (scalar * scalar)) :
  forall (count : Z) (acc : list record) (w : world),
    Forall (fun row => select_course_name db row.2 <> []) rows ->
    fst (incomplete_loop db rows count acc w)
    = Ok (acc ++ incomplete_records db rows).
Proof.
  induction rows as [|[sid code] rows IH]; intros count acc w Hres.
  - simpl. now rewrite app_nil_r.
  - apply Forall_cons in Hres as [Hc Hres]. cbn [incomplete_loop].
    unfold incomplete_records. cbn [List.flat_map fst snd].
    unfold get_course_name. cbn [fst snd] in Hc.
    destruct (select_course_name db code) as [|name names]; [contradiction|].
    cbn [fetchone List.head].
    destruct (get_student_info db sid) as [info|].
    + rewrite IH by assumption. now rewrite <- app_assoc.
    + now rewrite IH by assumption.
Qed.

(** *** The two-step lookup *)

Lemma filter_or_miss {A : Type} (p q : A -> bool) (l : list A) :
  List.filter q l = [] ->
  List.filter (fun x => (p x || (q x || false))%bool) l = List.filter p l.
Proof.
  induction l as [|x l IH]; intros Hq; [reflexivity|].
  simpl in *. destruct (q x); [discriminate Hq|].
  rewrite orb_false_r. destruct (p x); now rewrite IH.
Qed.

Lemma sql_in_has_course (db : database) (c : Course) (codes : list scalar) :
  In c (Courses db) ->
  sql_in (c_course_code c) (List.filter (has_course db) codes)
  = sql_in (c_course_code c) codes.
Proof.
  intros Hc. unfold sql_in.
  induction codes as [|a codes IH]; [reflexivity|].
  cbn [List.filter List.existsb].
  destruct (sql_eq (c_course_code c) a) eqn:Ha.
  - assert (Hh : has_course db a = true).
    { apply existsb_exists. now exists c. }
    rewrite Hh. cbn [List.existsb]. now rewrite Ha.
  - destruct (has_course db a); [cbn [List.existsb]; rewrite Ha|]; exact IH.
Qed.



(** *** The extension dispatch *)

Lemma split_nonempty (c : ascii) (s : string) : Str.split c s <> [].
Proof.
  destruct s as [|a s]; [discriminate|]. simpl.
  destruct (Ch.eqb a c); [discriminate|].
  destruct (Str.split c s); discriminate.
Qed.

Lemma last_cons_nonempty {A : Type} (x d : A) (l : list A) :
  l <> [] -> List.last (x :: l) d = List.last l d.
Proof. destruct l; [contradiction | reflexivity]. Qed.

Lemma split_no_separator (c : ascii) (s : string) :
  Str.contains c s = false -> Str.split c s = [s].
Proof.
  induction s as [|a s IH]; [reflexivity|].
  unfold Str.contains. simpl. intros Hn.
  apply orb_false_elim in Hn as [Ha Hs].
  assert (Hac : Ch.eqb a c = false).
  { unfold Ch.eqb in *. now rewrite N.eqb_sym. }
  rewrite Hac, (IH Hs). reflexivity.
Qed.

(** A text that holds the separator splits in two pieces at least. *)
Lemma split_two (c : ascii) (base ext : string) :
  exists p q qs, Str.split c (base +:+ String c ext) = p :: q :: qs.
Proof.
  assert (Hcc : Ch.eqb c c = true) by apply N.eqb_refl.
  induction base as [|a base (p & q & qs & IH)].
  - cbn [String.append Str.split]. rewrite Hcc.
    pose proof (split_nonempty c ext) as Hne.
    destruct (Str.split c ext) as [|q qs]; [contradiction|]. now eexists _, _, _.
  - cbn [String.append Str.split]. rewrite IH.
    destruct (Ch.eqb a c); now eexists _, _, _.
Qed.

(** The last piece of a split is what follows the last separator. *)
Lemma last_split_app (c : ascii) (base ext : string) :
  Str.contains c ext = false ->
  Str.last (Str.split c (base +:+ String c ext)) = ext.
Proof.
  intros Hext. unfold Str.last. induction base as [|a base IH].
  - cbn [String.append Str.split].
    assert (Hcc : Ch.eqb c c = true) by apply N.eqb_refl.
    rewrite Hcc, last_cons_nonempty by apply split_nonempty.
    now rewrite split_no_separator.
  - cbn [String.append Str.split]. destruct (Ch.eqb a c).
    + now rewrite last_cons_nonempty by apply split_nonempty.
    + destruct (split_two c base ext) as (p & q & qs & E).
      rewrite E in *. exact IH.
Qed.

Lemma contains_app (c : ascii) (base ext : string) :
  Str.contains c (base +:+ String c ext) = true.
Proof.
  unfold Str.contains. induction base as [|a base IH]; cbn [String.append Str.existsb].
  - assert (Hcc : Ch.eqb c c = true) by apply N.eqb_refl. now rewrite Hcc.
  - rewrite IH. apply orb_true_r.
Qed.

Lemma first_split_empty (c x : ascii) (s : string) :
  Str.is_empty (Str.first (Str.split c (String x s))) = Ch.eqb x c.
Proof.
  cbn [Str.split]. destruct (Ch.eqb x c); [reflexivity|].
  now destruct (Str.split c s).
Qed.

Lemma classify_guard (filename : string) :
  classify filename
  = if no_base_name filename then BadName
    else target_by_extension (extension filename).
Proof. reflexivity. Qed.

Lemma classify_by_extension (x : ascii) (base ext : string) :
  Ch.eqb x Ch.dot = false ->
  Str.contains Ch.dot ext = false ->
  classify (String x base +:+ String Ch.dot ext) = target_by_extension ext.
Proof.
  intros Hx Hext. rewrite classify_guard. unfold no_base_name, extension.
  rewrite contains_app, last_split_app by assumption.
  cbn [String.append]. rewrite first_split_empty, Hx. reflexivity.
Qed.

(** C3, as stated, fails: a name that starts with its only dot has the
    extension [json] and is turned away by the guard. *)
Lemma C3_counterexample :
  ~ (forall filename : string,
        classify filename = target_by_extension (extension filename)).
Proof. intros Hall. specialize (Hall ".json"). discriminate Hall. Qed.

(** C3, amended.  A name with a base that does not start with a dot is
    dispatched by the text after its last dot, whatever its case: [xml]
    goes to the markup serializer, [json] to the other one, and anything
    else is turned away with a message and a new prompt, no file written.
    A name that is empty, holds no dot or starts with one is turned away
    the same way, whatever follows its last dot. *)
Theorem C3_extension_dispatch :
  forall (data : pyval) (line : string) (rest : list string) (w : world),
    let filename := Str.strip line in
    let w0 := print msg_filename w in
    (forall (x : ascii) (base ext : string),
        filename = String x base +:+ String Ch.dot ext ->
        Ch.eqb x Ch.dot = false ->
        Str.contains Ch.dot ext = false ->
        classify filename = target_by_extension ext
        /\ match target_by_extension ext with
           | ToJson =>
               offer_loop data AskFilename (line :: rest) w
               = (Ok tt, rest, snd (store_data_as_json data filename w0))
           | ToXml =>
               offer_loop data AskFilename (line :: rest) w
               = match store_data_as_xml data filename w0 with
                 | (Ok _, w') => (Ok tt, rest, w')
                 | (Raise ValueError, w') =>
                     offer_loop data AskChoice rest (print msg_bad_input w')
                 | (Raise e, w') => (Raise e, rest, w')
                 end
           | BadExtension | BadName =>
               offer_loop data AskFilename (line :: rest) w
               = offer_loop data AskFilename rest (print msg_bad_ext w0)
               /\ files (print msg_bad_ext w0) = files w
           end)
    /\ (no_base_name filename = true ->
        offer_loop data AskFilename (line :: rest) w
        = offer_loop data AskFilename rest (print msg_bad_name w0)
        /\ files (print msg_bad_name w0) = files w).
Proof.
  intros data line rest w filename w0. split.
  - intros x base ext Hname Hx Hext.
    assert (Hc : classify filename = target_by_extension ext).
    { rewrite Hname. now apply classify_by_extension. }
    split; [exact Hc|].
    cbn [offer_loop]. fold filename. fold w0. rewrite Hc.
    unfold target_by_extension.
    destruct (Str.eqb (Str.lower ext) "xml"); [reflexivity|].
    destruct (Str.eqb (Str.lower ext) "json"); [reflexivity|].
    now split.
  - intros Hg. cbn [offer_loop]. fold filename. fold w0.
    rewrite classify_guard, Hg. now split.
Qed.

(** *** The bytes of a JSON file *)

(** An ASCII text is its own encoding. *)
Lemma utf8_encode_ascii (s : string) :
  Str.forallb is_ascii s = true -> utf8_encode s = list_ascii_of_string s.
Proof.
  induction s as [|c s IH]; [reflexivity|].
  cbn [Str.forallb utf8_encode list_ascii_of_string]. intros Hs.
  apply andb_prop in Hs as [Hc Hs]. unfold utf8_char.
  unfold is_ascii in Hc. rewrite Hc. cbn [app]. now rewrite IH.
Qed.

Lemma escape_char_ascii (c : ascii) :
  Str.forallb is_ascii (Json.escape_char c) = true.
Proof. destruct c as [[] [] [] [] [] [] [] []]; reflexivity. Qed.

Lemma escape_ascii (s : string) : Str.forallb is_ascii (Json.escape s) = true.
Proof.
  induction s as [|c s IH]; [reflexivity|].
  cbn [Json.escape]. now rewrite forallb_app_s, escape_char_ascii, IH.
Qed.

Lemma string_of_uint_ascii (d : uint) :
  Str.forallb is_ascii (string_of_uint d) = true.
Proof. induction d; [reflexivity | ..]; cbn [string_of_uint Str.forallb]; now rewrite IHd. Qed.

Lemma repr_int_ascii (z : Z) : Str.forallb is_ascii (repr_int z) = true.
Proof.
  unfold repr_int. destruct (Z.to_int z); cbn [Str.forallb];
    now rewrite string_of_uint_ascii.
Qed.

Lemma encode_string_ascii (s : string) :
  Str.forallb is_ascii (Json.encode_basestring_ascii s) = true.
Proof.
  unfold Json.encode_basestring_ascii. cbn [Str.forallb].
  now rewrite forallb_app_s, escape_ascii.
Qed.

Lemma encode_scalar_ascii (v : scalar) :
  Str.forallb is_ascii (Json.encode_scalar v) = true.
Proof.
  destruct v as [|n|s|x];
    [reflexivity | apply repr_int_ascii | apply encode_string_ascii |].
  cbn [Json.encode_scalar]. unfold repr_real. rewrite !forallb_app_s.
  cbn [Str.forallb]. rewrite !string_of_uint_ascii.
  now destruct (real_negative x).
Qed.

Lemma encode_item_ascii (kv : string * scalar) :
  Str.forallb is_ascii (Json.encode_item kv) = true.
Proof.
  unfold Json.encode_item.
  now rewrite !forallb_app_s, encode_string_ascii, encode_scalar_ascii.
Qed.

Lemma layout_tail (r : record) :
  Str.concat (List.map (String.append (Json.item_separator "    " 1))
                (List.map Json.encode_item r))
  = Str.concat (List.map (String.append comma_newline) (List.map field_line r)).
Proof.
  induction r as [|kv r IH]; [reflexivity|].
  cbn [List.map Str.concat]. now rewrite IH.
Qed.

Lemma dumps_layout (r : record) : Json.dumps (PDict r) = layout r.
Proof.
  destruct r as [|kv r]; [reflexivity|].
  unfold Json.dumps, layout. cbn [Json.iterencode Json.iterencode_dict List.map].
  rewrite !join_cons, layout_tail.
  unfold Json.newline_indent, field_line. cbn [Str.repeat String.append].
  now rewrite !app_assoc_s.
Qed.

Lemma join_ascii (sep : string) (l : list string) :
  Str.forallb is_ascii sep = true ->
  Forall (fun x => Str.forallb is_ascii x = true) l ->
  Str.forallb is_ascii (Str.join sep l) = true.
Proof.
  intros Hsep Hl. induction Hl as [|x l Hx Hl IH]; [reflexivity|].
  destruct l as [|y l]; [exact Hx|].
  change (Str.join sep (x :: y :: l)) with (x +:+ sep +:+ Str.join sep (y :: l)).
  now rewrite !forallb_app_s, Hx, Hsep, IH.
Qed.

Lemma dumps_record_ascii (r : record) :
  Str.forallb is_ascii (Json.dumps (PDict r)) = true.
Proof.
  rewrite dumps_layout. destruct r as [|kv r]; [reflexivity|].
  unfold layout. cbn [Str.forallb].
  rewrite forallb_app_s, join_ascii; [reflexivity | reflexivity |].
  apply Forall_forall. intros x Hx.
  apply list_elem_of_In, in_map_iff in Hx as (kv' & <- & _).
  unfold field_line. cbn [String.append Str.forallb].
  apply encode_item_ascii.
Qed.

(** C6.  After a Record with distinct field names is exported as JSON,
    the file holds the UTF-8 encoding of a text that is laid out with one
    field per line behind four spaces, and reading and decoding the file
    gives the Record back, field order included.  So it is for the
    address of the end-to-end scenario written to [out.json]. *)
Theorem C6_json_file_parses_back :
  forall (r : record) (filename : string) (w : world),
    NoDup (List.map fst r) ->
    let w' := snd (store_data_as_json (PDict r) filename w) in
    files w' !! filename = Some (utf8_encode (layout r))
    /\ utf8_encode (layout r) = list_ascii_of_string (layout r)
    /\ (text ← read_text filename w'; JsonDecoder.loads text) = Some (PDict r).
Proof.
  intros r filename w Hnd w'.
  assert (Hf : files w' !! filename = Some (utf8_encode (layout r))).
  { subst w'. unfold store_data_as_json, write_text, print. cbn [snd files].
    rewrite dumps_layout. apply lookup_insert_eq. }
  split; [exact Hf|]. split.
  - apply utf8_encode_ascii. rewrite <- dumps_layout. apply dumps_record_ascii.
  - unfold read_text. rewrite Hf. cbn [mbind option_bind].
    rewrite utf8_decode_encode. cbn [mbind option_bind].
    rewrite <- dumps_layout. now apply RoundTrip.loads_dumps_record.
Qed.
End Claims.

(** * Concrete runs *)

Lemma address_data_keys : NoDup (List.map fst address_data).
Proof.
  repeat (apply NoDup_cons_2 || apply NoDup_nil_2);
    rewrite ?elem_of_cons, elem_of_nil; intros Hin;
    repeat destruct Hin as [Hin|Hin]; try discriminate Hin; exact Hin.
Qed.

Lemma two_records_named : Forall named_fields [address_data; []].
Proof. repeat constructor. Qed.

Lemma address_data_named : named_fields address_data.
Proof. repeat constructor. Qed.


Lemma C3_extension_dispatch_witness :
  classify (Str.strip "  report.JSON ") = ToJson.
Proof.
  exact (proj1 (proj1 (C3_extension_dispatch (H := plain_xml) (PDict address_data)
                         "  report.JSON " [] empty_world)
                  "r"%char "eport" "JSON" eq_refl eq_refl eq_refl)).
Defined.


Lemma C6_json_file_parses_back_witness :
  (text ← read_text "out.json"
            (snd (store_data_as_json (PDict address_data) "out.json" empty_world));
   JsonDecoder.loads text)
  = Some (PDict address_data).
Proof.
  exact (proj2 (proj2 (C6_json_file_parses_back address_data "out.json" empty_world
                         address_data_keys))).
Defined.


(** * More of the program *)

(** ** What the serializers leave alone *)

Lemma files_print (s : string) (w : world) : files (print s w) = files w.
Proof. reflexivity. Qed.

Lemma prints_print (lines : list string) (s : string) (w : world) :
  prints (lines ++ [s]) w = print s (prints lines w).
Proof. unfold prints, print. cbn [files stdout]. now rewrite app_assoc. Qed.

Lemma prints_prints (l1 l2 : list string) (w : world) :
  prints l2 (prints l1 w) = prints (l1 ++ l2) w.
Proof. unfold prints. cbn [files stdout]. now rewrite app_assoc. Qed.

Lemma prints_nil (w : world) : prints [] w = w.
Proof. destruct w. unfold prints. cbn. now rewrite app_nil_r. Qed.

(** Two worlds with the same files and, up to the bracketing of the
    appends, the same output. *)
Ltac same_world :=
  unfold prints, print; cbn [files stdout];
  repeat rewrite <- app_assoc; cbn [app]; reflexivity.

Section Coverage.
Context `{XmlLib}.
Context `{FS : FileSystem}.

Lemma store_json_other (data : pyval) (filename other : string) (w : world) :
  other <> filename ->
  files (store_data_as_json data filename w).2 !! other = files w !! other.
Proof.
  intros Hne. unfold store_data_as_json.
  destruct (open_w filename); [reflexivity|].
  unfold write_text, print. cbn [snd files].
  now apply lookup_insert_ne.
Qed.

Lemma store_json_raise (data : pyval) (filename : string) (w w' : world) (e : exn) :
  store_data_as_json data filename w = (Raise e, w') -> w' = w.
Proof.
  unfold store_data_as_json.
  destruct (open_w filename); [now intros [= _ <-] | discriminate].
Qed.
Variable upper : string -> string.
Variable capitalize : string -> string.

Lemma write_tree_other (tree : ET.element) (filename other : string) (w : world) :
  other <> filename ->
  files (write_tree tree filename w).2 !! other = files w !! other.
Proof.
  intros Hne. unfold write_tree.
  destruct (parse_toprettyxml (tostring tree)) as [text|e]; [|reflexivity].
  destruct (open_w filename); [reflexivity|].
  unfold write_text, print. cbn [snd files]. now apply lookup_insert_ne.
Qed.

Lemma store_xml_other (data : pyval) (filename other : string) (w : world) :
  other <> filename ->
  files (store_data_as_xml data filename w).2 !! other = files w !! other.
Proof.
  intros Hne. unfold store_data_as_xml.
  destruct (build_tree data) as [[root h]|e]; [|reflexivity].
  destruct (ET.snapshot h root) as [tree|]; [|reflexivity].
  now apply write_tree_other.
Qed.

Lemma store_xml_raise (data : pyval) (filename : string) (w w' : world) (e : exn) :
  store_data_as_xml data filename w = (Raise e, w') -> w' = w.
Proof.
  unfold store_data_as_xml, write_tree.
  destruct (build_tree data) as [[root h]|e1]; [|now intros [= _ <-]].
  destruct (ET.snapshot h root) as [tree|]; [|now intros [= _ <-]].
  destruct (parse_toprettyxml (tostring tree)) as [text|e2]; [|now intros [= _ <-]].
  destruct (open_w filename); [now intros [= _ <-] | discriminate].
Qed.


(** X2.  An export replaces what an earlier export left in the file:
    after two exports to one name the files are as after the second
    alone. *)
Theorem X2_export_overwrites :
  forall (d1 d2 : pyval) (filename : string) (w : world),
    files (store_data_as_json d2 filename (store_data_as_json d1 filename w).2).2
    = files (store_data_as_json d2 filename w).2
    /\ (forall w1 w2,
           store_data_as_xml d1 filename w = (Ok tt, w1) ->
           store_data_as_xml d2 filename w1 = (Ok tt, w2) ->
           files w2 = files (store_data_as_xml d2 filename w).2).
Proof.
  intros d1 d2 filename w. split.
  - unfold store_data_as_json.
    destruct (open_w filename); [reflexivity|].
    unfold write_text, print. cbn [snd files].
    apply insert_insert_eq.
  - unfold store_data_as_xml, write_tree.
    destruct (build_tree d1) as [[root1 h1]|e1]; [|discriminate].
    destruct (ET.snapshot h1 root1) as [tree1|]; [|discriminate].
    destruct (parse_toprettyxml (tostring tree1)) as [text1|e1]; [|discriminate].
    destruct (build_tree d2) as [[root2 h2]|e2]; [|discriminate].
    destruct (ET.snapshot h2 root2) as [tree2|]; [|discriminate].
    destruct (parse_toprettyxml (tostring tree2)) as [text2|e2]; [|discriminate].
    destruct (open_w filename); [discriminate|].
    intros w1 w2 [= <-] [= <-].
    unfold write_text, print. cbn [snd files]. apply insert_insert_eq.
Qed.

(** ** What the export prompt leaves alone *)

Lemma tame_cons {A : Type} (line : string) (rest : list string) (w w1 : world)
  (out : A * list string * world) :
  (forall name, Str.strip line <> name -> files w1 !! name = files w !! name) ->
  tame rest w1 out -> tame (line :: rest) w out.
Proof.
  intros Hw [Hsuf Hkeep]. split.
  - now apply suffix_cons_r.
  - intros name Hname. rewrite Hkeep.
    + apply Hw. intros Heq. apply Hname. now left.
    + intros Hin. apply Hname. now right.
Qed.

Lemma tame_stop {A : Type} (a : A) (line : string) (rest : list string)
  (w w' : world) :
  (forall name, Str.strip line <> name -> files w' !! name = files w !! name) ->
  tame (line :: rest) w (a, rest, w').
Proof.
  intros Hw. split.
  - apply suffix_cons_r. reflexivity.
  - intros name Hname. apply Hw. intros Heq. apply Hname. now left.
Qed.

Lemma tame_nil {A : Type} (a : A) (w w' : world) :
  files w' = files w -> tame [] w (a, [], w').
Proof. intros Hw. split; [reflexivity|]. intros name _. cbn [snd]. now rewrite Hw. Qed.

Lemma offer_loop_tame (data : pyval) (inputs : list string) :
  forall (p : prompt) (w : world), tame inputs w (offer_loop data p inputs w).
Proof.
  induction inputs as [|line rest IH]; intros p w.
  - destruct p; now apply tame_nil.
  - destruct p; cbn [offer_loop].
    + destruct (py_int line) as [z|].
      * destruct z as [|[q|[q|q|]|]|q];
          first [ now apply tame_stop
                | eapply tame_cons; [|apply IH]; intros; reflexivity ].
      * eapply tame_cons; [|apply IH]; intros; reflexivity.
    + destruct (classify (Str.strip line)).
      * eapply tame_cons; [|apply IH]; intros; reflexivity.
      * destruct (store_data_as_xml data (Str.strip line) (print msg_filename w))
          as [[u|e] w'] eqn:E.
        -- apply tame_stop. intros name Hne.
           change w' with (Ok u, w').2. rewrite <- E.
           rewrite store_xml_other by congruence. reflexivity.
        -- apply store_xml_raise in E as ->.
           destruct e; first [ now apply tame_stop
                             | eapply tame_cons; [|apply IH]; intros; reflexivity ].
      * destruct (store_data_as_json data (Str.strip line) (print msg_filename w))
          as [[u|e] w'] eqn:E.
        -- apply tame_stop. intros name Hne.
           change w' with (Ok u, w').2. rewrite <- E.
           rewrite store_json_other by congruence. reflexivity.
        -- apply store_json_raise in E as ->.
           destruct e; first [ now apply tame_stop
                             | eapply tame_cons; [|apply IH]; intros; reflexivity ].
      * eapply tame_cons; [|apply IH]; intros; reflexivity.
Qed.

(** X3.  Whatever is typed at the export prompt, it leaves a tail of the
    input unread and writes no file but those that a line of the input
    names. *)
Theorem X3_offer_to_store_writes_named_files_only :
  forall (data : pyval) (inputs : list string) (w : world) (name : string),
    ~ names_file inputs name ->
    let out := offer_to_store data inputs w in
    files out.2 !! name = files w !! name /\ suffix out.1.2 inputs.
Proof.
  intros data inputs w name Hname out.
  destruct (offer_loop_tame data inputs AskChoice w) as [Hsuf Hkeep].
  split; [now apply Hkeep | exact Hsuf].
Qed.

(** ** The first question of the export prompt *)

Lemma offer_loop_wrong_answer (data : pyval) (line : string)
  (rest : list string) (w : world) :
  py_int line <> Some 1 -> py_int line <> Some 2 ->
  exists w1, offer_loop data AskChoice (line :: rest) w
             = offer_loop data AskChoice rest w1
             /\ files w1 = files w
             /\ stdout w1 = stdout w ++ wrong_answer_lines line.
Proof.
  intros H1 H2. cbn [offer_loop]. unfold wrong_answer_lines.
  destruct (py_int line) as [z|].
  - destruct z as [|[q|[q|q|]|]|q]; try congruence;
      (eexists; split; [reflexivity|]; split; [reflexivity|];
       cbn [print stdout]; now rewrite <- !app_assoc).
  - eexists; split; [reflexivity|]; split; [reflexivity|].
    cbn [print stdout]. now rewrite <- !app_assoc.
Qed.

(** X4.  The first question is asked again after every answer that is
    neither 1 nor 2, with the complaint that fits the answer, and the
    answer 2 ends the prompt: nothing is written, and the lines after
    that answer are left unread. *)
Theorem X4_prompt_repeats_until_answered :
  forall (data : pyval) (wrong : list string) (line : string)
    (rest : list string) (w : world),
    Forall (fun l => py_int l <> Some 1 /\ py_int l <> Some 2) wrong ->
    py_int line = Some 2 ->
    exists w',
      offer_to_store data (wrong ++ line :: rest) w = (Ok tt, rest, w')
      /\ files w' = files w
      /\ stdout w'
         = stdout w ++ List.concat (List.map wrong_answer_lines wrong)
           ++ [msg_save; msg_choice; msg_no_file].
Proof.
  intros data wrong line rest w Hwrong Hline. unfold offer_to_store.
  revert w. induction Hwrong as [|l wrong [H1 H2] _ IH]; intros w.
  - cbn [app offer_loop List.map List.concat]. rewrite Hline.
    eexists. split; [reflexivity|]. split; [reflexivity|].
    cbn [print stdout]. now rewrite <- !app_assoc.
  - cbn [app]. destruct (offer_loop_wrong_answer data l (wrong ++ line :: rest) w H1 H2)
      as (w1 & -> & Hf & Ho).
    destruct (IH w1) as (w' & -> & Hf' & Ho').
    exists w'. split; [reflexivity|]. split; [congruence|].
    rewrite Ho', Ho. cbn [List.map List.concat]. now rewrite <- !app_assoc.
Qed.

(** ** Shape violations at the export prompt *)

(** X5.  When the markup format is chosen for data that is neither a list
    nor a mapping, the [ValueError] of the serializer is caught by the
    prompt and reported as an invalid number, and the first question is
    asked again; for a list with an item that is no mapping the
    [AttributeError] leaves the prompt.  Nothing is written either way. *)
Theorem X5_shape_errors_at_the_prompt :
  forall (line : string) (rest : list string) (w : world),
    classify (Str.strip line) = ToXml ->
    (forall v : scalar,
        offer_loop (PScalar v) AskFilename (line :: rest) w
        = offer_loop (PScalar v) AskChoice rest
            (print msg_bad_input (print msg_filename w)))
    /\ (forall l : list pyval,
           List.forallb is_dict l = false ->
           offer_loop (PList l) AskFilename (line :: rest) w
           = (Raise AttributeError, rest, print msg_filename w)).
Proof.
  intros line rest w Hc. split.
  - intros v. cbn [offer_loop]. now rewrite Hc.
  - intros l Hl. cbn [offer_loop]. rewrite Hc.
    unfold store_data_as_xml.
    pose proof (build_tree_outcome (PList l)) as Hb. cbv beta iota in Hb.
    rewrite Hl in Hb. now rewrite Hb.
Qed.

(** ** The two listings over the enrollment table *)

Lemma incomplete_record_fields (sid code name : scalar)
  (info : scalar * scalar * scalar) :
  List.map fst (incomplete_record sid code info name) = incomplete_fields.
Proof. now destruct info as [[a b] c]. Qed.

Lemma low_record_fields (sid code mark name : scalar)
  (info : scalar * scalar * scalar) :
  List.map fst (low_record sid code mark info name) = low_fields.
Proof. now destruct info as [[a b] c]. Qed.

Lemma incomplete_loop_schema (db : database) (rows : list (scalar * scalar)) :
  forall (count : Z) (acc data : list record) (w w' : world),
    incomplete_loop db rows count acc w = (Ok data, w') ->
    Forall (fun r => List.map fst r = incomplete_fields) acc ->
    Forall (fun r => List.map fst r = incomplete_fields) data
    /\ (length data <= length acc + length rows)%nat.
Proof.
  induction rows as [|[sid code] rows IH]; intros count acc data w w' Hrun Hacc.
  - injection Hrun as <- _. split; [assumption | simpl; lia].
  - cbn [incomplete_loop] in Hrun.
    destruct (get_course_name db code) as [name|e]; [|discriminate Hrun].
    destruct (get_student_info db sid) as [info|].
    + apply IH in Hrun as [Hall Hlen].
      * split; [assumption|]. rewrite length_app in Hlen. simpl in *. lia.
      * apply Forall_app. split; [assumption|].
        constructor; [apply incomplete_record_fields | constructor].
    + apply IH in Hrun as [Hall Hlen]; [|assumption].
      split; [assumption | simpl; lia].
Qed.

Lemma low_loop_schema (db : database) (rows : list (scalar * scalar * scalar)) :
  forall (count : Z) (acc data : list record) (w w' : world),
    low_loop db rows count acc w = (Ok data, w') ->
    Forall (fun r => List.map fst r = low_fields) acc ->
    Forall (fun r => List.map fst r = low_fields) data
    /\ (length data <= length acc + length rows)%nat.
Proof.
  induction rows as [|[[sid code] mark] rows IH]; intros count acc data w w' Hrun Hacc.
  - injection Hrun as <- _. split; [assumption | simpl; lia].
  - cbn [low_loop] in Hrun.
    destruct (get_course_name db code) as [name|e]; [|discriminate Hrun].
    destruct (get_student_info db sid) as [info|].
    + apply IH in Hrun as [Hall Hlen].
      * split; [assumption|]. rewrite length_app in Hlen. simpl in *. lia.
      * apply Forall_app. split; [assumption|].
        constructor; [apply low_record_fields | constructor].
    + apply IH in Hrun as [Hall Hlen]; [|assumption].
      split; [assumption | simpl; lia].
Qed.

(** X6.  When the loop of either listing ends without raising, every
    Record it collected carries the same field names in the same order
    (the six of the incomplete listing, and the mark as a seventh in the
    low-marks listing), and there are no more Records than selected
    rows. *)
Theorem X6_listing_records_share_their_fields :
  forall (db : database) (w w' : world) (data : list record),
    (incomplete_loop db (select_incomplete db) 1 [] w = (Ok data, w') ->
     Forall (fun r => List.map fst r = incomplete_fields) data
     /\ (length data <= length (select_incomplete db))%nat)
    /\ (low_loop db (select_low_marks db) 1 [] w = (Ok data, w') ->
        Forall (fun r => List.map fst r = low_fields) data
        /\ (length data <= length (select_low_marks db))%nat).
Proof.
  intros db w w' data. split; intros Hrun.
  - now apply (incomplete_loop_schema db _ 1 [] data w w' Hrun).
  - now apply (low_loop_schema db _ 1 [] data w w' Hrun).
Qed.

Lemma incomplete_loop_resolved (db : database) (rows : list (scalar * scalar)) :
  forall (count : Z) (acc : list record) (w : world),
    Forall (fun row => select_course_name db row.2 <> []) rows ->
    exists w',
      incomplete_loop db rows count acc w
      = (Ok (acc ++ incomplete_records db rows), w')
      /\ files w' = files w
      /\ length (stdout w')
         = (length (stdout w) + length (incomplete_records db rows))%nat.
Proof.
  induction rows as [|[sid code] rows IH]; intros count acc w Hres.
  - exists w. cbn. rewrite app_nil_r. repeat split. lia.
  - apply Forall_cons in Hres as [Hc Hres]. cbn [incomplete_loop].
    unfold incomplete_records. cbn [List.flat_map fst snd].
    fold (incomplete_records db rows).
    unfold get_course_name. cbn [fst snd] in Hc.
    destruct (select_course_name db code) as [|name names]; [contradiction|].
    cbn [fetchone List.head].
    destruct (get_student_info db sid) as [info|].
    + destruct (IH (count + 1)
                  (acc ++ [incomplete_record sid code info name])
                  (print (incomplete_line count sid info name) w) Hres)
        as (w' & -> & Hf & Ho).
      exists w'. rewrite <- app_assoc. split; [reflexivity|]. split; [exact Hf|].
      rewrite Ho. cbn [print stdout]. rewrite !length_app. simpl. lia.
    + destruct (IH (count + 1) acc w Hres) as (w' & -> & Hf & Ho).
      exists w'. now repeat split.
Qed.

Lemma low_loop_resolved (db : database) (rows : list (scalar * scalar * scalar)) :
  forall (count : Z) (acc : list record) (w : world),
    Forall (fun row => select_course_name db row.1.2 <> []) rows ->
    exists w',
      low_loop db rows count acc w = (Ok (acc ++ low_records db rows), w')
      /\ files w' = files w
      /\ length (stdout w')
         = (length (stdout w) + length (low_records db rows))%nat.
Proof.
  induction rows as [|[[sid code] mark] rows IH]; intros count acc w Hres.
  - exists w. cbn. rewrite app_nil_r. repeat split. lia.
  - apply Forall_cons in Hres as [Hc Hres]. cbn [low_loop].
    unfold low_records. cbn [List.flat_map fst snd].
    fold (low_records db rows).
    unfold get_course_name. cbn [fst snd] in Hc.
    destruct (select_course_name db code) as [|name names]; [contradiction|].
    cbn [fetchone List.head].
    destruct (get_student_info db sid) as [info|].
    + destruct (IH (count + 1)
                  (acc ++ [low_record sid code mark info name])
                  (print (low_line count sid mark info name) w) Hres)
        as (w' & -> & Hf & Ho).
      exists w'. rewrite <- app_assoc. split; [reflexivity|]. split; [exact Hf|].
      rewrite Ho. cbn [print stdout]. rewrite !length_app. simpl. lia.
    + destruct (IH (count + 1) acc w Hres) as (w' & -> & Hf & Ho).
      exists w'. now repeat split.
Qed.

(** X7.  When every selected row names a course that exists, either
    listing reaches the export prompt without raising, offers the Records
    of the rows that have a student, in the order of the table, and has
    displayed one line per Record under its heading. *)
Theorem X7_listings_offer_rows_with_a_student :
  forall (db : database) (inputs : list string) (w : world),
    (select_incomplete db <> [] ->
     Forall (fun row => select_course_name db row.2 <> []) (select_incomplete db) ->
     exists w',
       list_students_not_completed db inputs w
       = offer_to_store (of_records (incomplete_records db (select_incomplete db)))
           inputs w'
       /\ files w' = files w
       /\ length (stdout w')
          = S (length (stdout w)
               + length (incomplete_records db (select_incomplete db))))
    /\ (select_low_marks db <> [] ->
        Forall (fun row => select_course_name db row.1.2 <> []) (select_low_marks db) ->
        exists w',
          list_students_with_low_marks db inputs w
          = offer_to_store (of_records (low_records db (select_low_marks db)))
              inputs w'
          /\ files w' = files w
          /\ length (stdout w')
             = S (length (stdout w)
                  + length (low_records db (select_low_marks db)))).
Proof.
  intros db inputs w. split; intros Hne Hres.
  - unfold list_students_not_completed, fetchall.
    destruct (select_incomplete db) as [|row rows] eqn:Hrows; [contradiction|].
    destruct (incomplete_loop_resolved db (row :: rows) 1 []
                (print (nl (bold "Students who have not completed their courses:")
                        +:+ String Ch.newline EmptyString) w) Hres)
      as (w' & -> & Hf & Ho).
    exists w'. split; [reflexivity|]. split; [exact Hf|].
    rewrite Ho. cbn [print stdout]. rewrite length_app. simpl. lia.
  - unfold list_students_with_low_marks, fetchall.
    destruct (select_low_marks db) as [|row rows] eqn:Hrows; [contradiction|].
    destruct (low_loop_resolved db (row :: rows) 1 []
                (print (nl (bold "Students who have a mark below 30:")
                        +:+ String Ch.newline EmptyString) w) Hres)
      as (w' & -> & Hf & Ho).
    exists w'. split; [reflexivity|]. split; [exact Hf|].
    rewrite Ho. cbn [print stdout]. rewrite length_app. simpl. lia.
Qed.

(** ** What the operations of the menu leave alone *)

Lemma files_fold {B : Type} (f : world -> B -> world) (l : list B) (w : world) :
  (forall w b, files (f w b) = files w) ->
  files (List.fold_left f l w) = files w.
Proof.
  intros Hf. revert w. induction l as [|b l IH]; intros w; [reflexivity|].
  simpl. now rewrite IH, Hf.
Qed.

Lemma tame_same {A : Type} (inputs : list string) (w w1 : world)
  (out : A * list string * world) :
  files w1 = files w -> tame inputs w1 out -> tame inputs w out.
Proof.
  intros Hw [Hsuf Hkeep]. split; [assumption|].
  intros name Hname. rewrite Hkeep by assumption. now rewrite Hw.
Qed.

Lemma tame_quiet {A : Type} (a : A) (inputs : list string) (w w' : world) :
  files w' = files w -> tame inputs w (a, inputs, w').
Proof. intros Hw. split; [reflexivity|]. intros name _. cbn [snd]. now rewrite Hw. Qed.

Lemma offer_to_store_tame (data : pyval) (inputs : list string) (w w1 : world) :
  files w1 = files w -> tame inputs w (offer_to_store data inputs w1).
Proof. intros Hw. apply (tame_same _ _ w1 _ Hw), offer_loop_tame. Qed.

Lemma files_print_subjects (data : list record) (w : world) :
  files (print_subjects data w) = files w.
Proof.
  unfold print_subjects. apply files_fold. intros w0 r.
  now destruct (dict_get "course_name" r).
Qed.

Lemma view_subjects_tame (db : database) (n : nat) :
  forall (inputs : list string) (w : world),
    (length inputs <= n)%nat ->
    tame inputs w (view_subjects_by_student upper db inputs w).
Proof.
  induction n as [|n IH]; intros inputs w Hlen.
  - destruct inputs; [|simpl in Hlen; lia]. now apply tame_nil.
  - destruct inputs as [|line rest]; [now apply tame_nil|].
    cbn [view_subjects_by_student]. unfold fetchall.
    destruct (select_course_codes db (SStr (Str.strip (upper line)))) as [|c cs].
    + destruct rest as [|answer rest']; [now apply tame_stop|].
      destruct (go_back_to_menu upper answer).
      * eapply tame_cons; [|now apply tame_stop]. intros; reflexivity.
      * eapply tame_cons; [|eapply tame_cons; [|apply IH; simpl in Hlen; lia]];
          intros; reflexivity.
    + destruct (subjects_data db (c :: cs)) as [|r rs].
      * now apply tame_stop.
      * eapply tame_cons; [intros; reflexivity|].
        apply offer_to_store_tame. now rewrite files_print_subjects.
Qed.

(** X8.  The subjects lookup asks for an identifier again after every
    identifier that has no enrollment row and an answer other than B to
    the question that follows.  After such turns, a further identifier
    without a row and the answer B end it: it returns, the lines after the
    B are left unread, and it has printed its three lines for each
    identifier and nothing else, so that it never came to the export
    prompt; when the input runs out instead, it raises [EOFError].  No
    file is written on the way. *)
Theorem X8_subjects_lookup_on_misses :
  forall (db : database) (misses : list (string * string)) (line answer : string)
    (rest : list string) (w : world),
    Forall (fun m => select_course_codes db (SStr (Str.strip (upper m.1))) = []
                     /\ go_back_to_menu upper m.2 = false) misses ->
    select_course_codes db (SStr (Str.strip (upper line))) = [] ->
    let turns := List.concat (List.map (subjects_miss upper) (List.map fst misses)) in
    (go_back_to_menu upper answer = true ->
     view_subjects_by_student upper db (miss_lines misses ++ line :: answer :: rest) w
     = (Ok tt, rest, prints (turns ++ subjects_miss upper line) w))
    /\ view_subjects_by_student upper db (miss_lines misses ++ [line]) w
       = (Raise EOFError, [], prints (turns ++ subjects_miss upper line) w)
    /\ view_subjects_by_student upper db (miss_lines misses) w
       = (Raise EOFError, [], prints (turns ++ [nl "Enter student ID: "]) w).
Proof.
  intros db misses line answer rest w Hmiss Hline. cbv zeta.
  revert w. induction Hmiss as [|[l a] misses [Hl Ha] _ IH]; intros w.
  - cbn [List.map List.concat miss_lines List.flat_map app
         view_subjects_by_student].
    unfold fetchall. rewrite Hline. split; [|split].
    + intros ->. same_world.
    + same_world.
    + same_world.
  - cbn [List.map List.concat miss_lines List.flat_map app fst snd
         view_subjects_by_student] in *.
    unfold fetchall. rewrite Hl, Ha. fold (miss_lines misses).
    match goal with
    | |- context [view_subjects_by_student upper db _ ?w0] =>
        destruct (IH w0) as (IH1 & IH2 & IH3)
    end.
    split; [|split].
    + intros Hb. rewrite (IH1 Hb). same_world.
    + rewrite IH2. same_world.
    + rewrite IH3. same_world.
Qed.

Lemma files_print_students (data : list record) :
  forall (i : Z) (w : world), files (print_students data i w) = files w.
Proof.
  induction data as [|r data IH]; intros i w; [reflexivity|].
  cbn [print_students]. now rewrite IH.
Qed.

Lemma all_student_names_tame (db : database) (inputs : list string) (w : world) :
  tame inputs w (all_student_names db inputs w).
Proof.
  unfold all_student_names, fetchall.
  destruct (select_student_names db) as [|row rows]; [now apply tame_quiet|].
  apply offer_to_store_tame. now rewrite files_print_students.
Qed.

Lemma incomplete_loop_files (db : database) (rows : list (scalar * scalar)) :
  forall (count : Z) (acc : list record) (w : world),
    files (incomplete_loop db rows count acc w).2 = files w.
Proof.
  induction rows as [|[sid code] rows IH]; intros count acc w; [reflexivity|].
  cbn [incomplete_loop].
  destruct (get_course_name db code) as [name|e]; [|reflexivity].
  destruct (get_student_info db sid) as [info|]; now rewrite IH.
Qed.

Lemma low_loop_files (db : database) (rows : list (scalar * scalar * scalar)) :
  forall (count : Z) (acc : list record) (w : world),
    files (low_loop db rows count acc w).2 = files w.
Proof.
  induction rows as [|[[sid code] mark] rows IH]; intros count acc w; [reflexivity|].
  cbn [low_loop].
  destruct (get_course_name db code) as [name|e]; [|reflexivity].
  destruct (get_student_info db sid) as [info|]; now rewrite IH.
Qed.

Lemma list_students_not_completed_tame (db : database) (inputs : list string)
  (w : world) :
  tame inputs w (list_students_not_completed db inputs w).
Proof.
  unfold list_students_not_completed, fetchall.
  destruct (select_incomplete db) as [|row rows]; [now apply tame_quiet|].
  match goal with
  | |- context [incomplete_loop ?d ?r ?c ?a ?w0] =>
      pose proof (incomplete_loop_files d r c a w0) as Hf;
      destruct (incomplete_loop d r c a w0) as [[data|e] w']
  end; cbn [snd files print] in Hf.
  - now apply offer_to_store_tame.
  - now apply tame_quiet.
Qed.

Lemma list_students_with_low_marks_tame (db : database) (inputs : list string)
  (w : world) :
  tame inputs w (list_students_with_low_marks db inputs w).
Proof.
  unfold list_students_with_low_marks, fetchall.
  destruct (select_low_marks db) as [|row rows]; [now apply tame_quiet|].
  match goal with
  | |- context [low_loop ?d ?r ?c ?a ?w0] =>
      pose proof (low_loop_files d r c a w0) as Hf;
      destruct (low_loop d r c a w0) as [[data|e] w']
  end; cbn [snd files print] in Hf.
  - now apply offer_to_store_tame.
  - now apply tame_quiet.
Qed.

Lemma files_print_address (address_data : record) (w : world) :
  files (print_address capitalize address_data w) = files w.
Proof. unfold print_address. now rewrite files_fold. Qed.

Lemma lookup_address_tame (db : database) (n : nat) :
  forall (inputs : list string) (w : world),
    (length inputs <= n)%nat ->
    tame inputs w (lookup_address_by_name upper capitalize db inputs w).
Proof.
  induction n as [|n IH]; intros inputs w Hlen.
  - destruct inputs; [|simpl in Hlen; lia]. now apply tame_nil.
  - destruct inputs as [|line1 rest1]; [now apply tame_nil|].
    cbn [lookup_address_by_name].
    destruct rest1 as [|line2 rest2]; [now apply tame_stop|].
    destruct (fetchone (select_address_id db _ _)) as [address_id|].
    + destruct (fetchone (select_address db address_id)) as [address|].
      * eapply tame_cons; [intros; reflexivity|].
        eapply tame_cons; [intros; reflexivity|].
        apply offer_to_store_tame. now rewrite files_print_address.
      * eapply tame_cons; [|now apply tame_stop]; intros; reflexivity.
    + destruct rest2 as [|answer rest3].
      * eapply tame_cons; [|now apply tame_stop]; intros; reflexivity.
      * destruct (go_back_to_menu upper answer).
        -- eapply tame_cons; [|eapply tame_cons; [|now apply tame_stop]];
             intros; reflexivity.
        -- eapply tame_cons;
             [|eapply tame_cons;
               [|eapply tame_cons; [|apply IH; simpl in Hlen; lia]]];
             intros; reflexivity.
Qed.

Lemma list_reviews_tame (db : database) (n : nat) :
  forall (inputs : list string) (w : world),
    (length inputs <= n)%nat ->
    tame inputs w (list_reviews_by_student upper db inputs w).
Proof.
  induction n as [|n IH]; intros inputs w Hlen.
  - destruct inputs; [|simpl in Hlen; lia]. now apply tame_nil.
  - destruct inputs as [|line rest]; [now apply tame_nil|].
    cbn [list_reviews_by_student]. unfold fetchall.
    destruct (select_reviews db (SStr (Str.strip (upper line)))) as [|r rs].
    + destruct rest as [|answer rest']; [now apply tame_stop|].
      destruct (go_back_to_menu upper answer).
      * eapply tame_cons; [|now apply tame_stop]. intros; reflexivity.
      * eapply tame_cons; [|eapply tame_cons; [|apply IH; simpl in Hlen; lia]];
          intros; reflexivity.
    + eapply tame_cons; [intros; reflexivity|].
      apply offer_to_store_tame. now rewrite files_fold.
Qed.

Lemma list_courses_tame (db : database) (n : nat) :
  forall (inputs : list string) (w : world),
    (length inputs <= n)%nat ->
    tame inputs w (list_courses_by_teacher upper db inputs w).
Proof.
  induction n as [|n IH]; intros inputs w Hlen.
  - destruct inputs; [|simpl in Hlen; lia]. now apply tame_nil.
  - destruct inputs as [|line rest]; [now apply tame_nil|].
    cbn [list_courses_by_teacher]. unfold fetchall.
    destruct (select_courses_by_teacher db (SStr (Str.strip (upper line)))) as [|c cs].
    + destruct rest as [|answer rest']; [now apply tame_stop|].
      destruct (go_back_to_menu upper answer).
      * eapply tame_cons; [|now apply tame_stop]. intros; reflexivity.
      * eapply tame_cons; [|eapply tame_cons; [|apply IH; simpl in Hlen; lia]];
          intros; reflexivity.
    + eapply tame_cons; [intros; reflexivity|].
      apply offer_to_store_tame. now rewrite files_fold.
Qed.

Lemma menu_action_tame (z : Z) (db : database) (inputs : list string)
  (w : world) (out : result unit * list string * world) :
  menu_action upper capitalize z db inputs w = Some out -> tame inputs w out.
Proof.
  unfold menu_action.
  destruct z as [|p|p]; try (intros Hd; discriminate Hd).
  do 3 (try destruct p as [p|p|]; try (intros Hd; discriminate Hd));
    intros [= <-];
    first [ apply (list_students_with_low_marks_tame db inputs w)
          | apply (list_students_not_completed_tame db inputs w)
          | apply all_student_names_tame
          | apply (lookup_address_tame db (length inputs)); lia
          | apply (list_courses_tame db (length inputs)); lia
          | apply (list_reviews_tame db (length inputs)); lia
          | apply (view_subjects_tame db (length inputs)); lia ].
Qed.

(** ** The menu *)

Lemma names_file_suffix (rest' rest : list string) (name : string) :
  suffix rest' rest -> names_file rest' name -> names_file rest name.
Proof.
  intros [k ->] Hn. unfold names_file. apply Exists_app. now right.
Qed.

Lemma menu_ends_step (line : string) (rest rest' : list string)
  (w w1 : world) (o : option (menu_end * list string * world)) :
  suffix rest' rest ->
  keeps_other_files rest w w1 ->
  menu_ends rest' w1 o -> menu_ends (line :: rest) w o.
Proof.
  intros Hsuf Hkeep (e & r & w' & -> & He & Hs & Hk).
  exists e, r, w'. split; [reflexivity|]. split; [exact He|]. split.
  - apply suffix_cons_r. now transitivity rest'.
  - intros name Hname.
    assert (Hrest : ~ names_file rest name).
    { intros Hin. apply Hname. now right. }
    rewrite Hk, Hkeep; [reflexivity | exact Hrest |].
    intros Hin. apply Hrest. now apply (names_file_suffix rest').
Qed.

Lemma menu_ends_step_same (inputs : list string) (w w1 : world)
  (o : option (menu_end * list string * world)) :
  files w1 = files w -> menu_ends inputs w1 o -> menu_ends inputs w o.
Proof.
  intros Hw (e & r & w' & -> & He & Hs & Hk).
  exists e, r, w'. repeat split; try assumption.
  intros name Hname. rewrite Hk by assumption. now rewrite Hw.
Qed.

Lemma keeps_same (inputs : list string) (w w1 : world) :
  files w1 = files w -> keeps_other_files inputs w w1.
Proof. intros Hw name _. now rewrite Hw. Qed.

Lemma menu_loop_ends (db : database) (fuel : nat) :
  forall (inputs : list string) (w : world),
    (length inputs < fuel)%nat ->
    menu_ends inputs w (menu_loop upper capitalize fuel db inputs w).
Proof.
  induction fuel as [|fuel IH]; intros inputs w Hlen; [lia|].
  cbn [menu_loop]. destruct inputs as [|line rest].
  - eexists _, _, _. split; [reflexivity|]. split; [right; now eexists|].
    split; [reflexivity|]. now apply keeps_same.
  - simpl in Hlen. destruct (py_int line) as [z|].
    + destruct (Z.eqb z 8).
      * eexists _, _, _. split; [reflexivity|]. split; [now left|].
        split; [apply suffix_cons_r; reflexivity|]. now apply keeps_same.
      * destruct (menu_action upper capitalize z db rest _) as [[[r rest'] w']|] eqn:Ha.
        -- apply menu_action_tame in Ha as [Hsuf Hkeep]. cbn [fst snd] in *.
           assert (Hlen' : (length rest' < fuel)%nat).
           { apply suffix_length in Hsuf. lia. }
           assert (Hk : keeps_other_files rest w w').
           { intros name Hname. now rewrite Hkeep. }
           destruct r as [u|e].
           ++ apply (menu_ends_step line rest rest' w w' _ Hsuf Hk). now apply IH.
           ++ destruct e;
                try (eexists _, _, _; split; [reflexivity|];
                     split; [right; eexists; split; [reflexivity | discriminate]|];
                     split; [apply suffix_cons_r; exact Hsuf|];
                     intros name Hname; apply Hk; intros Hin; apply Hname; now right).
              apply (menu_ends_step line rest rest' w
                       (print (msg_bad_number) w') _ Hsuf Hk).
              now apply IH.
        -- apply (menu_ends_step line rest rest w _ _ (reflexivity _)
                    (keeps_same rest w w eq_refl)).
           eapply (menu_ends_step_same); [|apply IH; lia]. reflexivity.
    + apply (menu_ends_step line rest rest w _ _ (reflexivity _)
               (keeps_same rest w w eq_refl)).
      eapply (menu_ends_step_same); [|apply IH; lia]. reflexivity.
Qed.

(** X9.  On every input the menu loop comes to an end, and in two ways
    only: by option 8, which exits with status 0, or by an exception
    that is no [ValueError] (the end of the input among them); what it
    leaves unread is a tail of the input. *)
Theorem X9_menu_ends :
  forall (db : database) (inputs : list string) (w : world),
    exists (e : menu_end) (rest : list string) (w' : world),
      menu_options upper capitalize db inputs w = Some (e, rest, w')
      /\ (e = Exited 0 \/ exists ex, e = Crashed ex /\ ex <> ValueError)
      /\ suffix rest inputs.
Proof.
  intros db inputs w. unfold menu_options.
  destruct (menu_loop_ends db (S (length inputs)) inputs
              (print (bold "Welcome to the HyperionDev Query APP!") w)
              ltac:(lia))
    as (e & rest & w' & Hrun & He & Hs & _).
  now exists e, rest, w'.
Qed.

(** X10.  Whatever is chosen in the menu and typed at its prompts, a
    file that no line of the input names is left as it was. *)
Theorem X10_menu_writes_named_files_only :
  forall (db : database) (inputs : list string) (w : world) (name : string),
    ~ names_file inputs name ->
    forall (e : menu_end) (rest : list string) (w' : world),
      menu_options upper capitalize db inputs w = Some (e, rest, w') ->
      files w' !! name = files w !! name.
Proof.
  intros db inputs w name Hname e rest w' Hrun. unfold menu_options in Hrun.
  destruct (menu_loop_ends db (S (length inputs)) inputs
              (print (bold "Welcome to the HyperionDev Query APP!") w)
              ltac:(lia))
    as (e1 & rest1 & w1 & Hrun1 & _ & _ & Hk).
  rewrite Hrun in Hrun1. injection Hrun1 as -> -> ->.
  now rewrite Hk.
Qed.

(** ** A written file, read again *)

End Coverage.

(** ** The threshold of the low-marks listing *)

Section LowMarks.
Context `{XmlLib}.
Context `{FS : FileSystem}.

Lemma sql_le_30 (mark : scalar) : sql_le_int mark 30 = at_most_30 mark.
Proof.
  destruct mark as [|m|s|x]; try reflexivity.
  cbn [sql_le_int at_most_30]. unfold real_compare_int, real_is_zero.
  destruct (N.eqb (real_integer x) 0) eqn:E0.
  - apply N.eqb_eq in E0. rewrite E0. cbn [andb].
    destruct (whole (real_fraction x)); destruct (real_negative x); reflexivity.
  - cbn [andb]. destruct (real_negative x); [reflexivity|]. cbn [orb].
    destruct (N.compare_spec (real_integer x) 30) as [E | E | E].
    + rewrite E. cbn. now destruct (whole (real_fraction x)).
    + apply N.ltb_lt in E. now rewrite E.
    + assert (N.ltb (real_integer x) 30 = false) as -> by (apply N.ltb_ge; lia).
      assert (N.eqb (real_integer x) 30 = false) as -> by (apply N.eqb_neq; lia).
      reflexivity.
Qed.

Lemma low_rows_at_most_30 (db : database) : low_rows db = low_enrollments db.
Proof.
  unfold low_rows, low_enrollments. apply List.filter_ext. intros e. apply sql_le_30.
Qed.

(** C9.  The low-marks listing selects an enrollment row exactly when
    its mark is a number no greater than 30: an integer up to 30, or a
    float that is negative, below 30, or 30.0.  When no row has such a
    mark it says so; otherwise, every such row naming a course, it offers
    for export the Records of exactly these rows that have a student, in
    table order, and shows one line for each.  So a mark of 30 is listed
    and a mark of 31 is not; a text or a missing mark is never listed. *)
Theorem C9_low_mark_threshold :
  forall (db : database) (inputs : list string) (w : world),
    let low := List.filter (fun e => at_most_30 (sc_mark e)) (StudentCourses db) in
    let rows :=
      List.map (fun e => (sc_student_id e, sc_course_code e, sc_mark e)) low in
    (forall e, In e low <-> In e (StudentCourses db) /\ mark_at_most_30 (sc_mark e))
    /\ (low = [] ->
        list_students_with_low_marks db inputs w
        = (Ok tt, inputs, print (nl "No students have a mark below 30.") w))
    /\ (low <> [] ->
        Forall (fun e => select_course_name db (sc_course_code e) <> []) low ->
        exists w',
          list_students_with_low_marks db inputs w
          = offer_to_store (of_records (low_records db rows)) inputs w'
          /\ files w' = files w
          /\ length (stdout w')
             = S (length (stdout w) + length (low_records db rows))).
Proof.
  intros db inputs w low rows. split; [|split].
  - intros e. unfold low. rewrite filter_In. split.
    + intros [Hin Hm]. split; [assumption|]. now apply at_most_30_spec.
    + intros [Hin Hm]. split; [assumption|]. now apply at_most_30_spec.
  - intros Hlow. unfold list_students_with_low_marks, fetchall, select_low_marks.
    rewrite low_rows_at_most_30. unfold low_enrollments. fold low. now rewrite Hlow.
  - intros Hlow Hres.
    unfold list_students_with_low_marks, fetchall, select_low_marks.
    rewrite low_rows_at_most_30. unfold low_enrollments. fold low. fold rows.
    destruct rows as [|row rows'] eqn:Hrows.
    { destruct low; [contradiction | discriminate Hrows]. }
    assert (Hres' : Forall (fun row => select_course_name db row.1.2 <> [])
                      (row :: rows')).
    { rewrite <- Hrows. unfold rows. apply Forall_forall. intros x Hx.
      apply list_elem_of_In, in_map_iff in Hx as (e & <- & He). cbn [fst snd].
      rewrite Forall_forall in Hres. apply Hres. now apply list_elem_of_In. }
    destruct (low_loop_resolved db (row :: rows') 1 []
                (print (nl (bold "Students who have a mark below 30:")
                        +:+ String Ch.newline EmptyString) w) Hres')
      as (w' & -> & Hf & Ho).
    exists w'. split; [reflexivity|]. split; [exact Hf|].
    rewrite Ho. cbn [print stdout]. rewrite length_app. simpl. lia.
Qed.

End LowMarks.

(** ** A finished export

    On a file system that opens every name. *)

Section Written.
Context `{XmlLib}.

End Written.

(** ** Lists of Records through the JSON functions *)

Module RoundTripList.
Import Json JsonDecoder JsonShape RoundTrip.

Lemma scan_once_lbracket fuel (s : string) :
  scan_once (S fuel) (String Ch.lbracket s)
  = '(vs, r) ← JSONArray (scan_once fuel) fuel s; Some (PList vs, r).
Proof. reflexivity. Qed.

Lemma iterencode_dict_token indent (level : nat) (d : record) (r : string) :
  starts_token (iterencode_dict indent level d +:+ r)
  /\ exists s, iterencode_dict indent level d +:+ r = String Ch.lbrace s.
Proof. destruct d as [|kv d]; split; try reflexivity; now eexists. Qed.

Section Arrays.
Variable indent : string.
Hypothesis indent_ws : Str.forallb Ch.is_json_ws indent = true.
Variable scan : string -> option (pyval * string).
Variable level : nat.

Lemma array_items_encoded (r : string) (rs : list record) :
  forall (d : record) (fuel : nat),
    (forall d' r', In d' (d :: rs) ->
                   scan (iterencode_dict indent (S level) d' +:+ r') = Some (PDict d', r')) ->
    (length rs < fuel)%nat ->
    array_items scan fuel
      (iterencode_dict indent (S level) d
       +:+ elems_tail indent (S level) rs
       +:+ newline_indent indent level +:+ String Ch.rbracket r)
    = Some (PDict d :: List.map PDict rs, r).
Proof.
  induction rs as [|d2 rs IH]; intros d fuel Hscan Hfuel;
    (destruct fuel as [|fuel]; [simpl in Hfuel; lia|]);
    cbn [array_items]; rewrite Hscan by (now left); scan_step.
  - cbn [elems_tail List.map Str.concat String.append].
    rewrite (skip_newline_indent indent indent_ws). scan_step. reflexivity.
  - cbn [elems_tail List.map Str.concat]. unfold item_separator at 1.
    rewrite !app_assoc_s. scan_step.
    rewrite (skip_newline_indent indent indent_ws).
    fold (elems_tail indent (S level) rs).
    rewrite (skip_ws_token _ (proj1 (iterencode_dict_token indent (S level) d2 _))).
    rewrite (IH d2 fuel); [reflexivity | | simpl in Hfuel; lia].
    intros d' r' Hin. apply Hscan. now right.
Qed.
End Arrays.

Lemma JSONArray_items scan fuel (s s0 : string) :
  skip_ws s = String Ch.lbrace s0 ->
  JSONArray scan fuel s = array_items scan fuel (String Ch.lbrace s0).
Proof. intros E. unfold JSONArray. rewrite E. scan_step. reflexivity. Qed.

Lemma length_join_sum (sep : string) (l : list string) :
  (list_sum (List.map String.length l) <= String.length (Str.join sep l))%nat.
Proof.
  induction l as [|x l IH]; [reflexivity|].
  destruct l as [|y l]; [simpl; lia|].
  change (Str.join sep (x :: y :: l)) with (x +:+ sep +:+ Str.join sep (y :: l)).
  set (J := Str.join sep (y :: l)) in *.
  rewrite !length_app_s. simpl in *. lia.
Qed.

Lemma list_sum_elem (x : nat) (l : list nat) :
  In x l -> (x <= list_sum l)%nat.
Proof.
  induction l as [|y l IH]; [intros []|].
  intros [-> | Hin]; simpl; [lia|]. specialize (IH Hin). lia.
Qed.

Lemma list_sum_count (l : list nat) :
  (forall x, In x l -> (1 <= x)%nat) -> (length l <= list_sum l)%nat.
Proof.
  induction l as [|y l IH]; intros Hl; [reflexivity|].
  simpl. pose proof (Hl y (or_introl eq_refl)).
  specialize (IH (fun x Hx => Hl x (or_intror Hx))). lia.
Qed.

Lemma length_iterencode_dict_pos indent (level : nat) (d : record) :
  (1 <= String.length (iterencode_dict indent level d))%nat.
Proof. destruct d; simpl; lia. Qed.

Section Lists.
Variable indent : string.
Hypothesis indent_ws : Str.forallb Ch.is_json_ws indent = true.

Lemma scan_once_records (level fuel : nat) (rs : list record) (r : string) :
  Forall (fun d => NoDup (List.map fst d)) rs ->
  Forall (fun d => (length d < fuel)%nat) rs ->
  (length rs <= fuel)%nat ->
  scan_once (S fuel) (iterencode indent level (of_records rs) +:+ r)
  = Some (of_records rs, r).
Proof.
  intros Hnd Hlen Hfuel. destruct rs as [|d rs]; [reflexivity|].
  unfold of_records. cbn [iterencode List.map].
  change (iterencode indent (S level) (PDict d)) with (iterencode_dict indent (S level) d).
  rewrite join_cons, !map_map.
  change (fun x : record => item_separator indent (S level)
                            +:+ iterencode indent (S level) (PDict x))
    with (fun x : record => item_separator indent (S level)
                            +:+ iterencode_dict indent (S level) x).
  rewrite <- (map_map (iterencode_dict indent (S level))
                (String.append (item_separator indent (S level)))).
  fold (elems_tail indent (S level) rs).
  cbn [String.append]. rewrite scan_once_lbracket. rewrite !app_assoc_s.
  destruct (iterencode_dict_token indent (S level) d
              (elems_tail indent (S level) rs
               +:+ newline_indent indent level +:+ String Ch.rbracket r))
    as [Htok (s0 & E)].
  rewrite (JSONArray_items _ _ _ s0)
    by (rewrite (skip_newline_indent indent indent_ws), skip_ws_token by exact Htok;
        exact E).
  rewrite <- E.
  rewrite (array_items_encoded indent indent_ws (scan_once fuel) level r rs d fuel).
  - reflexivity.
  - intros d' r' Hin. destruct fuel as [|fuel]; [simpl in Hfuel; lia|].
    apply scan_once_record; [exact indent_ws | |].
    + rewrite Forall_forall in Hnd. apply Hnd. now apply list_elem_of_In.
    + rewrite Forall_forall in Hlen.
      specialize (Hlen d' (proj2 (list_elem_of_In _ _) Hin)). lia.
  - simpl in Hfuel. lia.
Qed.
End Lists.

Lemma iterencode_list_cons indent (level : nat) (v : pyval) (l : list pyval) :
  iterencode indent level (PList (v :: l))
  = String Ch.lbracket
      (newline_indent indent (S level)
       +:+ Str.join (item_separator indent (S level))
             (List.map (iterencode indent (S level)) (v :: l))
       +:+ newline_indent indent level +:+ String Ch.rbracket EmptyString).
Proof. reflexivity. Qed.

Lemma length_items_sum indent (level : nat) (v : pyval) (l : list pyval) :
  (list_sum (List.map String.length (List.map (iterencode indent (S level)) (v :: l)))
   < String.length (iterencode indent level (PList (v :: l))))%nat.
Proof.
  rewrite iterencode_list_cons.
  set (L := List.map (iterencode indent (S level)) (v :: l)).
  pose proof (length_join_sum (item_separator indent (S level)) L) as Hj.
  cbn [String.length]. rewrite !length_app_s. lia.
Qed.

Lemma length_dumps_records (rs : list record) :
  Forall (fun d => (length d < String.length (dumps (of_records rs)))%nat) rs
  /\ (length rs <= String.length (dumps (of_records rs)))%nat.
Proof.
  destruct rs as [|d0 rs0]; [split; [constructor | simpl; lia]|].
  pose proof (length_items_sum "    " 0 (PDict d0) (List.map PDict rs0)) as Hlen.
  change (PList (PDict d0 :: List.map PDict rs0)) with (of_records (d0 :: rs0)) in Hlen.
  change (PDict d0 :: List.map PDict rs0) with (List.map PDict (d0 :: rs0)) in Hlen.
  fold (dumps (of_records (d0 :: rs0))) in Hlen.
  set (rs := d0 :: rs0) in *. set (n := String.length (dumps (of_records rs))) in *.
  rewrite !map_map in Hlen. split.
  - apply Forall_forall. intros d Hd. apply list_elem_of_In in Hd.
    pose proof (list_sum_elem (String.length (iterencode "    " 1 (PDict d)))
                  (List.map (fun x => String.length (iterencode "    " 1 (PDict x))) rs)) as Hs.
    pose proof (length_iterencode_dict "    " 1 d) as Hd1.
    change (iterencode "    " 1 (PDict d)) with (iterencode_dict "    " 1 d) in Hs.
    specialize (Hs ltac:(apply in_map_iff; now exists d)). lia.
  - pose proof (list_sum_count
                  (List.map (fun x => String.length (iterencode "    " 1 (PDict x))) rs)) as Hc.
    rewrite length_map in Hc.
    specialize (Hc ltac:(intros x Hx; apply in_map_iff in Hx as (d & <- & _);
                         apply length_iterencode_dict_pos)).
    lia.
Qed.

(** [json.loads(json.dumps(records, indent=4)) == records] *)
Lemma loads_dumps_records (rs : list record) :
  Forall (fun d => NoDup (List.map fst d)) rs ->
  loads (dumps (of_records rs)) = Some (of_records rs).
Proof.
  intros Hnd. unfold loads.
  destruct (length_dumps_records rs) as [Hlen Hcount].
  set (s := dumps (of_records rs)) in *.
  assert (Hs : skip_ws s = s).
  { apply skip_ws_token. subst s. now destruct rs. }
  rewrite Hs. rewrite <- (app_nil_r_s s) at 2.
  subst s. unfold dumps at 2.
  rewrite (scan_once_records "    " eq_refl 0 _ rs EmptyString Hnd Hlen Hcount).
  reflexivity.
Qed.
End RoundTripList.

(** ** From the prompt to the file *)

Section Composition.
Context `{XmlLib}.
Context `{FS : FileSystem}.

Lemma json_file_reads_back (rs : list record) (filename : string)
  (w : world) :
  open_w filename = None ->
  Forall (fun d => NoDup (List.map fst d)) rs ->
  (text ← read_text filename (store_data_as_json (of_records rs) filename w).2;
   JsonDecoder.loads text)
  = Some (of_records rs).
Proof.
  intros Ho Hnd.
  unfold store_data_as_json. rewrite Ho.
  unfold read_text, write_text, print. cbn [snd files].
  rewrite lookup_insert_eq. cbn [mbind option_bind].
  rewrite utf8_decode_encode. cbn [mbind option_bind].
  now apply RoundTripList.loads_dumps_records.
Qed.

End Composition.

(** X12.  A list of Records with distinct field names, exported as JSON
    and read and decoded again, is the same list: the same Records in the
    same order, each with its fields in order and its values unchanged. *)
Theorem X12_result_set_reads_back :
  forall (rs : list record) (filename : string) (w : world),
    Forall (fun d => NoDup (List.map fst d)) rs ->
    (text ← read_text filename (store_data_as_json (of_records rs) filename w).2;
     JsonDecoder.loads text)
    = Some (of_records rs).
Proof.
  intros rs filename w Hnd. now apply json_file_reads_back.
Qed.

(** ** The lines of a JSON file *)

Lemma count_char_app (c : ascii) (a b : string) :
  count_char c (a +:+ b) = (count_char c a + count_char c b)%nat.
Proof.
  induction a as [|x a IH]; [reflexivity|].
  cbn [String.append count_char]. rewrite IH. lia.
Qed.

Lemma escape_char_one_line (c : ascii) :
  count_char Ch.newline (Json.escape_char c) = O.
Proof. destruct c as [[] [] [] [] [] [] [] []]; reflexivity. Qed.

Lemma escape_one_line (s : string) : count_char Ch.newline (Json.escape s) = O.
Proof.
  induction s as [|c s IH]; [reflexivity|].
  cbn [Json.escape]. now rewrite count_char_app, escape_char_one_line, IH.
Qed.

Lemma string_of_uint_one_line (d : uint) :
  count_char Ch.newline (string_of_uint d) = O.
Proof. induction d; [reflexivity | ..]; cbn [string_of_uint count_char]; now rewrite IHd. Qed.

Lemma encode_scalar_one_line (v : scalar) :
  count_char Ch.newline (Json.encode_scalar v) = O.
Proof.
  destruct v as [|n|s|x]; [reflexivity | | |].
  - unfold Json.encode_scalar, repr_int.
    destruct (Z.to_int n); cbn [count_char]; now rewrite string_of_uint_one_line.
  - unfold Json.encode_scalar, Json.encode_basestring_ascii. cbn [count_char].
    now rewrite count_char_app, escape_one_line.
  - unfold Json.encode_scalar, repr_real. rewrite !count_char_app.
    cbn [count_char]. rewrite !string_of_uint_one_line.
    now destruct (real_negative x).
Qed.

Lemma field_line_one_line (kv : string * scalar) :
  count_char Ch.newline (field_line kv) = O.
Proof.
  unfold field_line, Json.encode_item, Json.encode_basestring_ascii.
  cbn [String.append count_char].
  rewrite !count_char_app, escape_one_line, encode_scalar_one_line. reflexivity.
Qed.

Lemma count_join_lines (l : list string) :
  Forall (fun x => count_char Ch.newline x = O) l ->
  count_char Ch.newline (Str.join comma_newline l) = Nat.pred (length l).
Proof.
  induction 1 as [|x l Hx Hl IH]; [reflexivity|].
  destruct l as [|y l]; [exact Hx|].
  change (Str.join comma_newline (x :: y :: l))
    with (x +:+ comma_newline +:+ Str.join comma_newline (y :: l)).
  rewrite !count_char_app, Hx, IH. reflexivity.
Qed.

(** X14.  The JSON text of a Record with at least one field has a line
    break after the opening brace, one between two fields and one before
    the closing brace, and no other: a line break inside a field name or
    a value is written as an escape, never as itself. *)
Theorem X14_json_record_lines :
  forall (kv : string * scalar) (r : record),
    count_char Ch.newline (Json.dumps (PDict (kv :: r))) = S (S (length r)).
Proof.
  intros kv r. rewrite dumps_layout. unfold layout.
  cbn [count_char]. rewrite count_char_app, count_join_lines.
  - rewrite length_map. cbn [count_char]. char_tests. simpl. lia.
  - apply Forall_forall. intros x Hx.
    apply list_elem_of_In, in_map_iff in Hx as (kv' & <- & _).
    apply field_line_one_line.
Qed.

(** ** The exceptions that leave the program *)

Section Exceptions.
Context `{XmlLib}.
Context `{FS : FileSystem}.
Variable upper : string -> string.
Variable capitalize : string -> string.
(** The exceptions of the pretty-printing library and of [open]. *)
Variable P : exn -> Prop.
Hypothesis library_raises : forall (s : string) (e : exn),
  parse_toprettyxml s = Raise e -> P e.
Hypothesis open_raises : forall (filename : string) (e : exn),
  open_w filename = Some e -> P e.

Lemma write_tree_raises (tree : ET.element) (filename : string) (w : world)
  (e : exn) (w' : world) :
  write_tree tree filename w = (Raise e, w') -> P e.
Proof.
  unfold write_tree.
  destruct (parse_toprettyxml (tostring tree)) as [text|e1] eqn:Hp.
  - destruct (open_w filename) as [e2|] eqn:Ho; [|discriminate].
    intros [= <- _]. now apply (open_raises _ _ Ho).
  - intros [= <- _]. now apply (library_raises _ _ Hp).
Qed.

Lemma store_json_raises (data : pyval) (filename : string) (w : world)
  (e : exn) (w' : world) :
  store_data_as_json data filename w = (Raise e, w') -> P e.
Proof.
  unfold store_data_as_json.
  destruct (open_w filename) as [e2|] eqn:Ho; [|discriminate].
  intros [= <- _]. now apply (open_raises _ _ Ho).
Qed.

Lemma store_xml_records (rs : list record) (filename : string) (w : world) :
  store_data_as_xml (of_records rs) filename w
  = write_tree (XmlShape.records_tree rs) filename w.
Proof.
  destruct (XmlTree.build_tree_records rs) as (h & Hb & Hs).
  unfold store_data_as_xml. now rewrite Hb, Hs.
Qed.

Lemma store_xml_record (r : record) (filename : string) (w : world) :
  store_data_as_xml (PDict r) filename w
  = write_tree (XmlShape.record_tree r) filename w.
Proof.
  destruct (XmlTree.build_tree_record r) as (h & Hb & Hs).
  unfold store_data_as_xml. now rewrite Hb, Hs.
Qed.

(** The data that the operations of the menu offer. *)
Lemma store_xml_result_set (data : pyval) (filename : string) (w : world) :
  (exists r, data = PDict r) \/ (exists rs, data = of_records rs) ->
  exists tree, store_data_as_xml data filename w = write_tree tree filename w.
Proof.
  intros [[r ->] | [rs ->]]; eexists;
    [apply store_xml_record | apply store_xml_records].
Qed.

Lemma offer_loop_raises (data : pyval) (inputs : list string) :
  (exists r, data = PDict r) \/ (exists rs, data = of_records rs) ->
  forall (p : prompt) (w : world),
    raises_in (escapes P) (offer_loop data p inputs w).
Proof.
  intros Hdata. induction inputs as [|line rest IH]; intros p w e.
  - destruct p; cbn; intros [= <-]; now left.
  - destruct p; cbn [offer_loop].
    + destruct (py_int line) as [z|]; [|apply IH].
      destruct z as [|[q|[q|q|]|]|q]; first [apply IH | discriminate].
    + destruct (classify (Str.strip line)); try apply IH.
      * destruct (store_xml_result_set data (Str.strip line)
                    (print msg_filename w) Hdata) as [tree ->].
        destruct (write_tree tree (Str.strip line) (print msg_filename w))
          as [[u|e1] w'] eqn:Hw; [discriminate|].
        apply write_tree_raises in Hw.
        destruct e1; try apply IH;
          (cbn; intros [= <-]; right; split; [assumption | discriminate]).
      * destruct (store_data_as_json data (Str.strip line) (print msg_filename w))
          as [[u|e1] w'] eqn:Hw; [discriminate|].
        apply store_json_raises in Hw.
        destruct e1; try apply IH;
          (cbn; intros [= <-]; right; split; [assumption | discriminate]).
Qed.

Lemma raises_in_weaken {A : Type} (Q Q' : exn -> Prop)
  (out : result A * list string * world) :
  (forall e, Q e -> Q' e) -> raises_in Q out -> raises_in Q' out.
Proof. intros HQ Hout e He. apply HQ, Hout, He. Qed.

Lemma offer_to_store_records_raises (rs : list record) (inputs : list string)
  (w : world) :
  raises_in (escapes P) (offer_to_store (of_records rs) inputs w).
Proof. apply offer_loop_raises. right. now exists rs. Qed.

Lemma raises_eof {A : Type} (a : list string) (w : world) :
  raises_in (A := A) (escapes P) (Raise EOFError, a, w).
Proof. intros e [= <-]. now left. Qed.

Lemma raises_ok {A : Type} (u : A) (a : list string) (w : world) (Q : exn -> Prop) :
  raises_in Q (Ok u, a, w).
Proof. intros e Hd. discriminate Hd. Qed.

Lemma all_student_names_raises (db : database) (inputs : list string) (w : world) :
  raises_in (escapes P) (all_student_names db inputs w).
Proof.
  unfold all_student_names, fetchall.
  destruct (select_student_names db); [apply raises_ok|].
  apply offer_to_store_records_raises.
Qed.

Lemma view_subjects_raises (db : database) (n : nat) :
  forall (inputs : list string) (w : world),
    (length inputs <= n)%nat ->
    raises_in (escapes P) (view_subjects_by_student upper db inputs w).
Proof.
  induction n as [|n IH]; intros inputs w Hlen.
  - destruct inputs; [apply raises_eof | simpl in Hlen; lia].
  - destruct inputs as [|line rest]; [apply raises_eof|].
    cbn [view_subjects_by_student]. unfold fetchall.
    destruct (select_course_codes db _) as [|c cs].
    + destruct rest as [|answer rest']; [apply raises_eof|].
      destruct (go_back_to_menu upper answer); [apply raises_ok|].
      apply IH. simpl in Hlen. lia.
    + destruct (subjects_data db (c :: cs)) as [|r rs] eqn:Hd; [apply raises_ok|].
      apply offer_to_store_records_raises.
Qed.

Lemma lookup_address_raises (db : database) (n : nat) :
  forall (inputs : list string) (w : world),
    (length inputs <= n)%nat ->
    raises_in (escapes P) (lookup_address_by_name upper capitalize db inputs w).
Proof.
  induction n as [|n IH]; intros inputs w Hlen.
  - destruct inputs; [apply raises_eof | simpl in Hlen; lia].
  - destruct inputs as [|line1 rest1]; [apply raises_eof|].
    cbn [lookup_address_by_name].
    destruct rest1 as [|line2 rest2]; [apply raises_eof|].
    destruct (fetchone (select_address_id db _ _)) as [address_id|].
    + destruct (fetchone (select_address db address_id)) as [address|];
        [|apply raises_ok].
      apply offer_loop_raises. left. now eexists.
    + destruct rest2 as [|answer rest3]; [apply raises_eof|].
      destruct (go_back_to_menu upper answer); [apply raises_ok|].
      apply IH. simpl in Hlen. lia.
Qed.

Lemma list_reviews_raises (db : database) (n : nat) :
  forall (inputs : list string) (w : world),
    (length inputs <= n)%nat ->
    raises_in (escapes P) (list_reviews_by_student upper db inputs w).
Proof.
  induction n as [|n IH]; intros inputs w Hlen.
  - destruct inputs; [apply raises_eof | simpl in Hlen; lia].
  - destruct inputs as [|line rest]; [apply raises_eof|].
    cbn [list_reviews_by_student]. unfold fetchall.
    destruct (select_reviews db _) as [|r rs].
    + destruct rest as [|answer rest']; [apply raises_eof|].
      destruct (go_back_to_menu upper answer); [apply raises_ok|].
      apply IH. simpl in Hlen. lia.
    + apply offer_to_store_records_raises.
Qed.

Lemma list_courses_raises (db : database) (n : nat) :
  forall (inputs : list string) (w : world),
    (length inputs <= n)%nat ->
    raises_in (escapes P) (list_courses_by_teacher upper db inputs w).
Proof.
  induction n as [|n IH]; intros inputs w Hlen.
  - destruct inputs; [apply raises_eof | simpl in Hlen; lia].
  - destruct inputs as [|line rest]; [apply raises_eof|].
    cbn [list_courses_by_teacher]. unfold fetchall.
    destruct (select_courses_by_teacher db _) as [|c cs].
    + destruct rest as [|answer rest']; [apply raises_eof|].
      destruct (go_back_to_menu upper answer); [apply raises_ok|].
      apply IH. simpl in Hlen. lia.
    + apply offer_to_store_records_raises.
Qed.

Lemma incomplete_loop_raises (db : database) (rows : list (scalar * scalar)) :
  forall (count : Z) (acc : list record) (w : world) (e : exn),
    (incomplete_loop db rows count acc w).1 = Raise e -> e = TypeError.
Proof.
  induction rows as [|[sid code] rows IH]; intros count acc w e; [discriminate|].
  cbn [incomplete_loop]. unfold get_course_name.
  destruct (fetchone (select_course_name db code)); [|now intros [= <-]].
  destruct (get_student_info db sid); apply IH.
Qed.

Lemma low_loop_raises (db : database) (rows : list (scalar * scalar * scalar)) :
  forall (count : Z) (acc : list record) (w : world) (e : exn),
    (low_loop db rows count acc w).1 = Raise e -> e = TypeError.
Proof.
  induction rows as [|[[sid code] mark] rows IH]; intros count acc w e; [discriminate|].
  cbn [low_loop]. unfold get_course_name.
  destruct (fetchone (select_course_name db code)); [|now intros [= <-]].
  destruct (get_student_info db sid); apply IH.
Qed.

Lemma listings_raise (db : database) (inputs : list string) (w : world) :
  raises_in (fun e => e = TypeError \/ escapes P e)
    (list_students_not_completed db inputs w)
  /\ raises_in (fun e => e = TypeError \/ escapes P e)
       (list_students_with_low_marks db inputs w).
Proof.
  split.
  - unfold list_students_not_completed, fetchall.
    destruct (select_incomplete db) as [|row rows]; [apply raises_ok|].
    match goal with
    | |- context [incomplete_loop ?d ?r ?c ?a ?w0] =>
        pose proof (incomplete_loop_raises d r c a w0) as Hl;
        destruct (incomplete_loop d r c a w0) as [[data|e1] w']
    end.
    + eapply raises_in_weaken; [|apply offer_to_store_records_raises]. now right.
    + intros e [= <-]. left. now apply Hl.
  - unfold list_students_with_low_marks, fetchall.
    destruct (select_low_marks db) as [|row rows]; [apply raises_ok|].
    match goal with
    | |- context [low_loop ?d ?r ?c ?a ?w0] =>
        pose proof (low_loop_raises d r c a w0) as Hl;
        destruct (low_loop d r c a w0) as [[data|e1] w']
    end.
    + eapply raises_in_weaken; [|apply offer_to_store_records_raises]. now right.
    + intros e [= <-]. left. now apply Hl.
Qed.

Lemma menu_action_raises (z : Z) (db : database) (inputs : list string)
  (w : world) (out : result unit * list string * world) :
  menu_action upper capitalize z db inputs w = Some out ->
  raises_in (fun e => e = TypeError \/ escapes P e) out
  /\ (z <> 6 -> z <> 7 -> raises_in (escapes P) out).
Proof.
  unfold menu_action.
  destruct z as [|p|p]; try (intros Hd; discriminate Hd).
  do 3 (try destruct p as [p|p|]; try (intros Hd; discriminate Hd));
    intros [= <-];
    first [ split; [apply (proj2 (listings_raise db inputs w)) | congruence]
          | split; [apply (proj1 (listings_raise db inputs w)) | congruence]
          | split; [eapply raises_in_weaken; [intros e He; right; exact He|]|intros _ _];
            first [ apply all_student_names_raises
                  | apply (lookup_address_raises db (length inputs)); lia
                  | apply (list_courses_raises db (length inputs)); lia
                  | apply (list_reviews_raises db (length inputs)); lia
                  | apply (view_subjects_raises db (length inputs)); lia ] ].
Qed.

Lemma menu_loop_crashes (db : database) (fuel : nat) :
  forall (inputs : list string) (w : world) (e : exn) (rest : list string)
    (w' : world),
    menu_loop upper capitalize fuel db inputs w = Some (Crashed e, rest, w') ->
    e = TypeError \/ escapes P e.
Proof.
  induction fuel as [|fuel IH]; intros inputs w e rest w'; [discriminate|].
  cbn [menu_loop]. destruct inputs as [|line more].
  - intros [= <- _ _]. right. now left.
  - destruct (py_int line) as [z|]; [|apply IH].
    destruct (Z.eqb z 8); [discriminate|].
    destruct (menu_action upper capitalize z db more _) as [[[r rest1] w1]|] eqn:Ha;
      [|apply IH].
    apply menu_action_raises in Ha as [Hr _].
    destruct r as [u|e1]; [apply IH|].
    specialize (Hr e1 eq_refl).
    destruct e1; try apply IH; now intros [= <- _ _].
Qed.

End Exceptions.

(** ** Lookups that miss before they hit *)

Section Hits.
Context `{XmlLib}.
Context `{FS : FileSystem}.
Variable upper : string -> string.
Variable capitalize : string -> string.

(** X16.  The teacher lookup and the review lookup ask again after an
    identifier with no row, unless B is answered, and stop at the first
    identifier with rows: its courses, each beside the identifier as it
    was looked up, or its reviews, are offered for export in table order,
    the lines after it are left to the export prompt, and nothing was
    written on the way. *)
Theorem X16_lookups_stop_at_the_first_hit :
  forall (db : database) (misses : list (string * string)) (line : string)
    (rest : list string) (w : world),
    let key := Str.strip (upper line) in
    (Forall (fun m => select_courses_by_teacher db (SStr (Str.strip (upper m.1))) = []
                      /\ go_back_to_menu upper m.2 = false) misses ->
     select_courses_by_teacher db (SStr key) <> [] ->
     exists w',
       list_courses_by_teacher upper db (miss_lines misses ++ line :: rest) w
       = offer_to_store
           (of_records (List.map (teacher_record key)
                          (select_courses_by_teacher db (SStr key))))
           rest w'
       /\ files w' = files w)
    /\ (Forall (fun m => select_reviews db (SStr (Str.strip (upper m.1))) = []
                         /\ go_back_to_menu upper m.2 = false) misses ->
        select_reviews db (SStr key) <> [] ->
        exists w',
          list_reviews_by_student upper db (miss_lines misses ++ line :: rest) w
          = offer_to_store
              (of_records (List.map review_record (select_reviews db (SStr key))))
              rest w'
          /\ files w' = files w).
Proof.
  intros db misses line rest w key. split; intros Hmiss Hhit.
  - revert w. induction Hmiss as [|[l a] misses [Hl Ha] _ IH]; intros w.
    + cbn [miss_lines List.flat_map app list_courses_by_teacher]. unfold fetchall.
      fold key. destruct (select_courses_by_teacher db (SStr key)) as [|c cs] eqn:Hc;
        [contradiction|].
      eexists. split; [reflexivity|]. now rewrite files_fold.
    + cbn [miss_lines List.flat_map app list_courses_by_teacher fst snd] in *.
      unfold fetchall. rewrite Hl, Ha.
      fold (miss_lines misses).
      match goal with
      | |- context [list_courses_by_teacher upper db _ ?w0] =>
          destruct (IH w0) as (w' & -> & Hf)
      end.
      exists w'. split; [reflexivity | exact Hf].
  - revert w. induction Hmiss as [|[l a] misses [Hl Ha] _ IH]; intros w.
    + cbn [miss_lines List.flat_map app list_reviews_by_student]. unfold fetchall.
      fold key. destruct (select_reviews db (SStr key)) as [|c cs] eqn:Hc;
        [contradiction|].
      eexists. split; [reflexivity|]. now rewrite files_fold.
    + cbn [miss_lines List.flat_map app list_reviews_by_student fst snd] in *.
      unfold fetchall. rewrite Hl, Ha.
      fold (miss_lines misses).
      match goal with
      | |- context [list_reviews_by_student upper db _ ?w0] =>
          destruct (IH w0) as (w' & -> & Hf)
      end.
      exists w'. split; [reflexivity | exact Hf].
Qed.

(** X17.  The address lookup asks for the two names again after a pair
    that no student bears, unless B is answered.  At the first pair that a
    student bears it takes the first such student in table order and the
    first address with that student's address identifier, and offers for
    export a single mapping of the street and the city, not a list; when
    there is no such address it says so and offers nothing. *)
Theorem X17_address_lookup_offers_one_mapping :
  forall (db : database) (misses : list (string * string * string))
    (first last : string) (rest : list string) (w : world) (address_id : scalar),
    let firstname := Str.strip (capitalize first) in
    let surname := Str.strip (capitalize last) in
    Forall (fun m =>
              select_address_id db (SStr (Str.strip (capitalize m.1.1)))
                (SStr (Str.strip (capitalize m.1.2))) = []
              /\ go_back_to_menu upper m.2 = false) misses ->
    List.head (select_address_id db (SStr firstname) (SStr surname))
    = Some address_id ->
    exists w',
      files w' = files w
      /\ lookup_address_by_name upper capitalize db
           (miss_lines3 misses ++ first :: last :: rest) w
         = match List.head (select_address db address_id) with
           | Some (street, city) =>
               offer_to_store (PDict [("street", street); ("city", city)]) rest w'
           | None => (Ok tt, rest, w')
           end.
Proof.
  intros db misses first last rest w address_id firstname surname Hmiss Hhit.
  revert w. induction Hmiss as [|[[f l] a] misses [Hl Ha] _ IH]; intros w.
  - cbn [miss_lines3 List.flat_map app lookup_address_by_name]. unfold fetchone.
    fold firstname. fold surname. rewrite Hhit.
    destruct (List.head (select_address db address_id)) as [[street city]|].
    + eexists. split; [|reflexivity]. now rewrite files_print_address.
    + eexists. split; [|reflexivity]. reflexivity.
  - cbn [miss_lines3 List.flat_map app lookup_address_by_name fst snd] in *.
    unfold fetchone at 1. rewrite Hl. cbn [List.head]. rewrite Ha.
    fold (miss_lines3 misses).
    match goal with
    | |- context [lookup_address_by_name upper capitalize db _ ?w0] =>
        destruct (IH w0) as (w' & Hf & ->)
    end.
    exists w'. split; [exact Hf | reflexivity].
Qed.
End Hits.

(** ** Option 1 and the options that are none *)

Section Options.
Context `{XmlLib}.
Context `{FS : FileSystem}.
Variable upper : string -> string.
Variable capitalize : string -> string.

Lemma show_student_fields (s : Student) :
  let r := student_record (s_first_name s, s_last_name s) in
  show_field "first_name" r = py_str (s_first_name s)
  /\ show_field "last_name" r = py_str (s_last_name s).
Proof. split; reflexivity. Qed.

Lemma print_students_stdout (students : list Student) :
  forall (i : Z) (w : world),
    stdout (print_students
              (List.map (fun s => student_record (s_first_name s, s_last_name s))
                 students) i w)
    = stdout w ++ imap (fun k s => student_line (i + Z.of_nat k) s) students.
Proof.
  induction students as [|s students IH]; intros i w.
  - cbn. now rewrite app_nil_r.
  - cbn [List.map print_students]. rewrite IH.
    destruct (show_student_fields s) as [-> ->].
    cbn [print stdout imap]. rewrite <- app_assoc. cbn [app].
    do 2 f_equal.
    + unfold student_line. now rewrite Z.add_0_r.
    + apply imap_ext. intros k x _. cbn [compose]. f_equal. lia.
Qed.

(** X18.  Option 1 on an empty Student table says that there are no
    students and asks nothing.  Otherwise it prints its heading and one
    line per student in table order, numbered from 1, writes nothing
    itself, and offers for export one Record per student, in the same
    order, with the first name and the last name. *)
Theorem X18_all_students_listed_and_offered :
  forall (db : database) (inputs : list string) (w : world),
    match Students db with
    | [] =>
        all_student_names db inputs w
        = (Ok tt, inputs, print (nl "No students found.") w)
    | _ :: _ =>
        exists w',
          all_student_names db inputs w
          = offer_to_store
              (of_records
                 (List.map (fun s => [("first_name", s_first_name s);
                                      ("last_name", s_last_name s)])
                    (Students db)))
              inputs w'
          /\ files w' = files w
          /\ stdout w'
             = stdout w
               ++ (nl (bold "Student names and surnames:")
                   +:+ String Ch.newline EmptyString)
                  :: imap (fun k s => student_line (Z.of_nat k + 1) s) (Students db)
    end.
Proof.
  intros db inputs w. unfold all_student_names, fetchall, select_student_names.
  destruct (Students db) as [|s students]; [reflexivity|].
  exists (print_students
            (List.map (fun s0 => student_record (s_first_name s0, s_last_name s0))
               (s :: students)) 1
            (print (nl (bold "Student names and surnames:")
                    +:+ String Ch.newline EmptyString) w)).
  split; [|split].
  - cbn [List.map]. rewrite List.map_map. reflexivity.
  - now rewrite files_print_students.
  - rewrite print_students_stdout. cbn [print stdout].
    rewrite <- app_assoc. cbn [app]. do 2 f_equal.
    apply imap_ext. intros k x _. f_equal. lia.
Qed.

Lemma menu_action_none (z : Z) (db : database) (inputs : list string) (w : world) :
  z < 1 \/ 8 < z ->
  Z.eqb z 8 = false /\ menu_action upper capitalize z db inputs w = None.
Proof.
  intros Hz. split; [apply Z.eqb_neq; lia|].
  unfold menu_action. destruct z as [|p|p]; try reflexivity.
  do 3 (try destruct p as [p|p|]; try reflexivity); lia.
Qed.

Lemma menu_loop_no_options (db : database) (wrong : list string) (line : string)
  (rest : list string) :
  Forall no_option wrong ->
  py_int line = Some 8 ->
  forall (fuel : nat) (w : world),
    (length wrong < fuel)%nat ->
    exists w',
      menu_loop upper capitalize fuel db (wrong ++ line :: rest) w
      = Some (Exited 0, rest, w')
      /\ files w' = files w
      /\ stdout w'
         = stdout w ++ List.concat (List.map menu_complaint wrong)
           ++ [menu_text; EmptyString; nl "Program exited successfully!"].
Proof.
  intros Hwrong Hline.
  induction Hwrong as [|l wrong Hl _ IH]; intros fuel w Hfuel;
    (destruct fuel as [|fuel]; [simpl in Hfuel; lia|]); cbn [app menu_loop].
  - rewrite Hline. cbn [Z.eqb Pos.eqb]. eexists. split; [reflexivity|].
    split; [reflexivity|]. cbn [print stdout List.map List.concat app].
    now rewrite <- !app_assoc.
  - cbn [List.map List.concat]. unfold no_option in Hl. unfold menu_complaint at 1.
    destruct (py_int l) as [z|].
    + destruct (menu_action_none z db (wrong ++ line :: rest)
                  (print EmptyString (print menu_text w)) Hl) as [-> ->].
      destruct (IH fuel (print msg_bad_option
                           (print EmptyString (print menu_text w)))
                  ltac:(simpl in Hfuel; lia)) as (w' & -> & Hf & Hs).
      exists w'. split; [reflexivity|]. split; [exact Hf|].
      rewrite Hs. cbn [print stdout app]. now rewrite <- !app_assoc.
    + destruct (IH fuel (print msg_bad_number (print menu_text w))
                  ltac:(simpl in Hfuel; lia)) as (w' & -> & Hf & Hs).
      exists w'. split; [reflexivity|]. split; [exact Hf|].
      rewrite Hs. cbn [print stdout app]. now rewrite <- !app_assoc.
Qed.

(** X19.  A line that is no integer, or an integer outside 1 to 8, runs
    no operation: the menu is printed, then the complaint, and the menu
    comes again.  After any number of such lines, option 8 exits with
    status 0: nothing was written to a file, the output is the welcome,
    the complaints and the farewell, and the lines after the 8 are left
    unread. *)
Theorem X19_menu_skips_what_is_no_option :
  forall (db : database) (wrong : list string) (line : string)
    (rest : list string) (w : world),
    Forall no_option wrong ->
    py_int line = Some 8 ->
    exists w',
      menu_options upper capitalize db (wrong ++ line :: rest) w
      = Some (Exited 0, rest, w')
      /\ files w' = files w
      /\ stdout w'
         = stdout w
           ++ bold "Welcome to the HyperionDev Query APP!"
              :: List.concat (List.map menu_complaint wrong)
           ++ [menu_text; EmptyString; nl "Program exited successfully!"].
Proof.
  intros db wrong line rest w Hwrong Hline. unfold menu_options.
  destruct (menu_loop_no_options db wrong line rest Hwrong Hline
              (S (length (wrong ++ line :: rest)))
              (print (bold "Welcome to the HyperionDev Query APP!") w))
    as (w' & -> & Hf & Hs).
  { rewrite length_app. simpl. lia. }
  exists w'. split; [reflexivity|]. split; [exact Hf|].
  rewrite Hs. cbn [print stdout]. now rewrite <- app_assoc.
Qed.

End Options.

(** * Concrete runs of the further properties *)

Lemma C9_low_mark_threshold_witness :
  exists w',
    list_students_with_low_marks (H := plain_xml) db_marks ["2"] empty_world
    = offer_to_store (H := plain_xml)
        (of_records
           (low_records db_marks
              [(SStr "S1", SStr "C1", SReal real_29_5);
               (SStr "S1", SStr "C1", SInt 30)]))
        ["2"] w'
    /\ files w' = files empty_world
    /\ length (stdout w') = 3%nat.
Proof.
  refine (proj2 (proj2 (C9_low_mark_threshold (H := plain_xml) db_marks ["2"]
                          empty_world)) _ _).
  - discriminate.
  - repeat constructor; discriminate.
Defined.


Lemma X2_export_overwrites_witness :
  files (store_data_as_xml (H := plain_xml) (PDict address_data) "out.xml"
           (store_data_as_xml (H := plain_xml) (PList []) "out.xml" empty_world).2).2
  = files (store_data_as_xml (H := plain_xml) (PDict address_data) "out.xml"
             empty_world).2.
Proof.
  refine (proj2 (X2_export_overwrites (H := plain_xml) (PList []) (PDict address_data)
                   "out.xml" empty_world) _ _ _ _); reflexivity.
Defined.

Ltac no_such_name :=
  let Hn := fresh "Hn" in
  intros Hn;
  repeat (apply Exists_cons in Hn as [Hn|Hn]; [vm_compute in Hn; discriminate Hn|]);
  now apply Exists_nil in Hn.

Lemma X3_offer_to_store_writes_named_files_only_witness :
  files (offer_to_store (H := plain_xml) (PDict address_data)
           ["1"; " out.json "] empty_world).2 !! "other.json"
  = files empty_world !! "other.json".
Proof.
  refine (proj1 (X3_offer_to_store_writes_named_files_only (H := plain_xml)
                   (PDict address_data) ["1"; " out.json "] empty_world
                   "other.json" _)).
  no_such_name.
Defined.

Lemma X4_prompt_repeats_until_answered_witness :
  exists w',
    offer_to_store (H := plain_xml) (PDict address_data)
      (["yes"; "3"; separator_then "2"] ++ " 2" :: ["8"]) empty_world
    = (Ok tt, ["8"], w')
    /\ files w' = files empty_world
    /\ stdout w'
       = stdout empty_world
         ++ List.concat (List.map wrong_answer_lines
                           ["yes"; "3"; separator_then "2"])
         ++ [msg_save; msg_choice; msg_no_file].
Proof.
  refine (X4_prompt_repeats_until_answered (H := plain_xml) (PDict address_data)
            ["yes"; "3"; separator_then "2"] " 2" ["8"] empty_world _ _);
    [|reflexivity].
  repeat constructor; intros E; vm_compute in E; discriminate E.
Defined.

Lemma X5_shape_errors_at_the_prompt_witness :
  offer_loop (H := plain_xml) (PScalar (SInt 7)) AskFilename ["out.XML"; "2"]
    empty_world
  = offer_loop (H := plain_xml) (PScalar (SInt 7)) AskChoice ["2"]
      (print msg_bad_input (print msg_filename empty_world)).
Proof.
  exact (proj1 (X5_shape_errors_at_the_prompt (H := plain_xml) "out.XML" ["2"]
                  empty_world eq_refl) (SInt 7)).
Defined.

Lemma X6_listing_records_share_their_fields_witness :
  let out := incomplete_loop db_school (select_incomplete db_school) 1 []
               empty_world in
  let data := match out.1 with Ok d => d | Raise _ => [] end in
  Forall (fun r => List.map fst r = incomplete_fields) data
  /\ (length data <= length (select_incomplete db_school))%nat.
Proof.
  refine (proj1 (X6_listing_records_share_their_fields db_school empty_world _ _) _).
  reflexivity.
Defined.

Lemma X7_listings_offer_rows_with_a_student_witness :
  exists w',
    list_students_not_completed (H := plain_xml) db_school ["2"] empty_world
    = offer_to_store (H := plain_xml)
        (of_records (incomplete_records db_school (select_incomplete db_school)))
        ["2"] w'
    /\ files w' = files empty_world
    /\ length (stdout w')
       = S (length (stdout empty_world)
            + length (incomplete_records db_school (select_incomplete db_school))).
Proof.
  refine (proj1 (X7_listings_offer_rows_with_a_student (H := plain_xml) db_school
                   ["2"] empty_world) _ _).
  - discriminate.
  - repeat constructor; intros E; vm_compute in E; discriminate E.
Defined.

Lemma X8_subjects_lookup_on_misses_witness :
  view_subjects_by_student (H := plain_xml) (fun s => s) db_school
    (miss_lines [("S9", "n")] ++ "S8" :: " B" :: ["1"]) empty_world
  = (Ok tt, ["1"],
     prints (List.concat (List.map (subjects_miss (fun s => s)) ["S9"])
             ++ subjects_miss (fun s => s) "S8") empty_world).
Proof.
  refine (proj1 (X8_subjects_lookup_on_misses (H := plain_xml) (fun s => s)
                   db_school [("S9", "n")] "S8" " B" ["1"] empty_world _ _) _);
    [|reflexivity|reflexivity].
  constructor; [split; reflexivity | constructor].
Defined.

Lemma X10_menu_writes_named_files_only_witness :
  let run := menu_options (H := plain_xml) (fun s => s) (fun s => s) db_school
               ["1"; "1"; "students.json"; "8"] empty_world in
  let w' := match run with Some (_, _, w') => w' | None => empty_world end in
  files w' !! "other.json" = files empty_world !! "other.json".
Proof.
  refine (X10_menu_writes_named_files_only (H := plain_xml) (fun s => s) (fun s => s)
            db_school ["1"; "1"; "students.json"; "8"] empty_world "other.json" _
            (Exited 0) [] _ _).
  - no_such_name.
  - vm_compute. reflexivity.
Defined.

Lemma two_records_keys :
  Forall (fun d => NoDup (List.map fst d)) [address_data; []].
Proof.
  repeat constructor; rewrite ?elem_of_cons, ?elem_of_nil; intros Hin;
    repeat destruct Hin as [Hin|Hin]; try discriminate Hin; exact Hin.
Qed.

Lemma X12_result_set_reads_back_witness :
  (text ← read_text "out.json"
            (store_data_as_json (of_records [address_data; []]) "out.json"
               empty_world).2;
   JsonDecoder.loads text)
  = Some (of_records [address_data; []]).
Proof.
  exact (X12_result_set_reads_back [address_data; []] "out.json" empty_world
           two_records_keys).
Defined.



Lemma X16_lookups_stop_at_the_first_hit_witness :
  (exists w',
     list_courses_by_teacher (H := plain_xml) (fun s => s) db_school
       (miss_lines [("T9", "n")] ++ "T1" :: ["2"]) empty_world
     = offer_to_store (H := plain_xml)
         (of_records (List.map (teacher_record (Str.strip "T1"))
                        (select_courses_by_teacher db_school
                           (SStr (Str.strip "T1")))))
         ["2"] w'
     /\ files w' = files empty_world)
  /\ (exists w',
        list_reviews_by_student (H := plain_xml) (fun s => s) db_school
          (miss_lines [("S9", "n")] ++ "S1" :: ["2"]) empty_world
        = offer_to_store (H := plain_xml)
            (of_records (List.map review_record
                           (select_reviews db_school (SStr (Str.strip "S1")))))
            ["2"] w'
        /\ files w' = files empty_world).
Proof.
  split.
  - refine (proj1 (X16_lookups_stop_at_the_first_hit (H := plain_xml) (fun s => s)
                     db_school [("T9", "n")] "T1" ["2"] empty_world) _ _).
    + constructor; [split; reflexivity | constructor].
    + intros E. vm_compute in E. discriminate E.
  - refine (proj2 (X16_lookups_stop_at_the_first_hit (H := plain_xml) (fun s => s)
                     db_school [("S9", "n")] "S1" ["2"] empty_world) _ _).
    + constructor; [split; reflexivity | constructor].
    + intros E. vm_compute in E. discriminate E.
Defined.

Lemma X17_address_lookup_offers_one_mapping_witness :
  exists w',
    files w' = files empty_world
    /\ lookup_address_by_name (H := plain_xml) (fun s => s) (fun s => s) db_school
         (miss_lines3 [("Bob", "Byron", "n")] ++ "Ada" :: " Byron" :: ["2"])
         empty_world
       = match List.head (select_address db_school (SInt 1)) with
         | Some (street, city) =>
             offer_to_store (H := plain_xml)
               (PDict [("street", street); ("city", city)]) ["2"] w'
         | None => (Ok tt, ["2"], w')
         end.
Proof.
  refine (X17_address_lookup_offers_one_mapping (H := plain_xml)
            (fun s => s) (fun s => s) db_school [("Bob", "Byron", "n")]
            "Ada" " Byron" ["2"] empty_world (SInt 1) _ _).
  - constructor; [split; reflexivity | constructor].
  - reflexivity.
Defined.

Lemma X19_menu_skips_what_is_no_option_witness :
  exists w',
    menu_options (H := plain_xml) (fun s => s) (fun s => s) db_school
      (["x"; "9"; "-1"; separator_then "8"] ++ " 8 " :: ["1"]) empty_world
    = Some (Exited 0, ["1"], w')
    /\ files w' = files empty_world
    /\ stdout w'
       = stdout empty_world
         ++ bold "Welcome to the HyperionDev Query APP!"
            :: List.concat (List.map menu_complaint
                              ["x"; "9"; "-1"; separator_then "8"])
         ++ [menu_text; EmptyString; nl "Program exited successfully!"].
Proof.
  refine (X19_menu_skips_what_is_no_option (H := plain_xml)
            (fun s => s) (fun s => s) db_school
            ["x"; "9"; "-1"; separator_then "8"] " 8 " ["1"]
            empty_world _ _).
  - constructor; [exact I|].
    constructor; [right; reflexivity|].
    constructor; [left; reflexivity|].
    constructor; [exact I|].
    constructor.
  - reflexivity.
Defined.
